(** * ST95xx SPI EEPROM driver: page-write splitter and bus transactions

    A shallow embedding of [STM32_EEPROM_SPI.c].  The driver's C functions are
    written as state-passing functions that may fail to return; the values of
    type [uint16_t] and [uint8_t] are integers of [Z] with the wrap-around of
    every assignment written out. *)

From Stdlib Require Import ZArith List Lia Bool.
Import ListNotations.
Open Scope Z_scope.

(** ** Machine integers *)

(** Conversion to [uint16_t] and to [uint8_t]. *)
Definition u16 (x : Z) : Z := x mod 65536.
Definition u8 (x : Z) : Z := x mod 256.

Definition is_u16 (x : Z) : Prop := 0 <= x < 65536.

(** The device geometry invariant of the data model: the page size is a
    power of two. *)
Definition pow2 (P : Z) : Prop := exists k, 0 <= k /\ P = 2 ^ k.

(** ** Outcome of an operation

    The enumeration [EepromOperations] is declared in the driver's header;
    the source uses its three constants by name. *)
Inductive EepromOperations : Set :=
| EEPROM_STATUS_PENDING
| EEPROM_STATUS_COMPLETE
| EEPROM_STATUS_ERROR.

Definition EepromOperations_eqb (a b : EepromOperations) : bool :=
  match a, b with
  | EEPROM_STATUS_PENDING, EEPROM_STATUS_PENDING => true
  | EEPROM_STATUS_COMPLETE, EEPROM_STATUS_COMPLETE => true
  | EEPROM_STATUS_ERROR, EEPROM_STATUS_ERROR => true
  | _, _ => false
  end.

(** ** Computations

    A computation threads a state of type [W] and either returns a value and
    a new state, or does not return ([None]). *)
Definition M (W A : Type) : Type := W -> option (A * W).

Definition ret {W A : Type} (a : A) : M W A := fun w => Some (a, w).

Definition bind {W A B : Type} (m : M W A) (k : A -> M W B) : M W B :=
  fun w => match m w with
           | Some (a, w') => k a w'
           | None => None
           end.

Notation "x <- m ;; k" := (bind m (fun x => k))
  (at level 61, m at next level, right associativity).
Notation "m ;;; k" := (bind m (fun _ => k))
  (at level 61, right associativity).

(** ** The buffered-write splitter, [EEPROM_SPI_WriteBuffer]

    The splitter is written over the page-write operation it calls: [pBuffer]
    is the offset of the buffer pointer from the caller's buffer, so that
    [pBuffer += n] is an addition without wrap-around, while [WriteAddr] is a
    [uint16_t]. *)
Section Splitter.
Context {W : Type}.
(** [eeprom_h->EEPROM_PAGESIZE] *)
Variable EEPROM_PAGESIZE : Z.
(** the callee [EEPROM_SPI_WritePage (pBuffer, WriteAddr, NumByteToWrite)] *)
Variable EEPROM_SPI_WritePage : Z -> Z -> Z -> M W EepromOperations.

(** The loop [while (NumOfPage--) { ... }]: the left result is the status
    of an early [return], the right one the buffer pointer and the address
    after the last page. *)
Fixpoint WriteBuffer_pages (NumOfPage : nat) (pBuffer WriteAddr : Z)
  : M W (EepromOperations + Z * Z) :=
  match NumOfPage with
  | O => ret (inr (pBuffer, WriteAddr))
  | S NumOfPage' =>
      let sEE_DataNum := u16 EEPROM_PAGESIZE in
      pageWriteStatus <- EEPROM_SPI_WritePage pBuffer WriteAddr sEE_DataNum ;;
      if negb (EepromOperations_eqb pageWriteStatus EEPROM_STATUS_COMPLETE)
      then ret (inl pageWriteStatus)
      else WriteBuffer_pages NumOfPage'
             (pBuffer + EEPROM_PAGESIZE) (u16 (WriteAddr + EEPROM_PAGESIZE))
  end.

(** [if (pageWriteStatus != EEPROM_STATUS_COMPLETE) return pageWriteStatus;]
    followed by the rest of the function. *)
Definition check (pageWriteStatus : EepromOperations)
    (rest : M W EepromOperations) : M W EepromOperations :=
  if negb (EepromOperations_eqb pageWriteStatus EEPROM_STATUS_COMPLETE)
  then ret pageWriteStatus
  else rest.

Definition EEPROM_SPI_WriteBuffer (pBuffer WriteAddr NumByteToWrite : Z)
  : M W EepromOperations :=
  let Addr := u16 (WriteAddr mod EEPROM_PAGESIZE) in
  let count := u16 (EEPROM_PAGESIZE - Addr) in
  let NumOfPage := u16 (NumByteToWrite / EEPROM_PAGESIZE) in
  let NumOfSingle := u16 (NumByteToWrite mod EEPROM_PAGESIZE) in
  if Addr =? 0 then
    if NumOfPage =? 0 then
      let sEE_DataNum := NumByteToWrite in
      pageWriteStatus <- EEPROM_SPI_WritePage pBuffer WriteAddr sEE_DataNum ;;
      check pageWriteStatus (ret EEPROM_STATUS_COMPLETE)
    else
      r <- WriteBuffer_pages (Z.to_nat NumOfPage) pBuffer WriteAddr ;;
      match r with
      | inl pageWriteStatus => ret pageWriteStatus
      | inr (pBuffer, WriteAddr) =>
          let sEE_DataNum := NumOfSingle in
          pageWriteStatus <- EEPROM_SPI_WritePage pBuffer WriteAddr sEE_DataNum ;;
          check pageWriteStatus (ret EEPROM_STATUS_COMPLETE)
      end
  else
    if NumOfPage =? 0 then
      if NumOfSingle >? count then
        let temp := u16 (NumOfSingle - count) in
        let sEE_DataNum := count in
        pageWriteStatus <- EEPROM_SPI_WritePage pBuffer WriteAddr sEE_DataNum ;;
        check pageWriteStatus
          (let WriteAddr := u16 (WriteAddr + count) in
           let pBuffer := pBuffer + count in
           let sEE_DataNum := temp in
           pageWriteStatus <- EEPROM_SPI_WritePage pBuffer WriteAddr sEE_DataNum ;;
           check pageWriteStatus (ret EEPROM_STATUS_COMPLETE))
      else
        let sEE_DataNum := NumByteToWrite in
        pageWriteStatus <- EEPROM_SPI_WritePage pBuffer WriteAddr sEE_DataNum ;;
        check pageWriteStatus (ret EEPROM_STATUS_COMPLETE)
    else
      let NumByteToWrite := u16 (NumByteToWrite - count) in
      let NumOfPage := u16 (NumByteToWrite / EEPROM_PAGESIZE) in
      let NumOfSingle := u16 (NumByteToWrite mod EEPROM_PAGESIZE) in
      let sEE_DataNum := count in
      pageWriteStatus <- EEPROM_SPI_WritePage pBuffer WriteAddr sEE_DataNum ;;
      check pageWriteStatus
        (let WriteAddr := u16 (WriteAddr + count) in
         let pBuffer := pBuffer + count in
         r <- WriteBuffer_pages (Z.to_nat NumOfPage) pBuffer WriteAddr ;;
         match r with
         | inl pageWriteStatus => ret pageWriteStatus
         | inr (pBuffer, WriteAddr) =>
             if negb (NumOfSingle =? 0) then
               let sEE_DataNum := NumOfSingle in
               pageWriteStatus <- EEPROM_SPI_WritePage pBuffer WriteAddr sEE_DataNum ;;
               check pageWriteStatus (ret EEPROM_STATUS_COMPLETE)
             else ret EEPROM_STATUS_COMPLETE
         end).
End Splitter.

(** ** Observing the sub-writes

    A sub-write is one call of the page-write operation: the offset of the
    buffer pointer it is given, the address and the length. *)
Record SubWrite : Set := mkSubWrite { sw_buf : Z; sw_addr : Z; sw_len : Z }.

(** A page-write operation that records the call and answers with the status
    [resp n] at its [n]-th call (counted from 0). *)
Definition page_stub (resp : nat -> EepromOperations) (pBuffer WriteAddr NumByteToWrite : Z)
  : M (list SubWrite) EepromOperations :=
  fun log => Some (resp (length log), log ++ [mkSubWrite pBuffer WriteAddr NumByteToWrite]).

(** The sub-writes issued for page size [P], address [A] and length [L] when
    every page write completes. *)
Definition issued (P A L : Z) : list SubWrite :=
  match EEPROM_SPI_WriteBuffer P (page_stub (fun _ => EEPROM_STATUS_COMPLETE)) 0 A L [] with
  | Some (_, log) => log
  | None => []
  end.

(** ** The computed sequence of sub-writes, in closed form *)

(** The calls of [n] rounds of the page loop from buffer offset [o] and
    address [a]. *)
Fixpoint pages (P : Z) (n : nat) (o a : Z) : list SubWrite :=
  match n with
  | O => []
  | S n' => mkSubWrite o a (u16 P) :: pages P n' (o + P) (u16 (a + P))
  end.

(** The value of [WriteAddr] after [n] rounds of the page loop. *)
Fixpoint pages_addr (P : Z) (n : nat) (a : Z) : Z :=
  match n with
  | O => a
  | S n' => pages_addr P n' (u16 (a + P))
  end.

(** The calls of [EEPROM_SPI_WriteBuffer], branch by branch. *)
Definition plan (P A L : Z) : list SubWrite :=
  let Addr := u16 (A mod P) in
  let count := u16 (P - Addr) in
  let NumOfPage := u16 (L / P) in
  let NumOfSingle := u16 (L mod P) in
  if Addr =? 0 then
    if NumOfPage =? 0 then [mkSubWrite 0 A L]
    else
      pages P (Z.to_nat NumOfPage) 0 A ++
      [mkSubWrite (0 + Z.of_nat (Z.to_nat NumOfPage) * P)
                  (pages_addr P (Z.to_nat NumOfPage) A) NumOfSingle]
  else
    if NumOfPage =? 0 then
      if NumOfSingle >? count
      then [mkSubWrite 0 A count;
            mkSubWrite (0 + count) (u16 (A + count)) (u16 (NumOfSingle - count))]
      else [mkSubWrite 0 A L]
    else
      let L' := u16 (L - count) in
      let NumOfPage' := Z.to_nat (u16 (L' / P)) in
      let NumOfSingle' := u16 (L' mod P) in
      mkSubWrite 0 A count ::
      pages P NumOfPage' (0 + count) (u16 (A + count)) ++
      (if negb (NumOfSingle' =? 0)
       then [mkSubWrite (0 + count + Z.of_nat NumOfPage' * P)
                        (pages_addr P NumOfPage' (u16 (A + count))) NumOfSingle']
       else []).

(** Following the words of the specification: the sub-writes of a sequence
    are executed in order; the first one that does not complete ends the
    operation with its status, and nothing after it is attempted. *)
Fixpoint run_list {W : Type} (WP : Z -> Z -> Z -> M W EepromOperations)
    (cs : list SubWrite) (k : M W EepromOperations) : M W EepromOperations :=
  match cs with
  | [] => k
  | c :: cs' =>
      st <- WP (sw_buf c) (sw_addr c) (sw_len c) ;;
      check st (run_list WP cs' k)
  end.

Definition run_plan {W : Type} (WP : Z -> Z -> Z -> M W EepromOperations)
    (cs : list SubWrite) : M W EepromOperations :=
  run_list WP cs (ret EEPROM_STATUS_COMPLETE).

(** A page-write operation observed from outside: every call is recorded
    together with the status it returned. *)
Definition spy {W : Type} (WP : Z -> Z -> Z -> M W EepromOperations)
    (pBuffer WriteAddr NumByteToWrite : Z)
  : M (W * list (SubWrite * EepromOperations)) EepromOperations :=
  fun s =>
    match WP pBuffer WriteAddr NumByteToWrite (fst s) with
    | Some (st, w') =>
        Some (st, (w', snd s ++ [(mkSubWrite pBuffer WriteAddr NumByteToWrite, st)]))
    | None => None
    end.

(** ** Invariants of the computed sequence *)

(** The invariant of the computed sequence, on addresses before their
    conversion to [uint16_t]: from buffer offset [o] the sub-writes follow one
    another up to offset [L], each inside one page of size [Q], and only the
    last one may be empty: the only one of a request for no byte, or the
    remainder of a page-aligned request for whole pages. *)
Fixpoint chain (P Q A L o : Z) (ws : list SubWrite) : Prop :=
  match ws with
  | [] => o = L
  | w :: ws' =>
      sw_buf w = o /\ sw_addr w = u16 (A + o) /\
      (A + o) mod Q + sw_len w <= Q /\
      (0 < sw_len w \/
       (sw_len w = 0 /\ ws' = [] /\ (o = 0 \/ (A mod P = 0 /\ L mod P = 0)))) /\
      chain P Q A L (o + sw_len w) ws'
  end.

(** The size of the pages the sub-writes respect: the page size, as long as
    it fits the 16-bit address space. *)
Definition page_unit (P : Z) : Z := Z.min P 65536.

(** ** Sequences that tile an address range *)

(** [x] is one of the addresses written by [w]. *)
Definition in_range (w : SubWrite) (x : Z) : Prop :=
  sw_addr w <= x < sw_addr w + sw_len w.

(** What the specification asks of the sub-writes of a request for [L] bytes
    at address [A] with pages of [P] bytes. *)
Record well_split (P A L : Z) (ws : list SubWrite) : Prop := {
  (* the buffer pointer advances in lockstep with the address *)
  ws_lockstep : forall w, In w ws ->
    sw_addr w = A + sw_buf w /\ 0 <= sw_buf w /\ 0 <= sw_len w /\ sw_buf w + sw_len w <= L;
  (* each sub-write starts where the one before it ends *)
  ws_contiguous : forall i w w',
    nth_error ws i = Some w -> nth_error ws (S i) = Some w' ->
    sw_addr w' = sw_addr w + sw_len w;
  (* ascending order of issue *)
  ws_ascending : forall i j wi wj, (i < j)%nat ->
    nth_error ws i = Some wi -> nth_error ws j = Some wj -> sw_addr wi < sw_addr wj;
  (* no two ranges overlap *)
  ws_disjoint : forall i j wi wj, (i < j)%nat ->
    nth_error ws i = Some wi -> nth_error ws j = Some wj ->
    sw_addr wi + sw_len wi <= sw_addr wj;
  (* the ranges cover exactly [A, A+L) *)
  ws_covers : forall x, A <= x < A + L <-> exists w, In w ws /\ in_range w x;
  (* no multiple of the page size lies strictly inside a range *)
  ws_pages : forall w m, In w ws -> ~ (sw_addr w < m * P < sw_addr w + sw_len w)
}.

(** The invariant [chain] once no address has wrapped. *)
Fixpoint tiling (Q A L o : Z) (ws : list SubWrite) : Prop :=
  match ws with
  | [] => o = L
  | w :: ws' =>
      sw_buf w = o /\ sw_addr w = A + o /\
      (A + o) mod Q + sw_len w <= Q /\
      (0 < sw_len w \/ (sw_len w = 0 /\ ws' = [])) /\
      tiling Q A L (o + sw_len w) ws'
  end.


(** A page write that counts its calls and fails at the call number [n]. *)
Definition failing_page (n : nat) (pBuffer WriteAddr NumByteToWrite : Z)
  : M nat EepromOperations :=
  fun calls =>
    Some (if Nat.eqb calls n then EEPROM_STATUS_ERROR else EEPROM_STATUS_COMPLETE,
          S calls).

(** * The bus transaction primitive *)

(** ** The bus and pin driver

    The driver reaches the hardware through the vendor's abstraction layer:
    [HAL_SPI_Transmit], [HAL_SPI_Receive], [HAL_GPIO_WritePin], [HAL_Delay],
    the field [State] of the bus handle and the application's
    [Error_Handler].  Their types are those of the vendor's headers. *)
Inductive HAL_StatusTypeDef : Set :=
| HAL_OK
| HAL_ERROR
| HAL_BUSY
| HAL_TIMEOUT.

Inductive HAL_SPI_StateTypeDef : Set :=
| HAL_SPI_STATE_RESET
| HAL_SPI_STATE_READY
| HAL_SPI_STATE_BUSY
| HAL_SPI_STATE_BUSY_TX
| HAL_SPI_STATE_BUSY_RX
| HAL_SPI_STATE_BUSY_TX_RX
| HAL_SPI_STATE_ERROR
| HAL_SPI_STATE_ABORT.

Inductive GPIO_PinState : Set :=
| GPIO_PIN_RESET
| GPIO_PIN_SET.

(** The three control lines of the handle. *)
Inductive Line : Set := CS | WP | HOLD.

(** [FlagStatus]: [SET] is [!RESET]. *)
Definition SET : Z := 1.

Definition is_busy (r : HAL_StatusTypeDef) : bool :=
  match r with HAL_BUSY => true | _ => false end.
Definition is_ok (r : HAL_StatusTypeDef) : bool :=
  match r with HAL_OK => true | _ => false end.
Definition is_error (r : HAL_StatusTypeDef) : bool :=
  match r with HAL_ERROR => true | _ => false end.
Definition is_ready (s : HAL_SPI_StateTypeDef) : bool :=
  match s with HAL_SPI_STATE_READY => true | _ => false end.
Definition is_reset (s : HAL_SPI_StateTypeDef) : bool :=
  match s with HAL_SPI_STATE_RESET => true | _ => false end.

(** The header [STM32_EEPROM_SPI.h] is not among the sources: the single-byte
    opcodes of the device command set and the mask of the write-in-progress
    flag that it defines are a parameter of the driver. *)
Record Commands : Set := {
  EEPROM_WREN : Z;
  EEPROM_WRDI : Z;
  EEPROM_RDSR : Z;
  EEPROM_WRSR : Z;
  EEPROM_READ : Z;
  EEPROM_WRITE : Z;
  EEPROM_WIP_FLAG : Z
}.

(** The behaviour of the collaborator during one run: what the [n]-th read of
    the bus state sees, what the [n]-th transmit and the [n]-th receive
    return, which bytes the receive buffer holds when the [n]-th receive
    returns, and whether [Error_Handler] returns at all. *)
Record Bus : Type := {
  spi_state : nat -> HAL_SPI_StateTypeDef;
  transmit_status : nat -> HAL_StatusTypeDef;
  receive_status : nat -> HAL_StatusTypeDef;
  receive_data : nat -> nat -> Z;
  error_handler_returns : bool
}.

(** What the driver does to its collaborator, in order. *)
Inductive Event : Set :=
| EvState (s : HAL_SPI_StateTypeDef)
| EvDelay (msecs : Z)
| EvPin (line : Line) (level : GPIO_PinState)
| EvTransmit (pData : list Z) (Size Timeout : Z) (r : HAL_StatusTypeDef)
| EvReceive (Size Timeout : Z) (r : HAL_StatusTypeDef) (pData : list Z)
| EvErrorHandler.

(** The state of a run: how many state reads, transmits and receives have
    been made, and the events so far. *)
Record World : Set := {
  reads : nat;
  transmits : nat;
  receives : nat;
  trace : list Event
}.

(** The state after one more event. *)
Definition logged (e : Event) (w : World) : World :=
  {| reads := reads w; transmits := transmits w; receives := receives w;
     trace := trace w ++ [e] |}.

Definition start : World := {| reads := 0; transmits := 0; receives := 0; trace := [] |}.

(** An unbounded loop of the source: [body] either asks for another round
    ([inl]) or leaves the loop ([inr]); the loop does not return within
    [fuel] rounds when it gives [None]. *)
Fixpoint loop {W I R : Type} (fuel : nat) (body : I -> M W (I + R)) (i : I) : M W R :=
  match fuel with
  | O => fun _ => None
  | S fuel' =>
      fun w =>
        match body i w with
        | Some (inl i', w') => loop fuel' body i' w'
        | Some (inr r, w') => Some (r, w')
        | None => None
        end
  end.

Section Driver.
Variable cmd : Commands.
Variable bus : Bus.

Definition emit (e : Event) : M World unit := fun w => Some (tt, logged e w).

(** [eeprom_h->SPI->State] *)
Definition SPI_State : M World HAL_SPI_StateTypeDef :=
  fun w =>
    let s := spi_state bus (reads w) in
    Some (s, {| reads := S (reads w); transmits := transmits w;
                receives := receives w; trace := trace w ++ [EvState s] |}).

Definition HAL_SPI_Transmit (pData : list Z) (Size Timeout : Z)
  : M World HAL_StatusTypeDef :=
  fun w =>
    let r := transmit_status bus (transmits w) in
    Some (r, {| reads := reads w; transmits := S (transmits w);
                receives := receives w;
                trace := trace w ++ [EvTransmit (firstn (Z.to_nat Size) pData) Size Timeout r] |}).

(** The result is the status together with the [Size] bytes found in the
    receive buffer when the call returns. *)
Definition HAL_SPI_Receive (Size Timeout : Z) : M World (HAL_StatusTypeDef * list Z) :=
  fun w =>
    let r := receive_status bus (receives w) in
    let pData := map (receive_data bus (receives w)) (seq 0 (Z.to_nat Size)) in
    Some ((r, pData),
          {| reads := reads w; transmits := transmits w;
             receives := S (receives w);
             trace := trace w ++ [EvReceive Size Timeout r pData] |}).

Definition HAL_Delay (msecs : Z) : M World unit := emit (EvDelay msecs).

Definition HAL_GPIO_WritePin (line : Line) (level : GPIO_PinState) : M World unit :=
  emit (EvPin line level).

Definition Error_Handler : M World unit :=
  fun w => if error_handler_returns bus then emit EvErrorHandler w else None.

Definition EEPROM_CS_HIGH : M World unit := HAL_GPIO_WritePin CS GPIO_PIN_SET.
Definition EEPROM_CS_LOW : M World unit := HAL_GPIO_WritePin CS GPIO_PIN_RESET.
Definition EEPROM_WP_HIGH : M World unit := HAL_GPIO_WritePin WP GPIO_PIN_SET.
Definition EEPROM_WP_LOW : M World unit := HAL_GPIO_WritePin WP GPIO_PIN_RESET.
Definition EEPROM_HOLD_HIGH : M World unit := HAL_GPIO_WritePin HOLD GPIO_PIN_SET.
Definition EEPROM_HOLD_LOW : M World unit := HAL_GPIO_WritePin HOLD GPIO_PIN_RESET.

Definition EEPROM_Delay (msecs : Z) : M World unit := HAL_Delay msecs.

(** [while (eeprom_h->SPI->State ... ) { EEPROM_Delay(1); }] for a test
    [again] of the state: one round, and the loop. *)
Definition wait_round (again : HAL_SPI_StateTypeDef -> bool) (_ : unit)
  : M World (unit + unit) :=
  s <- SPI_State ;;
  if again s then EEPROM_Delay 1 ;;; ret (inl tt) else ret (inr tt).

Definition wait_state (fuel : nat) (again : HAL_SPI_StateTypeDef -> bool) : M World unit :=
  loop fuel (wait_round again) tt.

Definition EEPROM_SPI_SendInstruction (fuel : nat) (instruction : list Z) (size : Z)
  : M World unit :=
  wait_state fuel is_reset ;;;
  r <- HAL_SPI_Transmit instruction (u16 (u8 size)) 200 ;;
  if negb (is_ok r) then Error_Handler else ret tt.

Definition sEE_WriteEnable (fuel : nat) : M World unit :=
  EEPROM_CS_LOW ;;;
  let command := [EEPROM_WREN cmd] in
  EEPROM_SPI_SendInstruction fuel command 1 ;;;
  EEPROM_CS_HIGH.

Definition sEE_WriteDisable (fuel : nat) : M World unit :=
  EEPROM_CS_LOW ;;;
  let command := [EEPROM_WRDI cmd] in
  EEPROM_SPI_SendInstruction fuel command 1 ;;;
  EEPROM_CS_HIGH.

Definition sEE_WriteStatusRegister (fuel : nat) (regval : Z) : M World unit :=
  let command := [EEPROM_WRSR cmd; u8 regval] in
  sEE_WriteEnable fuel ;;;
  EEPROM_CS_LOW ;;;
  EEPROM_SPI_SendInstruction fuel command 2 ;;;
  EEPROM_CS_HIGH ;;;
  sEE_WriteDisable fuel.

(** The test of the standby loop, [(sEEstatus[0] & EEPROM_WIP_FLAG) == SET]. *)
Definition write_in_progress (sEEstatus : Z) : bool :=
  Z.land sEEstatus (EEPROM_WIP_FLAG cmd) =? SET.

(** [while (HAL_SPI_Receive(..., sEEstatus, 1, 200) == HAL_BUSY) { EEPROM_Delay(1); }]:
    one round, and the loop; the result is [sEEstatus[0]]. *)
Definition receive_round (_ : Z) : M World (Z + Z) :=
  rx <- HAL_SPI_Receive 1 200 ;;
  let sEEstatus := u8 (nth 0 (snd rx) 0) in
  if is_busy (fst rx) then EEPROM_Delay 1 ;;; ret (inl sEEstatus)
  else ret (inr sEEstatus).

Definition receive_status_byte (fuel : nat) (sEEstatus : Z) : M World Z :=
  loop fuel receive_round sEEstatus.

(** [do { ... } while ((sEEstatus[0] & EEPROM_WIP_FLAG) == SET);]: one
    round, and the loop. *)
Definition poll_round (fuel : nat) (sEEstatus : Z) : M World (Z + unit) :=
  sEEstatus <- receive_status_byte fuel sEEstatus ;;
  EEPROM_Delay 1 ;;;
  if write_in_progress sEEstatus then ret (inl sEEstatus) else ret (inr tt).

Definition poll_status (fuel : nat) (sEEstatus : Z) : M World unit :=
  loop fuel (poll_round fuel) sEEstatus.

Definition EEPROM_SPI_WaitStandbyState (fuel : nat) : M World Z :=
  let sEEstatus := 0 in
  let command := [EEPROM_RDSR cmd] in
  EEPROM_CS_LOW ;;;
  EEPROM_SPI_SendInstruction fuel command 1 ;;;
  poll_status fuel sEEstatus ;;;
  EEPROM_CS_HIGH ;;;
  ret 0.

(** The loop [for (uint8_t i = 0; i < 5; i++)] of [EEPROM_SPI_WritePage]
    with [n] rounds left; the result is [spiTransmitStatus]. *)
Fixpoint WritePage_transmit (n : nat) (pData : list Z) (NumByteToWrite : Z)
    (spiTransmitStatus : HAL_StatusTypeDef) : M World HAL_StatusTypeDef :=
  match n with
  | O => ret spiTransmitStatus
  | S n' =>
      spiTransmitStatus <- HAL_SPI_Transmit pData NumByteToWrite 100 ;;
      if is_busy spiTransmitStatus
      then EEPROM_Delay 5 ;;; WritePage_transmit n' pData NumByteToWrite spiTransmitStatus
      else ret spiTransmitStatus
  end.

(** [buf] is the caller's buffer and [pBuffer] the offset of the pointer
    in it.  [spiTransmitStatus] is not initialised in the source; the
    first of the five rounds assigns it. *)
Definition EEPROM_SPI_WritePage (fuel : nat) (buf : list Z)
    (pBuffer WriteAddr NumByteToWrite : Z) : M World EepromOperations :=
  wait_state fuel (fun s => negb (is_ready s)) ;;;
  sEE_WriteEnable fuel ;;;
  let header := [EEPROM_WRITE cmd; u8 (Z.shiftr WriteAddr 8); u8 WriteAddr] in
  EEPROM_CS_LOW ;;;
  EEPROM_SPI_SendInstruction fuel header 3 ;;;
  spiTransmitStatus <-
    WritePage_transmit 5 (skipn (Z.to_nat pBuffer) buf) NumByteToWrite HAL_OK ;;
  EEPROM_CS_HIGH ;;;
  EEPROM_SPI_WaitStandbyState fuel ;;;
  sEE_WriteDisable fuel ;;;
  if is_error spiTransmitStatus
  then ret EEPROM_STATUS_ERROR
  else ret EEPROM_STATUS_COMPLETE.

(** [while (HAL_SPI_Receive(..., pBuffer, NumByteToRead, 2000) == HAL_BUSY) { EEPROM_Delay(1); }]:
    one round, and the loop; the result is the contents of the buffer. *)
Definition receive_buffer_round (NumByteToRead : Z) (_ : unit) : M World (unit + list Z) :=
  rx <- HAL_SPI_Receive NumByteToRead 2000 ;;
  if is_busy (fst rx) then EEPROM_Delay 1 ;;; ret (inl tt)
  else ret (inr (map u8 (snd rx))).

Definition receive_buffer (fuel : nat) (NumByteToRead : Z) : M World (list Z) :=
  loop fuel (receive_buffer_round NumByteToRead) tt.

(** The second component of the result is the contents of [pBuffer]. *)
Definition EEPROM_SPI_ReadBuffer (fuel : nat) (ReadAddr NumByteToRead : Z)
  : M World (EepromOperations * list Z) :=
  wait_state fuel (fun s => negb (is_ready s)) ;;;
  let header := [EEPROM_READ cmd; u8 (Z.shiftr ReadAddr 8); u8 ReadAddr] in
  EEPROM_CS_LOW ;;;
  EEPROM_SPI_SendInstruction fuel header 3 ;;;
  pBuffer <- receive_buffer fuel NumByteToRead ;;
  EEPROM_CS_HIGH ;;;
  ret (EEPROM_STATUS_COMPLETE, pBuffer).

(** The buffered write of the driver: the splitter over the page write. *)
Definition EEPROM_SPI_WriteBuffer_bus (fuel : nat) (EEPROM_PAGESIZE : Z) (buf : list Z)
    (WriteAddr NumByteToWrite : Z) : M World EepromOperations :=
  EEPROM_SPI_WriteBuffer EEPROM_PAGESIZE (EEPROM_SPI_WritePage fuel buf)
    0 WriteAddr NumByteToWrite.
End Driver.

(** The opcodes of the M95xx family, and a bus that is always ready. *)
Definition M95 : Commands :=
  {| EEPROM_WREN := 6; EEPROM_WRDI := 4; EEPROM_RDSR := 5; EEPROM_WRSR := 1;
     EEPROM_READ := 3; EEPROM_WRITE := 2; EEPROM_WIP_FLAG := 1 |}.

Definition ideal_bus : Bus :=
  {| spi_state := fun _ => HAL_SPI_STATE_READY;
     transmit_status := fun _ => HAL_OK;
     receive_status := fun _ => HAL_OK;
     receive_data := fun _ _ => 0;
     error_handler_returns := false |}.

(** A bus whose third transmit, the first attempt at a payload, fails. *)
Definition hard_error_bus : Bus :=
  {| spi_state := fun _ => HAL_SPI_STATE_READY;
     transmit_status := fun k => if Nat.eqb k 2 then HAL_ERROR else HAL_OK;
     receive_status := fun _ => HAL_OK;
     receive_data := fun _ _ => 0;
     error_handler_returns := false |}.

(** A bus that is busy for the first four attempts at a payload. *)
Definition busy_then_ok_bus : Bus :=
  {| spi_state := fun _ => HAL_SPI_STATE_READY;
     transmit_status := fun k => if Nat.leb 2 k && Nat.leb k 5 then HAL_BUSY else HAL_OK;
     receive_status := fun _ => HAL_OK;
     receive_data := fun _ _ => 0;
     error_handler_returns := false |}.



(** ** Reading a run

    The next definitions follow the words of the specification; they
    describe what a trace of events and the answers of the bus look like,
    and are compared with the driver in the theorems. *)

(** Waiting on the bus state: each read that asks to wait ([again]) is
    followed by a delay of one millisecond, and the last read ends the
    wait. *)
Definition waiting (again : HAL_SPI_StateTypeDef -> bool) (t : list Event) : Prop :=
  exists ss s,
    t = flat_map (fun s' => [EvState s'; EvDelay 1]) ss ++ [EvState s] /\
    Forall (fun s' => again s' = true) ss /\ again s = false.

(** An instruction sent: the wait for a bus out of reset, one transmit of the
    bytes, and the fatal handler when the transmit is not ok. *)
Definition sent (instruction : list Z) (t : list Event) : Prop :=
  exists t0 r,
    waiting is_reset t0 /\
    t = t0 ++ EvTransmit instruction (Z.of_nat (length instruction)) 200 r
             :: (if is_ok r then [] else [EvErrorHandler]).

(** A transaction bracketed by the chip select. *)
Definition framed (inside : list Event -> Prop) (t : list Event) : Prop :=
  exists t0, inside t0 /\ t = EvPin CS GPIO_PIN_RESET :: t0 ++ [EvPin CS GPIO_PIN_SET].

(** The answers of the bus to the attempts at transmitting a payload, when
    the first of them is the [k]-th transmit and at most [n] are made. *)
Fixpoint attempt_results (bus : Bus) (n k : nat) : list HAL_StatusTypeDef :=
  match n with
  | O => []
  | S n' =>
      let r := transmit_status bus k in
      r :: (if is_busy r then attempt_results bus n' (S k) else [])
  end.

(** The events of these attempts: a delay follows each busy answer. *)
Definition attempts (pData : list Z) (Size : Z) (rs : list HAL_StatusTypeDef)
  : list Event :=
  flat_map (fun r => EvTransmit pData Size 100 r :: (if is_busy r then [EvDelay 5] else []))
    rs.

(** The [k]-th receive delivers a status byte whose write-in-progress flag
    is clear. *)
Definition standby_at (cmd : Commands) (bus : Bus) (k : nat) : bool :=
  negb (is_busy (receive_status bus k)) &&
  negb (write_in_progress cmd (u8 (receive_data bus k 0))).

(** [k + n] is the first receive from the [k]-th on that does so. *)
Definition first_standby (cmd : Commands) (bus : Bus) (k n : nat) : Prop :=
  standby_at cmd bus (k + n) = true /\
  forall i, (i < n)%nat -> standby_at cmd bus (k + i) = false.

(** Polling the status register: the receives from the [k]-th to the
    [k + n]-th, each followed by a delay of one millisecond. *)
Definition poll_events (bus : Bus) (i : nat) : list Event :=
  [EvReceive 1 200 (receive_status bus i) [receive_data bus i 0]; EvDelay 1].

Definition polls (bus : Bus) (k n : nat) : list Event :=
  flat_map (poll_events bus) (seq k (S n)).

(** The five steps of a page write, in order: the wait for an idle bus, the
    write-enable command, the header and the payload inside one chip-select
    frame, the poll of the status register, and the write-disable command.
    [rs] are the answers to the attempts at the payload and [k] is the index
    of the first receive. *)
Definition page_write_steps (cmd : Commands) (bus : Bus) (header payload : list Z)
    (NumByteToWrite : Z) (rs : list HAL_StatusTypeDef) (k : nat)
    (t : list Event) : Prop :=
  exists t1 t2 t3 t4 t5,
    t = t1 ++ t2 ++ t3 ++ t4 ++ t5 /\
    waiting (fun s => negb (is_ready s)) t1 /\
    framed (sent [EEPROM_WREN cmd]) t2 /\
    framed (fun t' => exists th,
              sent header th /\ t' = th ++ attempts payload NumByteToWrite rs) t3 /\
    framed (fun t' => exists ts n,
              sent [EEPROM_RDSR cmd] ts /\ first_standby cmd bus k n /\
              t' = ts ++ polls bus k n) t4 /\
    framed (sent [EEPROM_WRDI cmd]) t5.

(** A computation with loops returns [x] in the state [w'] when it does so
    for every allowance of rounds above some bound. *)
Definition returns {A : Type} (f : nat -> M World A) (w : World) (x : A) (w' : World)
  : Prop :=
  exists N, forall fuel, (N < fuel)%nat -> f fuel w = Some (x, w').

(** A bus on which every wait of the driver ends: from any point on the state
    is ready at some read, an instruction is transmitted or the handler
    returns, and some receive finds the device in standby. *)
Record live (cmd : Commands) (bus : Bus) : Prop := {
  live_ready : forall k, exists n, spi_state bus (k + n) = HAL_SPI_STATE_READY;
  live_sent : error_handler_returns bus = true \/ forall k, transmit_status bus k = HAL_OK;
  live_standby : forall k, exists n, standby_at cmd bus (k + n) = true
}.

(** The effect of a piece of a run: the events [t] are appended and the
    three counters advance. *)
Definition advance (w w' : World) (t : list Event) (dr dt dx : nat) : Prop :=
  trace w' = trace w ++ t /\
  reads w' = (reads w + dr)%nat /\
  transmits w' = (transmits w + dt)%nat /\
  receives w' = (receives w + dx)%nat.
(** * The rest of the driver *)

(** The bytes of the caller's buffer [buf] that a sub-write hands to the page
    write: [sw_len] bytes from the offset [sw_buf]. *)
Definition payload_of (buf : list Z) (c : SubWrite) : list Z :=
  firstn (Z.to_nat (sw_len c)) (skipn (Z.to_nat (sw_buf c)) buf).

(** [EEPROM_SendByte]: the byte is transmitted, then one byte is received and
    returned; the handler is called after each transfer that is not ok. *)
Definition EEPROM_SendByte (bus : Bus) (fuel : nat) (byte : Z) : M World Z :=
  wait_state bus fuel is_reset ;;;
  r <- HAL_SPI_Transmit bus [u8 byte] 1 200 ;;
  (if negb (is_ok r) then Error_Handler bus else ret tt) ;;;
  wait_state bus fuel is_reset ;;;
  rx <- HAL_SPI_Receive bus 1 200 ;;
  let answerByte := u8 (nth 0 (snd rx) 0) in
  (if negb (is_ok (fst rx)) then Error_Handler bus else ret tt) ;;;
  ret answerByte.

(** The events of one sub-write of the caller's buffer [buf] that was carried
    out: the five steps of its page write. *)
Definition page_written (cmd : Commands) (bus : Bus) (buf : list Z) (c : SubWrite)
    (t : list Event) : Prop :=
  exists rs k,
    page_write_steps cmd bus
      [EEPROM_WRITE cmd; u8 (Z.shiftr (sw_addr c) 8); u8 (sw_addr c)]
      (payload_of buf c) (sw_len c) rs k t.

(** The [i]-th receive, of [Size] bytes. *)
Definition rx_event (bus : Bus) (Size Timeout : Z) (i : nat) : Event :=
  EvReceive Size Timeout (receive_status bus i)
    (map (receive_data bus i) (seq 0 (Z.to_nat Size))).

(** The receives from the [k]-th to the [k + n]-th, a delay of one
    millisecond after each but the last. *)
Definition receive_retries (bus : Bus) (Size Timeout : Z) (k n : nat) : list Event :=
  flat_map (fun i => [rx_event bus Size Timeout i; EvDelay 1]) (seq k n) ++
  [rx_event bus Size Timeout (k + n)].

(** The steps of a buffered read: the wait for an idle bus, then one
    chip-select frame with the header and the receives. *)
Definition read_steps (cmd : Commands) (bus : Bus) (header : list Z) (N : Z)
    (k n : nat) (t : list Event) : Prop :=
  exists t1 t2,
    t = t1 ++ t2 /\
    waiting (fun s => negb (is_ready s)) t1 /\
    framed (fun t' => exists th,
              sent header th /\ t' = th ++ receive_retries bus N 2000 k n) t2.

(** The pin writes of a trace, in order. *)
Fixpoint pins (t : list Event) : list (Line * GPIO_PinState) :=
  match t with
  | [] => []
  | EvPin line level :: t' => (line, level) :: pins t'
  | _ :: t' => pins t'
  end.

(** [n] chip-select frames: select, deselect. *)
Definition frames (n : nat) : list (Line * GPIO_PinState) :=
  concat (repeat [(CS, GPIO_PIN_RESET); (CS, GPIO_PIN_SET)] n).

(** A bus whose state never leaves reset, one that is never ready, one whose
    receives are always busy, and one whose first transmit fails. *)
Definition reset_bus : Bus :=
  {| spi_state := fun _ => HAL_SPI_STATE_RESET;
     transmit_status := fun _ => HAL_OK;
     receive_status := fun _ => HAL_OK;
     receive_data := fun _ _ => 0;
     error_handler_returns := false |}.

Definition busy_state_bus : Bus :=
  {| spi_state := fun _ => HAL_SPI_STATE_BUSY_TX;
     transmit_status := fun _ => HAL_OK;
     receive_status := fun _ => HAL_OK;
     receive_data := fun _ _ => 0;
     error_handler_returns := false |}.

Definition busy_receive_bus : Bus :=
  {| spi_state := fun _ => HAL_SPI_STATE_READY;
     transmit_status := fun _ => HAL_OK;
     receive_status := fun _ => HAL_BUSY;
     receive_data := fun _ _ => 0;
     error_handler_returns := false |}.

Definition failing_transmit_bus (handler_returns : bool) : Bus :=
  {| spi_state := fun _ => HAL_SPI_STATE_READY;
     transmit_status := fun k => if Nat.eqb k 0 then HAL_TIMEOUT else HAL_OK;
     receive_status := fun _ => HAL_OK;
     receive_data := fun _ _ => 0;
     error_handler_returns := handler_returns |}.

(** A device that answers the [k]-th receive with the bytes [mem] of its
    memory, after [n] busy answers, with an error status on the last. *)
Definition memory_bus (mem : list Z) (n : nat) (last_status : HAL_StatusTypeDef) : Bus :=
  {| spi_state := fun _ => HAL_SPI_STATE_READY;
     transmit_status := fun _ => HAL_OK;
     receive_status := fun k => if Nat.ltb k n then HAL_BUSY else last_status;
     receive_data := fun _ j => nth j mem 0;
     error_handler_returns := false |}.

(** ** The write-in-progress flag, read off the bus

    Following the words of the specification: the flag is polled as a mask
    against the received status byte.  A received status byte is the byte
    that the receive buffer holds when a receive returns with a status other
    than busy; the flag is clear in it when no bit of the mask is set. *)
Definition flag_clear (mask byte : Z) : Prop := Z.land byte mask = 0.

(** The [k]-th receive is not answered busy and delivers a status byte with
    the flag clear. *)
Definition in_standby (cmd : Commands) (bus : Bus) (k : nat) : Prop :=
  receive_status bus k <> HAL_BUSY /\
  flag_clear (EEPROM_WIP_FLAG cmd) (receive_data bus k 0 mod 256).

(** [k + n] is the first receive from the [k]-th on that does so. *)
Definition polled_until_standby (cmd : Commands) (bus : Bus) (k n : nat) : Prop :=
  in_standby cmd bus (k + n) /\
  forall i, (i < n)%nat -> ~ in_standby cmd bus (k + i).

(** Waiting for an idle bus: every state read but the last is not ready and
    is followed by a delay of one millisecond; the last one is ready. *)
Definition idle_wait (t : list Event) : Prop :=
  exists ss,
    t = flat_map (fun s => [EvState s; EvDelay 1]) ss ++ [EvState HAL_SPI_STATE_READY] /\
    Forall (fun s => s <> HAL_SPI_STATE_READY) ss.

(** The five steps of a page write, with the wait for an idle bus and the
    poll of the status register stated on the answers of the bus. *)
Definition five_steps (cmd : Commands) (bus : Bus) (header payload : list Z)
    (NumByteToWrite : Z) (rs : list HAL_StatusTypeDef) (k : nat)
    (t : list Event) : Prop :=
  exists t1 t2 t3 t4 t5,
    t = t1 ++ t2 ++ t3 ++ t4 ++ t5 /\
    idle_wait t1 /\
    framed (sent [EEPROM_WREN cmd]) t2 /\
    framed (fun t' => exists th,
              sent header th /\ t' = th ++ attempts payload NumByteToWrite rs) t3 /\
    framed (fun t' => exists ts n,
              sent [EEPROM_RDSR cmd] ts /\ polled_until_standby cmd bus k n /\
              t' = ts ++ polls bus k n) t4 /\
    framed (sent [EEPROM_WRDI cmd]) t5.

(** * Properties of the splitter *)

Section SplitterFacts.
Context {W : Type}.
Variable P : Z.
Variable WP : Z -> Z -> Z -> M W EepromOperations.

Lemma run_list_app (cs1 cs2 : list SubWrite) (k : M W EepromOperations) (w : W) :
  run_list WP (cs1 ++ cs2) k w = run_list WP cs1 (run_list WP cs2 k) w.
Proof.
  revert w; induction cs1 as [|c cs1 IH]; intros w; simpl; [reflexivity|].
  unfold bind. destruct (WP _ _ _ w) as [[st w']|]; [|reflexivity].
  unfold check. destruct (negb _); [reflexivity|apply IH].
Qed.

Lemma step_ext (o a n : Z) (m1 m2 : M W EepromOperations) (w : W) :
  (forall w', m1 w' = m2 w') ->
  bind (WP o a n) (fun st => check st m1) w = bind (WP o a n) (fun st => check st m2) w.
Proof.
  intros E. unfold bind. destruct (WP o a n w) as [[st w']|]; [|reflexivity].
  unfold check. destruct (negb _); [reflexivity|apply E].
Qed.

(** The page loop runs the list [pages]. *)
Lemma WriteBuffer_pages_run (n : nat) :
  forall (o a : Z) (k : EepromOperations + Z * Z -> M W EepromOperations) (w : W),
    (forall st w0, k (inl st) w0 = Some (st, w0)) ->
    bind (WriteBuffer_pages P WP n o a) k w
    = run_list WP (pages P n o a)
        (k (inr (o + Z.of_nat n * P, pages_addr P n a))) w.
Proof.
  induction n as [|n IH]; intros o a k w Hk.
  - simpl. unfold bind, ret. now rewrite Z.add_0_r.
  - cbn [WriteBuffer_pages pages pages_addr run_list sw_buf sw_addr sw_len].
    unfold bind at 1 2 3. destruct (WP o a (u16 P) w) as [[st w']|]; [|reflexivity].
    unfold check. destruct (negb _).
    + unfold ret. apply Hk.
    + specialize (IH (o + P) (u16 (a + P)) k w' Hk). unfold bind in IH at 1.
      rewrite IH. replace (o + P + Z.of_nat n * P) with (o + Z.of_nat (S n) * P) by lia.
      reflexivity.
Qed.

(** The splitter executes its computed sequence: refinement of the code by
    [run_plan]. *)
Lemma WriteBuffer_runs_plan (A L : Z) (w : W) :
  EEPROM_SPI_WriteBuffer P WP 0 A L w = run_plan WP (plan P A L) w.
Proof.
  unfold EEPROM_SPI_WriteBuffer, plan, run_plan.
  destruct (u16 (A mod P) =? 0).
  - destruct (u16 (L / P) =? 0); [reflexivity|].
    rewrite WriteBuffer_pages_run by reflexivity.
    rewrite run_list_app. reflexivity.
  - destruct (u16 (L / P) =? 0).
    + destruct (u16 (L mod P) >? u16 (P - u16 (A mod P))); reflexivity.
    + cbn [run_list sw_buf sw_addr sw_len]. apply step_ext. intros w'.
      rewrite WriteBuffer_pages_run by reflexivity.
      rewrite run_list_app.
      destruct (negb (u16 (u16 (L - u16 (P - u16 (A mod P))) mod P) =? 0)); reflexivity.
Qed.
End SplitterFacts.

Lemma run_list_stub (cs : list SubWrite) :
  forall log,
    run_list (page_stub (fun _ => EEPROM_STATUS_COMPLETE)) cs (ret EEPROM_STATUS_COMPLETE) log
    = Some (EEPROM_STATUS_COMPLETE, log ++ cs).
Proof.
  induction cs as [|c cs IH]; intros log; simpl.
  - unfold ret. now rewrite app_nil_r.
  - unfold bind, page_stub, check. simpl. rewrite IH. rewrite <- app_assoc.
    destruct c; reflexivity.
Qed.

(** The sub-writes issued are the computed sequence. *)
Lemma issued_plan (P A L : Z) : issued P A L = plan P A L.
Proof.
  unfold issued. rewrite WriteBuffer_runs_plan. unfold run_plan.
  now rewrite run_list_stub.
Qed.

(** ** Arithmetic of the splitter *)

Lemma u16_small (x : Z) : 0 <= x < 65536 -> u16 x = x.
Proof. intros H. unfold u16. now apply Z.mod_small. Qed.

Lemma u16_add_l (x y : Z) : u16 (u16 x + y) = u16 (x + y).
Proof. unfold u16. now rewrite Zplus_mod_idemp_l. Qed.

Lemma pow2_cases (P : Z) :
  pow2 P ->
  0 < P /\ ((P < 65536 /\ 65536 mod P = 0) \/ (65536 <= P /\ P mod 65536 = 0)).
Proof.
  intros [k [Hk ->]]. split; [now apply Z.pow_pos_nonneg|].
  destruct (Z_lt_le_dec k 16) as [Hlt|Hge].
  - left. split.
    + change 65536 with (2 ^ 16). apply Z.pow_lt_mono_r; lia.
    + replace 65536 with (2 ^ (16 - k) * 2 ^ k).
      * apply Z.mod_mul. apply Z.pow_nonzero; lia.
      * rewrite <- Z.pow_add_r by lia. replace (16 - k + k) with 16 by lia. reflexivity.
  - right. split.
    + change 65536 with (2 ^ 16). apply Z.pow_le_mono_r; lia.
    + replace (2 ^ k) with (2 ^ (k - 16) * 65536).
      * now apply Z.mod_mul.
      * change 65536 with (2 ^ 16). rewrite <- Z.pow_add_r by lia. f_equal. lia.
Qed.

Lemma pages_addr_u16 (P : Z) (n : nat) :
  forall a x, a = u16 x -> pages_addr P n a = u16 (x + Z.of_nat n * P).
Proof.
  induction n as [|n IH]; intros a x ->.
  - simpl. now rewrite Z.add_0_r.
  - cbn [pages_addr]. rewrite (IH _ (x + P)) by apply u16_add_l.
    f_equal. lia.
Qed.

Lemma pages_chain (P A L : Z) (rest : list SubWrite) (n : nat) :
  0 < P < 65536 ->
  forall o a,
    a = u16 (A + o) -> (A + o) mod P = 0 ->
    chain P P A L (o + Z.of_nat n * P) rest ->
    chain P P A L o (pages P n o a ++ rest).
Proof.
  intros HP. induction n as [|n IH]; intros o a Ha Hal Hrest.
  - simpl in *. now rewrite Z.add_0_r in Hrest.
  - cbn [pages app chain sw_buf sw_addr sw_len].
    rewrite (u16_small P) by lia.
    repeat split; try lia; auto.
    apply IH.
    + subst a. rewrite u16_add_l. f_equal. lia.
    + replace (A + (o + P)) with (A + o + 1 * P) by lia.
      now rewrite Z.mod_add by lia.
    + replace (o + P + Z.of_nat n * P) with (o + Z.of_nat (S n) * P) by lia.
      exact Hrest.
Qed.

Lemma aligned_next (P A : Z) : 0 < P -> (A + (P - A mod P)) mod P = 0.
Proof.
  intros HP. pose proof (Z.div_mod A P ltac:(lia)) as E.
  replace (A + (P - A mod P)) with ((A / P + 1) * P) by lia.
  apply Z.mod_mul. lia.
Qed.

Ltac link :=
  first
    [ lia | reflexivity | f_equal; lia
    | match goal with
      | |- 0 < ?x \/ _ =>
          destruct (Z_lt_le_dec 0 x);
          [ left; lia
          | right; repeat split;
            first [ lia | reflexivity | left; lia | right; lia
                  | left; assumption | right; assumption ] ]
      end ].

Lemma plan_chain_small (P A L : Z) :
  0 < P < 65536 -> is_u16 A -> is_u16 L -> chain P P A L 0 (plan P A L).
Proof.
  intros HP HA HL. unfold is_u16 in *.
  pose proof (Z.mod_pos_bound A P ltac:(lia)) as Hr.
  pose proof (Z.mod_pos_bound L P ltac:(lia)) as Hs.
  pose proof (Z.div_mod L P ltac:(lia)) as EL.
  assert (Hq : 0 <= L / P < 65536).
  { split; [apply Z.div_pos; lia|]. apply Z.div_lt_upper_bound; nia. }
  unfold plan.
  rewrite (u16_small (A mod P)), (u16_small (P - A mod P)),
    (u16_small (L / P)), (u16_small (L mod P)) by lia.
  destruct (Z.eqb_spec (A mod P) 0) as [E0|N0].
  - destruct (Z.eqb_spec (L / P) 0) as [E1|N1].
    + cbn [chain sw_buf sw_addr sw_len]. rewrite Z.add_0_r, (u16_small A) by lia.
      repeat split; link.
    + rewrite Z2Nat.id by lia.
      apply pages_chain; [lia| now rewrite Z.add_0_r, u16_small by lia
                         | now rewrite Z.add_0_r |].
      cbn [chain sw_buf sw_addr sw_len].
      rewrite (pages_addr_u16 P _ A A) by (now rewrite u16_small by lia).
      rewrite Z2Nat.id by lia.
      assert ((A + (0 + L / P * P)) mod P = 0) as ->.
      { replace (A + (0 + L / P * P)) with (A + L / P * P) by lia.
        now rewrite Z.mod_add by lia. }
      repeat split; link.
  - pose proof (aligned_next P A ltac:(lia)) as Hnext.
    destruct (Z.eqb_spec (L / P) 0) as [E1|N1].
    + assert (L mod P = L) as -> by nia.
      destruct (Z.gtb_spec L (P - A mod P)) as [Hgt|Hle].
      * cbn [chain sw_buf sw_addr sw_len].
        rewrite Z.add_0_r, (u16_small A), (u16_small (L - _)) by lia.
        rewrite !Z.add_0_l, Hnext.
        repeat split; link.
      * cbn [chain sw_buf sw_addr sw_len].
        rewrite Z.add_0_r, (u16_small A) by lia.
        repeat split; link.
    + assert (HLP : P <= L) by nia.
      rewrite (u16_small (L - _)) by lia.
      set (c := P - A mod P) in *. set (L' := L - c).
      pose proof (Z.mod_pos_bound L' P ltac:(lia)) as Hs'.
      pose proof (Z.div_mod L' P ltac:(lia)) as EL'.
      assert (Hq' : 0 <= L' / P < 65536).
      { split; [apply Z.div_pos; lia|]. apply Z.div_lt_upper_bound; nia. }
      rewrite (u16_small (L' / P)), (u16_small (L' mod P)) by lia.
      cbn [chain sw_buf sw_addr sw_len].
      rewrite Z.add_0_r, (u16_small A) by lia.
      repeat split; try link.
      rewrite !Z.add_0_l.
      apply pages_chain; [lia| reflexivity | exact Hnext |].
      rewrite Z2Nat.id by lia.
      destruct (Z.eqb_spec (L' mod P) 0) as [E2|N2]; cbn [negb chain sw_buf sw_addr sw_len].
      * lia.
      * rewrite (pages_addr_u16 P _ _ (A + c)) by reflexivity.
        rewrite Z2Nat.id by lia.
        assert ((A + (c + L' / P * P)) mod P = 0) as ->.
        { replace (A + (c + L' / P * P)) with (A + c + L' / P * P) by lia.
          now rewrite Z.mod_add by lia. }
        repeat split; link.
Qed.

Lemma plan_chain_big (P A L : Z) :
  65536 <= P -> P mod 65536 = 0 -> is_u16 A -> is_u16 L ->
  chain P 65536 A L 0 (plan P A L).
Proof.
  intros HP Hdiv HA HL. unfold is_u16 in *.
  assert (EP : P = 65536 * (P / 65536)).
  { pose proof (Z.div_mod P 65536 ltac:(lia)). lia. }
  unfold plan.
  rewrite (Z.mod_small A P), (Z.mod_small L P), (Z.div_small L P) by lia.
  rewrite (u16_small A), (u16_small L), (u16_small 0) by lia.
  change (0 =? 0) with true. cbv iota.
  destruct (Z.eqb_spec A 0) as [E0|N0].
  - subst A. cbn [chain sw_buf sw_addr sw_len]. change (u16 (0 + 0)) with 0.
    change ((0 + 0) mod 65536) with 0. repeat split; link.
  - assert (Ec : u16 (P - A) = 65536 - A).
    { unfold u16. rewrite EP.
      replace (65536 * (P / 65536) - A) with (65536 - A + (P / 65536 - 1) * 65536) by lia.
      rewrite Z.mod_add by lia. apply Z.mod_small. lia. }
    rewrite Ec.
    destruct (Z.gtb_spec L (65536 - A)) as [Hgt|Hle];
      cbn [chain sw_buf sw_addr sw_len];
      rewrite ?Z.add_0_r, ?Z.add_0_l, ?(u16_small A), ?(u16_small (L - _)) by lia;
      rewrite ?(Z.mod_small A 65536) by lia.
    + replace (A + (65536 - A)) with 65536 by lia. change (65536 mod 65536) with 0.
      repeat split; link.
    + repeat split; link.
Qed.

Lemma plan_chain (P A L : Z) :
  pow2 P -> is_u16 A -> is_u16 L -> chain P (page_unit P) A L 0 (plan P A L).
Proof.
  intros HP HA HL. destruct (pow2_cases P HP) as [Hpos [[Hlt _]|[Hge Hdiv]]];
    unfold page_unit.
  - rewrite Z.min_l by lia. apply plan_chain_small; [lia|assumption..].
  - rewrite Z.min_r by lia. now apply plan_chain_big.
Qed.

Lemma page_unit_divides (P : Z) :
  pow2 P -> 0 < page_unit P /\ P mod page_unit P = 0 /\ 65536 mod page_unit P = 0.
Proof.
  intros HP. destruct (pow2_cases P HP) as [Hpos [[Hlt Hd]|[Hge Hdiv]]];
    unfold page_unit.
  - rewrite Z.min_l by lia. split; [lia|split; [apply Z.mod_same; lia | exact Hd]].
  - rewrite Z.min_r by lia. split; [lia|split; [exact Hdiv | reflexivity]].
Qed.

(** Staying inside a page of size [Q] is staying inside a page of any
    multiple of [Q]. *)
Lemma inside_page_multiple (P Q x n : Z) :
  0 < Q -> 0 < P -> P mod Q = 0 -> 0 <= n ->
  x mod Q + n <= Q -> x mod P + n <= P.
Proof.
  intros HQ HP Hdiv Hn H.
  assert (EP : P = Q * (P / Q)).
  { pose proof (Z.div_mod P Q ltac:(lia)). lia. }
  pose proof (Z.mod_pos_bound x P ltac:(lia)) as Hb.
  pose proof (Z.div_mod (x mod P) Q ltac:(lia)) as E.
  pose proof (Z.mod_pos_bound (x mod P) Q ltac:(lia)) as Hb'.
  assert (Em : (x mod P) mod Q = x mod Q).
  { pose proof (Z.div_mod x P ltac:(lia)) as Ex.
    rewrite Ex at 2. rewrite EP at 2.
    replace (Q * (P / Q) * (x / P) + x mod P) with (x mod P + (P / Q * (x / P)) * Q) by lia.
    now rewrite Z.mod_add by lia. }
  rewrite Em in *.
  assert (x mod P / Q < P / Q) by (apply Z.div_lt_upper_bound; lia).
  nia.
Qed.

Lemma chain_le (P Q A L : Z) (ws : list SubWrite) :
  forall o, chain P Q A L o ws -> o <= L.
Proof.
  induction ws as [|w ws IH]; intros o H; simpl in H; [lia|].
  destruct H as (_ & _ & _ & Hlen & Hrest). apply IH in Hrest. lia.
Qed.

Lemma chain_tiling (P Q A L : Z) (ws : list SubWrite) :
  is_u16 A -> A + L <= 65536 -> (A mod P = 0 -> A + L <> 65536) ->
  forall o, 0 <= o -> chain P Q A L o ws -> tiling Q A L o ws.
Proof.
  intros HA Htop Hal. unfold is_u16 in HA.
  induction ws as [|w ws IH]; intros o Ho H; simpl in *; [assumption|].
  destruct H as (Hb & Ha & Hpg & Hlen & Hrest).
  pose proof (chain_le _ _ _ _ _ _ Hrest) as Hle.
  assert (Hsmall : 0 <= A + o < 65536).
  { destruct Hlen as [Hpos|(Hz & _ & [Ho0|[Hal0 _]])]; [lia|lia|].
    specialize (Hal Hal0). lia. }
  rewrite u16_small in Ha by exact Hsmall.
  repeat split; try assumption.
  - destruct Hlen as [Hpos|(Hz & Hnil & _)]; [now left|now right].
  - apply IH; [|assumption]. destruct Hlen as [?|(? & _)]; lia.
Qed.

Lemma tiling_le (Q A L : Z) (ws : list SubWrite) :
  forall o, tiling Q A L o ws -> o <= L.
Proof.
  induction ws as [|w ws IH]; intros o H; simpl in H; [lia|].
  destruct H as (_ & _ & _ & Hlen & Hrest). apply IH in Hrest. lia.
Qed.

Lemma tiling_In (Q A L : Z) (ws : list SubWrite) :
  forall o w, tiling Q A L o ws -> In w ws ->
    sw_addr w = A + sw_buf w /\ o <= sw_buf w /\ 0 <= sw_len w /\
    sw_buf w + sw_len w <= L /\ (A + sw_buf w) mod Q + sw_len w <= Q.
Proof.
  induction ws as [|w0 ws IH]; intros o w H Hin; [destruct Hin|].
  simpl in H. destruct H as (Hb & Ha & Hpg & Hlen & Hrest).
  destruct Hin as [<-|Hin].
  - pose proof (tiling_le _ _ _ _ _ Hrest). rewrite Hb.
    repeat split; try lia; try assumption.
  - destruct (IH _ _ Hrest Hin) as (? & ? & ? & ? & ?).
    repeat split; try lia; try assumption.
Qed.

Lemma tiling_order (Q A L : Z) (ws : list SubWrite) :
  forall o i j wi wj, tiling Q A L o ws -> (i < j)%nat ->
    nth_error ws i = Some wi -> nth_error ws j = Some wj ->
    sw_buf wi + sw_len wi <= sw_buf wj /\ sw_buf wi < sw_buf wj.
Proof.
  induction ws as [|w0 ws IH]; intros o i j wi wj H Hij Hi Hj.
  - destruct i; discriminate.
  - simpl in H. destruct H as (Hb & Ha & Hpg & Hlen & Hrest).
    destruct j as [|j]; [lia|]. simpl in Hj.
    destruct i as [|i].
    + simpl in Hi. injection Hi as <-.
      pose proof (nth_error_In _ _ Hj) as Hin.
      destruct (tiling_In _ _ _ _ _ _ Hrest Hin) as (_ & Hge & _).
      destruct Hlen as [Hpos|(_ & Hnil)]; [lia|]. subst ws. destruct Hin.
    + simpl in Hi. apply (IH _ i j wi wj Hrest); [lia|assumption..].
Qed.

Lemma tiling_next (Q A L : Z) (ws : list SubWrite) :
  forall o i w w', tiling Q A L o ws ->
    nth_error ws i = Some w -> nth_error ws (S i) = Some w' ->
    sw_buf w' = sw_buf w + sw_len w.
Proof.
  induction ws as [|w0 ws IH]; intros o i w w' H Hi Hj.
  - destruct i; discriminate.
  - simpl in H. destruct H as (Hb & Ha & Hpg & Hlen & Hrest).
    destruct i as [|i].
    + simpl in Hi, Hj. injection Hi as <-.
      destruct ws as [|w1 ws]; [discriminate|]. injection Hj as <-.
      simpl in Hrest. destruct Hrest as (Hb1 & _). lia.
    + simpl in Hi. apply (IH _ i w w' Hrest Hi). exact Hj.
Qed.

Lemma tiling_covers (Q A L : Z) (ws : list SubWrite) :
  forall o x, tiling Q A L o ws ->
    (A + o <= x < A + L <-> exists w, In w ws /\ in_range w x).
Proof.
  induction ws as [|w0 ws IH]; intros o x H.
  - simpl in H. split; [lia|]. intros (w & [] & _).
  - simpl in H. destruct H as (Hb & Ha & Hpg & Hlen & Hrest).
    pose proof (tiling_le _ _ _ _ _ Hrest) as Hle.
    specialize (IH _ x Hrest). unfold in_range in *. split.
    + intros Hx. destruct (Z_lt_le_dec x (A + o + sw_len w0)) as [Hlt|Hge].
      * exists w0. split; [now left|lia].
      * destruct IH as [IH _]. destruct IH as (w & Hin & Hr); [lia|].
        exists w. split; [now right|exact Hr].
    + intros (w & [<-|Hin] & Hr).
      * destruct Hlen as [?|(? & _)]; lia.
      * destruct IH as [_ IH]. specialize (IH (ex_intro _ w (conj Hin Hr))).
        destruct Hlen as [?|(? & _)]; lia.
Qed.

(** A range that stays inside one page has no page boundary strictly inside. *)
Lemma no_boundary_inside (P a n m : Z) :
  0 < P -> a mod P + n <= P -> ~ (a < m * P < a + n).
Proof.
  intros HP H [H1 H2].
  pose proof (Z.div_mod a P ltac:(lia)) as E.
  pose proof (Z.mod_pos_bound a P ltac:(lia)) as Hb.
  destruct (Z_le_gt_dec m (a / P)) as [Hm|Hm]; nia.
Qed.

Lemma tiling_well_split (P A L : Z) (ws : list SubWrite) :
  0 < page_unit P -> 0 < P -> P mod page_unit P = 0 ->
  tiling (page_unit P) A L 0 ws -> well_split P A L ws.
Proof.
  intros HQ HP Hdiv H. constructor.
  - intros w Hin. destruct (tiling_In _ _ _ _ _ _ H Hin) as (? & ? & ? & ? & ?). auto.
  - intros i w w' Hi Hj.
    destruct (tiling_In _ _ _ _ _ _ H (nth_error_In _ _ Hi)) as (-> & _).
    destruct (tiling_In _ _ _ _ _ _ H (nth_error_In _ _ Hj)) as (-> & _).
    rewrite (tiling_next _ _ _ _ _ _ _ _ H Hi Hj). lia.
  - intros i j wi wj Hij Hi Hj.
    destruct (tiling_In _ _ _ _ _ _ H (nth_error_In _ _ Hi)) as (-> & _).
    destruct (tiling_In _ _ _ _ _ _ H (nth_error_In _ _ Hj)) as (-> & _).
    destruct (tiling_order _ _ _ _ _ _ _ _ _ H Hij Hi Hj). lia.
  - intros i j wi wj Hij Hi Hj.
    destruct (tiling_In _ _ _ _ _ _ H (nth_error_In _ _ Hi)) as (-> & _).
    destruct (tiling_In _ _ _ _ _ _ H (nth_error_In _ _ Hj)) as (-> & _).
    destruct (tiling_order _ _ _ _ _ _ _ _ _ H Hij Hi Hj). lia.
  - intros x. rewrite <- (tiling_covers _ _ _ _ 0 x H). lia.
  - intros w m Hin. destruct (tiling_In _ _ _ _ _ _ H Hin) as (Ea & _ & Hn & _ & Hpg).
    apply no_boundary_inside; [assumption|]. rewrite Ea.
    now apply (inside_page_multiple P (page_unit P)).
Qed.

(** * The splitter: the claims *)

Lemma issued_chain (P A L : Z) :
  pow2 P -> is_u16 A -> is_u16 L -> chain P (page_unit P) A L 0 (issued P A L).
Proof. intros. rewrite issued_plan. now apply plan_chain. Qed.

(** C1, as amended: for a page size that is a power of two, a 16-bit address
    [A] and a 16-bit length [L] whose range [A, A+L) stays inside the 16-bit
    address space (and ends below its top when [A] is page-aligned), the
    sub-writes issued are contiguous, in ascending order, do not overlap,
    cover exactly [A, A+L), have no page boundary strictly inside, and the
    buffer pointer of each is its address minus [A]. *)
Theorem sub_writes_tile_the_range (P A L : Z) :
  pow2 P -> is_u16 A -> is_u16 L ->
  A + L <= 65536 -> (A mod P = 0 -> A + L <> 65536) ->
  well_split P A L (issued P A L).
Proof.
  intros HP HA HL Htop Hal.
  destruct (page_unit_divides P HP) as (HQ & Hdiv & _).
  destruct (pow2_cases P HP) as [Hpos _].
  apply tiling_well_split; try assumption.
  apply (chain_tiling P); try assumption; [lia|].
  now apply issued_chain.
Qed.

Lemma sub_writes_tile_the_range_witness : well_split 32 65500 36 (issued 32 65500 36).
Proof.
  apply sub_writes_tile_the_range.
  - exists 5. split; [lia|reflexivity].
  - unfold is_u16. lia.
  - unfold is_u16. lia.
  - lia.
  - intros H. vm_compute in H. discriminate H.
Defined.

(** C1 as stated fails: a request of 10 bytes at address 65530 with pages of
    32 bytes issues its second sub-write at address 0. *)
Lemma sub_writes_wrap_counterexample :
  pow2 32 /\ is_u16 65530 /\ is_u16 10 /\
  issued 32 65530 10 = [mkSubWrite 0 65530 6; mkSubWrite 6 0 4] /\
  ~ well_split 32 65530 10 (issued 32 65530 10).
Proof.
  split; [exists 5; split; [lia|reflexivity]|].
  split; [unfold is_u16; lia|]. split; [unfold is_u16; lia|].
  split; [reflexivity|].
  intros H.
  pose proof (ws_ascending _ _ _ _ H 0%nat 1%nat
                (mkSubWrite 0 65530 6) (mkSubWrite 6 0 4)
                ltac:(lia) eq_refl eq_refl) as Hlt.
  simpl in Hlt. lia.
Qed.

Lemma issued_empty_request (P A : Z) : 0 < P -> issued P A 0 = [mkSubWrite 0 A 0].
Proof.
  intros HP. rewrite issued_plan. unfold plan.
  rewrite Z.div_0_l, Z.mod_0_l by lia. change (u16 0) with 0.
  change (0 =? 0) with true. cbv iota.
  assert (H : (0 >? u16 (P - u16 (A mod P))) = false).
  { pose proof (Z.mod_pos_bound (P - u16 (A mod P)) 65536 ltac:(lia)).
    unfold u16 at 1. destruct (Z.gtb_spec 0 ((P - u16 (A mod P)) mod 65536)); [lia|reflexivity]. }
  rewrite H. now destruct (u16 (A mod P) =? 0).
Qed.

Lemma chain_positive (P Q A L : Z) (ws : list SubWrite) :
  0 < L -> (A mod P <> 0 \/ L mod P <> 0) ->
  forall o, chain P Q A L o ws -> forall w, In w ws -> 0 < sw_len w.
Proof.
  intros HL Hno. induction ws as [|w0 ws IH]; intros o H w Hin; [destruct Hin|].
  simpl in H. destruct H as (Hb & _ & _ & Hlen & Hrest).
  destruct Hin as [<-|Hin]; [|now apply (IH _ Hrest)].
  destruct Hlen as [Hpos|(Hz & -> & Hwhy)]; [assumption|].
  simpl in Hrest. destruct Hwhy as [->|[Ha Hl]]; lia.
Qed.

(** C2, as amended: a request for at least one byte that is not both
    page-aligned and a whole number of pages issues no sub-write of length 0
    (the remainder after the full pages is written only when it is not
    empty); a request for no byte issues one sub-write of length 0. *)
Theorem empty_sub_write_only_for_empty_request (P A L : Z) :
  pow2 P -> is_u16 A -> is_u16 L ->
  (0 < L -> A mod P <> 0 \/ L mod P <> 0 ->
   forall w, In w (issued P A L) -> 0 < sw_len w) /\
  (L = 0 -> issued P A L = [mkSubWrite 0 A 0]).
Proof.
  intros HP HA HL. split.
  - intros Hpos Hno. apply (chain_positive P (page_unit P) A L _ Hpos Hno 0).
    now apply issued_chain.
  - intros ->. apply issued_empty_request. now destruct (pow2_cases P HP).
Qed.

Lemma empty_sub_write_only_for_empty_request_witness :
  (forall w, In w (issued 32 30 66) -> 0 < sw_len w) /\
  issued 32 30 0 = [mkSubWrite 0 30 0].
Proof.
  assert (H32 : pow2 32) by (exists 5; split; [lia|reflexivity]).
  split.
  - apply (proj1 (empty_sub_write_only_for_empty_request 32 30 66 H32
                    ltac:(unfold is_u16; lia) ltac:(unfold is_u16; lia))).
    + lia.
    + left. intros H. vm_compute in H. discriminate H.
  - apply (proj2 (empty_sub_write_only_for_empty_request 32 30 0 H32
                    ltac:(unfold is_u16; lia) ltac:(unfold is_u16; lia))).
    reflexivity.
Defined.

(** C2 as stated fails: a request for no byte issues a call of the page
    write with length 0. *)
Lemma empty_request_counterexample :
  pow2 32 /\ is_u16 5 /\ is_u16 0 /\
  exists w, In w (issued 32 5 0) /\ sw_len w = 0.
Proof.
  split; [exists 5; split; [lia|reflexivity]|].
  split; [unfold is_u16; lia|]. split; [unfold is_u16; lia|].
  exists (mkSubWrite 0 5 0). split; [now left|reflexivity].
Qed.

(** The page-aligned path writes the remainder after the full pages without
    testing it, unlike the path for an address inside a page. *)
Remark remainder_after_whole_pages :
  issued 32 0 64 = [mkSubWrite 0 0 32; mkSubWrite 32 32 32; mkSubWrite 64 64 0] /\
  issued 32 8 56 = [mkSubWrite 0 8 24; mkSubWrite 24 32 32].
Proof. split; reflexivity. Qed.

(** The buffered write returns when the page write does. *)
Lemma WriteBuffer_total {W : Type} (WP : Z -> Z -> Z -> M W EepromOperations)
    (P A L : Z) :
  (forall o a n w, WP o a n w <> None) ->
  forall w, EEPROM_SPI_WriteBuffer P WP 0 A L w <> None.
Proof.
  intros Htot w. rewrite WriteBuffer_runs_plan. unfold run_plan.
  revert w. induction (plan P A L) as [|c cs IH]; intros w; simpl; [discriminate|].
  unfold bind. destruct (WP (sw_buf c) (sw_addr c) (sw_len c) w) as [[st w1]|] eqn:E;
    [|now apply Htot in E].
  unfold check. destruct (negb _); [discriminate|apply IH].
Qed.

(** The calls recorded by [spy] over a sequence of sub-writes. *)
Lemma run_list_spy {W : Type} (WP : Z -> Z -> Z -> M W EepromOperations)
    (cs : list SubWrite) :
  forall w log0 r w' log,
    run_list (spy WP) cs (ret EEPROM_STATUS_COMPLETE) (w, log0) = Some (r, (w', log)) ->
    exists done rest,
      cs = done ++ rest /\
      ((r = EEPROM_STATUS_COMPLETE /\ rest = [] /\
        log = log0 ++ map (fun c => (c, EEPROM_STATUS_COMPLETE)) done)
       \/
       (exists c done',
          done = done' ++ [c] /\ r <> EEPROM_STATUS_COMPLETE /\
          log = log0 ++ map (fun c => (c, EEPROM_STATUS_COMPLETE)) done' ++ [(c, r)])).
Proof.
  induction cs as [|c cs IH]; intros w log0 r w' log H.
  - simpl in H. unfold ret in H. injection H as <- <- <-.
    exists [], []. split; [reflexivity|]. left. now rewrite app_nil_r.
  - simpl in H. unfold bind, spy in H. simpl in H.
    destruct (WP (sw_buf c) (sw_addr c) (sw_len c) w) as [[st w1]|]; [|discriminate].
    unfold check in H.
    assert (Ec : mkSubWrite (sw_buf c) (sw_addr c) (sw_len c) = c) by now destruct c.
    rewrite Ec in H.
    destruct st; simpl in H.
    + unfold ret in H. injection H as <- <- <-.
      exists [c], cs. split; [reflexivity|]. right. exists c, [].
      split; [reflexivity|split; [discriminate|reflexivity]].
    + destruct (IH _ _ _ _ _ H) as (done & rest & -> & Hcase).
      exists (c :: done), rest. split; [reflexivity|].
      destruct Hcase as [(-> & -> & ->)|(c' & done' & -> & Hr & ->)].
      * left. split; [reflexivity|split; [reflexivity|]]. simpl. now rewrite <- app_assoc.
      * right. exists c', (c :: done'). split; [reflexivity|split; [assumption|]].
        simpl. now rewrite <- !app_assoc.
    + unfold ret in H. injection H as <- <- <-.
      exists [c], cs. split; [reflexivity|]. right. exists c, [].
      split; [reflexivity|split; [discriminate|reflexivity]].
Qed.

(** C3: whatever the page write does, when the buffered write returns, the
    calls it made are a prefix of the computed sequence; all of them but
    possibly the last completed; if the last did not complete, its status is
    the result and nothing of the rest of the sequence was attempted;
    otherwise the whole sequence was executed and the result is Complete. *)
Theorem first_failure_stops_the_write {W : Type}
    (WP : Z -> Z -> Z -> M W EepromOperations) (P A L : Z) (w w' : W)
    (r : EepromOperations) (log : list (SubWrite * EepromOperations)) :
  EEPROM_SPI_WriteBuffer P (spy WP) 0 A L (w, []) = Some (r, (w', log)) ->
  exists done rest,
    issued P A L = done ++ rest /\
    ((r = EEPROM_STATUS_COMPLETE /\ rest = [] /\
      log = map (fun c => (c, EEPROM_STATUS_COMPLETE)) done)
     \/
     (exists c done',
        done = done' ++ [c] /\ r <> EEPROM_STATUS_COMPLETE /\
        log = map (fun c => (c, EEPROM_STATUS_COMPLETE)) done' ++ [(c, r)])).
Proof.
  intros H. rewrite WriteBuffer_runs_plan in H. unfold run_plan in H.
  rewrite issued_plan. now apply run_list_spy in H.
Qed.

Lemma first_failure_stops_the_write_witness :
  exists done rest,
    issued 32 0 100 = done ++ rest /\
    ((EEPROM_STATUS_ERROR = EEPROM_STATUS_COMPLETE /\ rest = [] /\
      [(mkSubWrite 0 0 32, EEPROM_STATUS_COMPLETE); (mkSubWrite 32 32 32, EEPROM_STATUS_ERROR)]
      = map (fun c => (c, EEPROM_STATUS_COMPLETE)) done)
     \/
     (exists c done',
        done = done' ++ [c] /\ EEPROM_STATUS_ERROR <> EEPROM_STATUS_COMPLETE /\
        [(mkSubWrite 0 0 32, EEPROM_STATUS_COMPLETE); (mkSubWrite 32 32 32, EEPROM_STATUS_ERROR)]
        = map (fun c => (c, EEPROM_STATUS_COMPLETE)) done' ++ [(c, EEPROM_STATUS_ERROR)])).
Proof.
  apply (first_failure_stops_the_write (failing_page 1) 32 0 100 0%nat 2%nat).
  reflexivity.
Defined.

(** C4: the three boundary scenarios for pages of 32 bytes. *)
Theorem boundary_scenarios :
  issued 32 30 5 = [mkSubWrite 0 30 2; mkSubWrite 2 32 3] /\
  issued 32 0 65 = [mkSubWrite 0 0 32; mkSubWrite 32 32 32; mkSubWrite 64 64 1] /\
  issued 32 20 12 = [mkSubWrite 0 20 12].
Proof. repeat split; reflexivity. Qed.

Lemma below_next_boundary (Q x n : Z) :
  0 < Q -> 65536 mod Q = 0 -> x < 65536 -> x mod Q + n <= Q -> x + n <= 65536.
Proof.
  intros HQ Hdiv Hx H.
  pose proof (Z.div_mod x Q ltac:(lia)) as Ex.
  pose proof (Z.mod_pos_bound x Q ltac:(lia)) as Hb.
  pose proof (Z.div_mod 65536 Q ltac:(lia)) as Et. rewrite Hdiv in Et.
  assert (x / Q < 65536 / Q) by (apply Z.div_lt_upper_bound; lia).
  nia.
Qed.

(** A sequence that goes past address 65535 has a sub-write that starts
    exactly there. *)
Lemma chain_reaches_top (P Q A L : Z) (ws : list SubWrite) :
  0 < Q -> 65536 mod Q = 0 ->
  forall o, A + o <= 65536 < A + L -> chain P Q A L o ws ->
    exists w, In w ws /\ A + sw_buf w = 65536 /\ 0 < sw_len w.
Proof.
  intros HQ Hdiv. induction ws as [|w ws IH]; intros o Ho H; simpl in H; [lia|].
  destruct H as (Hb & Ha & Hpg & Hlen & Hrest).
  pose proof (chain_le _ _ _ _ _ _ Hrest) as Hle.
  assert (Hpos : 0 < sw_len w).
  { destruct Hlen as [?|(Hz & -> & _)]; [assumption|]. simpl in Hrest. lia. }
  destruct (Z.eq_dec (A + o) 65536) as [Heq|Hne].
  - exists w. split; [now left|]. split; [lia|assumption].
  - assert (A + o + sw_len w <= 65536) by (apply (below_next_boundary Q); lia).
    destruct (IH (o + sw_len w)) as (w' & Hin & Hw'); [lia|assumption|].
    exists w'. split; [now right|assumption].
Qed.

Lemma chain_addr (P Q A L : Z) (ws : list SubWrite) :
  forall o, chain P Q A L o ws ->
    forall w, In w ws -> sw_addr w = u16 (A + sw_buf w) /\ o <= sw_buf w <= L.
Proof.
  induction ws as [|w0 ws IH]; intros o H w Hin; [destruct Hin|].
  simpl in H. destruct H as (Hb & Ha & _ & Hlen & Hrest).
  pose proof (chain_le _ _ _ _ _ _ Hrest) as Hle.
  destruct Hin as [<-|Hin].
  - rewrite Hb. split; [assumption|]. destruct Hlen as [?|(? & _)]; lia.
  - destruct (IH _ Hrest w Hin) as (? & ?). split; [assumption|].
    destruct Hlen as [?|(? & _)]; lia.
Qed.

(** C10: addresses are 16-bit values and the address of every sub-write is
    the address of its bytes modulo 2^16; a request whose range goes past
    address 65535 is not refused: it is reported Complete when its page
    writes complete, and it writes the bytes meant for address 65536 and
    above from address 0 on. *)
Theorem write_past_the_top_wraps (P A L : Z) :
  pow2 P -> is_u16 A -> is_u16 L ->
  EEPROM_SPI_WriteBuffer P (page_stub (fun _ => EEPROM_STATUS_COMPLETE)) 0 A L []
  = Some (EEPROM_STATUS_COMPLETE, issued P A L) /\
  (forall w, In w (issued P A L) ->
     sw_addr w = (A + sw_buf w) mod 65536 /\
     (65536 <= A + sw_buf w -> sw_addr w = A + sw_buf w - 65536 /\ sw_addr w < A)) /\
  (65536 < A + L ->
   exists w, In w (issued P A L) /\ A + sw_buf w = 65536 /\ sw_addr w = 0 /\ 0 < sw_len w).
Proof.
  intros HP HA HL. pose proof (issued_chain P A L HP HA HL) as Hchain.
  destruct (page_unit_divides P HP) as (HQ & _ & Hdiv).
  unfold is_u16 in *. split; [|split].
  - rewrite WriteBuffer_runs_plan. unfold run_plan. rewrite run_list_stub.
    now rewrite issued_plan.
  - intros w Hin. destruct (chain_addr _ _ _ _ _ _ Hchain w Hin) as (Ea & Hb).
    split; [exact Ea|]. intros Hge.
    assert (E : u16 (A + sw_buf w) = A + sw_buf w - 65536).
    { unfold u16.
      replace (A + sw_buf w) with (A + sw_buf w - 65536 + 1 * 65536) at 1 by lia.
      rewrite Z.mod_add by lia. apply Z.mod_small. lia. }
    rewrite Ea, E. lia.
  - intros Hover.
    destruct (chain_reaches_top P (page_unit P) A L _ HQ Hdiv 0 ltac:(lia) Hchain) as (w & Hin & Hw & Hpos).
    exists w. split; [assumption|]. split; [assumption|]. split; [|assumption].
    destruct (chain_addr _ _ _ _ _ _ Hchain w Hin) as (Ea & _).
    rewrite Ea, Hw. reflexivity.
Qed.

Lemma write_past_the_top_wraps_witness :
  exists w, In w (issued 32 65530 10) /\ 65530 + sw_buf w = 65536 /\ sw_addr w = 0 /\
            0 < sw_len w.
Proof.
  apply (write_past_the_top_wraps 32 65530 10).
  - exists 5. split; [lia|reflexivity].
  - unfold is_u16. lia.
  - unfold is_u16. lia.
  - lia.
Defined.

(** * Properties of the bus transactions *)

Lemma bind_Some {W A B : Type} (m : M W A) (k : A -> M W B) (w : W) (x : B * W) :
  bind m k w = Some x -> exists a w1, m w = Some (a, w1) /\ k a w1 = Some x.
Proof.
  unfold bind. destruct (m w) as [[a w1]|]; [|discriminate].
  intros H. now exists a, w1.
Qed.

(** The invariant rule for [loop]. *)
Lemma loop_rule {W I R : Type} (Inv : I -> W -> Prop) (Post : R -> W -> Prop)
    (body : I -> M W (I + R)) :
  (forall i w i' w', Inv i w -> body i w = Some (inl i', w') -> Inv i' w') ->
  (forall i w r w', Inv i w -> body i w = Some (inr r, w') -> Post r w') ->
  forall fuel i w r w', Inv i w -> loop fuel body i w = Some (r, w') -> Post r w'.
Proof.
  intros Hstep Hexit. induction fuel as [|fuel IH]; intros i w r w' Hi H; [discriminate|].
  simpl in H. destruct (body i w) as [[[i'|r'] w1]|] eqn:E; [| |discriminate].
  - apply (IH i' w1); [|assumption]. now apply (Hstep i w).
  - injection H as <- <-. now apply (Hexit i w).
Qed.

Lemma advance_refl (w : World) : advance w w [] 0 0 0.
Proof. unfold advance. rewrite app_nil_r. repeat split; lia. Qed.

Lemma advance_trans (w w1 w2 : World) (t1 t2 : list Event) (a b c a' b' c' : nat) :
  advance w w1 t1 a b c -> advance w1 w2 t2 a' b' c' ->
  advance w w2 (t1 ++ t2) (a + a') (b + b') (c + c').
Proof.
  unfold advance. intros (E1 & R1 & T1 & X1) (E2 & R2 & T2 & X2).
  rewrite E2, E1, R2, R1, T2, T1, X2, X1, app_assoc. repeat split; lia.
Qed.

Lemma last_cons {A : Type} (x : list A) :
  forall a d, last (a :: x) d = last x a.
Proof.
  induction x as [|b x IH]; intros a d; [reflexivity|].
  change (last (a :: b :: x) d) with (last (b :: x) d).
  rewrite !IH. reflexivity.
Qed.

Lemma returns_const {A : Type} (m : M World A) (w w' : World) (a : A) :
  m w = Some (a, w') -> returns (fun _ => m) w a w'.
Proof. intros H. exists 0%nat. intros _ _. exact H. Qed.

Lemma returns_bind {A B : Type} (f : nat -> M World A) (k : nat -> A -> M World B)
    (w w1 w2 : World) (a : A) (x : B) :
  returns f w a w1 -> returns (fun fuel => k fuel a) w1 x w2 ->
  returns (fun fuel => bind (f fuel) (k fuel)) w x w2.
Proof.
  intros [N1 H1] [N2 H2]. exists (Nat.max N1 N2). intros fuel Hf.
  unfold bind. rewrite H1 by lia. apply H2. lia.
Qed.

Section DriverFacts.
Variable cmd : Commands.
Variable bus : Bus.

Lemma emit_advance (e : Event) (w w' : World) (x : unit) :
  emit e w = Some (x, w') -> advance w w' [e] 0 0 0.
Proof.
  unfold emit. intros H. injection H as _ <-. unfold advance. simpl.
  repeat split; lia.
Qed.

Lemma SPI_State_advance (w w' : World) (s : HAL_SPI_StateTypeDef) :
  SPI_State bus w = Some (s, w') ->
  s = spi_state bus (reads w) /\ advance w w' [EvState s] 1 0 0.
Proof.
  unfold SPI_State. intros H. injection H as <- <-. unfold advance. simpl.
  repeat split; lia.
Qed.

Lemma Transmit_advance (pData : list Z) (Size Timeout : Z) (w w' : World)
    (r : HAL_StatusTypeDef) :
  HAL_SPI_Transmit bus pData Size Timeout w = Some (r, w') ->
  r = transmit_status bus (transmits w) /\
  advance w w' [EvTransmit (firstn (Z.to_nat Size) pData) Size Timeout r] 0 1 0.
Proof.
  unfold HAL_SPI_Transmit. intros H. injection H as <- <-. unfold advance. simpl.
  repeat split; lia.
Qed.

Lemma Receive_advance (Size Timeout : Z) (w w' : World)
    (rx : HAL_StatusTypeDef * list Z) :
  HAL_SPI_Receive bus Size Timeout w = Some (rx, w') ->
  rx = (receive_status bus (receives w),
        map (receive_data bus (receives w)) (seq 0 (Z.to_nat Size))) /\
  advance w w' [EvReceive Size Timeout (fst rx) (snd rx)] 0 0 1.
Proof.
  unfold HAL_SPI_Receive. intros H. injection H as <- <-. unfold advance. simpl.
  repeat split; lia.
Qed.

Lemma wait_state_spec (fuel : nat) (again : HAL_SPI_StateTypeDef -> bool)
    (w w' : World) (x : unit) :
  wait_state bus fuel again w = Some (x, w') ->
  exists t dr, waiting again t /\ advance w w' t dr 0 0.
Proof.
  unfold wait_state.
  apply (loop_rule
           (fun (_ : unit) w1 =>
              exists ss, Forall (fun s' => again s' = true) ss /\
                advance w w1 (flat_map (fun s' => [EvState s'; EvDelay 1]) ss)
                  (length ss) 0 0)
           (fun (_ : unit) w1 => exists t dr, waiting again t /\ advance w w1 t dr 0 0)).
  - intros i0 w1 i' w2 (ss & Hss & Hadv) H. unfold wait_round in H.
    apply bind_Some in H as (s & w3 & Hs & H).
    apply SPI_State_advance in Hs as (_ & Hs).
    destruct (again s) eqn:Ea; [|discriminate].
    apply bind_Some in H as (u & w4 & Hd & H). injection H as _ <-.
    apply emit_advance in Hd.
    exists (ss ++ [s]). split.
    + apply Forall_app. split; [assumption|]. now constructor.
    + rewrite flat_map_app, length_app. simpl. rewrite ?app_nil_r.
      pose proof (advance_trans _ _ _ _ _ _ _ _ _ _ _ Hadv
                    (advance_trans _ _ _ _ _ _ _ _ _ _ _ Hs Hd)) as Ht.
      simpl in Ht. replace (length ss + 1 + 0)%nat with (length ss + 1)%nat in Ht by lia.
      exact Ht.
  - intros i0 w1 r w2 (ss & Hss & Hadv) H. unfold wait_round in H.
    apply bind_Some in H as (s & w3 & Hs & H).
    apply SPI_State_advance in Hs as (_ & Hs).
    destruct (again s) eqn:Ea.
    + apply bind_Some in H as (u & w4 & _ & H). discriminate.
    + injection H as _ <-.
      exists (flat_map (fun s' => [EvState s'; EvDelay 1]) ss ++ [EvState s]), (length ss + 1)%nat.
      split; [now exists ss, s|].
      exact (advance_trans _ _ _ _ _ _ _ _ _ _ _ Hadv Hs).
  - exists []. split; [constructor|]. apply advance_refl.
Qed.

Lemma SendInstruction_spec (fuel : nat) (instruction : list Z) (size : Z)
    (w w' : World) (x : unit) :
  size = Z.of_nat (length instruction) -> (length instruction < 256)%nat ->
  EEPROM_SPI_SendInstruction bus fuel instruction size w = Some (x, w') ->
  exists t dr, sent instruction t /\ advance w w' t dr 1 0.
Proof.
  intros Hsize Hlen H. unfold EEPROM_SPI_SendInstruction in H.
  apply bind_Some in H as (u & w1 & Hw & H).
  apply wait_state_spec in Hw as (t0 & dr & Hwait & Hadv0).
  apply bind_Some in H as (r & w2 & Ht & H).
  apply Transmit_advance in Ht as (_ & Ht).
  assert (Es : u16 (u8 size) = size).
  { unfold u16, u8. rewrite (Z.mod_small size 256) by lia. apply Z.mod_small. lia. }
  rewrite Es, Hsize, Nat2Z.id, firstn_all in Ht.
  pose proof (advance_trans _ _ _ _ _ _ _ _ _ _ _ Hadv0 Ht) as Hadv.
  destruct (is_ok r) eqn:Eok; simpl in H.
  - injection H as _ <-. exists (t0 ++ [EvTransmit instruction (Z.of_nat (length instruction)) 200 r]), (dr + 0)%nat.
    split; [|exact Hadv]. exists t0, r. split; [assumption|]. now rewrite Eok.
  - unfold Error_Handler in H. destruct (error_handler_returns bus); [|discriminate].
    apply emit_advance in H.
    pose proof (advance_trans _ _ _ _ _ _ _ _ _ _ _ Hadv H) as Hadv'.
    rewrite <- app_assoc in Hadv'. simpl in Hadv'.
    exists (t0 ++ [EvTransmit instruction (Z.of_nat (length instruction)) 200 r; EvErrorHandler]),
      (dr + 0 + 0)%nat.
    split; [|exact Hadv']. exists t0, r. split; [assumption|]. now rewrite Eok.
Qed.

(** A transaction between chip select low and chip select high. *)
Lemma framed_spec {A : Type} (m : M World A) (inside : list Event -> Prop)
    (dt dx : nat) (w w' : World) (x : unit) :
  (forall w1 w2 a, m w1 = Some (a, w2) ->
     exists t dr, inside t /\ advance w1 w2 t dr dt dx) ->
  (EEPROM_CS_LOW ;;; m ;;; EEPROM_CS_HIGH) w = Some (x, w') ->
  exists t dr, framed inside t /\ advance w w' t dr dt dx.
Proof.
  intros Hm H.
  apply bind_Some in H as (u & w1 & Hlow & H). apply emit_advance in Hlow.
  apply bind_Some in H as (a & w2 & Hin & H). apply emit_advance in H.
  apply Hm in Hin as (t & dr & Hin & Hadv).
  exists (EvPin CS GPIO_PIN_RESET :: t ++ [EvPin CS GPIO_PIN_SET]), (0 + (dr + 0))%nat.
  split; [now exists t|].
  pose proof (advance_trans _ _ _ _ _ _ _ _ _ _ _ Hlow
                (advance_trans _ _ _ _ _ _ _ _ _ _ _ Hadv H)) as Ht.
  replace (0 + (dt + 0))%nat with dt in Ht by lia.
  replace (0 + (dx + 0))%nat with dx in Ht by lia.
  exact Ht.
Qed.

Lemma WriteEnable_spec (fuel : nat) (w w' : World) (x : unit) :
  sEE_WriteEnable cmd bus fuel w = Some (x, w') ->
  exists t dr, framed (sent [EEPROM_WREN cmd]) t /\ advance w w' t dr 1 0.
Proof.
  unfold sEE_WriteEnable. apply framed_spec. intros w1 w2 a.
  now apply SendInstruction_spec; [reflexivity|simpl; lia].
Qed.

Lemma WriteDisable_spec (fuel : nat) (w w' : World) (x : unit) :
  sEE_WriteDisable cmd bus fuel w = Some (x, w') ->
  exists t dr, framed (sent [EEPROM_WRDI cmd]) t /\ advance w w' t dr 1 0.
Proof.
  unfold sEE_WriteDisable. apply framed_spec. intros w1 w2 a.
  now apply SendInstruction_spec; [reflexivity|simpl; lia].
Qed.

(** The five rounds of the payload loop: what they return and emit. *)
Lemma WritePage_transmit_spec (n : nat) (pData : list Z) (N : Z) :
  forall (st : HAL_StatusTypeDef) (w : World),
    exists w',
      WritePage_transmit bus n pData N st w
      = Some (last (attempt_results bus n (transmits w)) st, w') /\
      advance w w'
        (attempts (firstn (Z.to_nat N) pData) N (attempt_results bus n (transmits w)))
        0 (length (attempt_results bus n (transmits w))) 0.
Proof.
  induction n as [|n IH]; intros st w.
  - exists w. split; [reflexivity|apply advance_refl].
  - cbn [WritePage_transmit attempt_results].
    unfold bind at 1.
    destruct (HAL_SPI_Transmit bus pData N 100 w) as [[r w1]|] eqn:Et; [|discriminate].
    apply Transmit_advance in Et as (Er & Ht). rewrite <- Er.
    destruct (is_busy r) eqn:Eb.
    + unfold bind at 1.
      destruct (EEPROM_Delay 5 w1) as [[u w2]|] eqn:Ed; [|discriminate].
      apply emit_advance in Ed.
      destruct (IH r w2) as (w' & Hrun & Hadv).
      assert (Etx : transmits w2 = S (transmits w)).
      { destruct Ht as (_ & _ & T1 & _). destruct Ed as (_ & _ & T2 & _). lia. }
      rewrite Etx in *. exists w'. split.
      * rewrite Hrun. now rewrite last_cons.
      * pose proof (advance_trans _ _ _ _ _ _ _ _ _ _ _ Ht
                      (advance_trans _ _ _ _ _ _ _ _ _ _ _ Ed Hadv)) as H.
        unfold attempts in *. cbn [flat_map]. rewrite Eb.
        simpl in H. simpl. exact H.
    + exists w1. split; [reflexivity|].
      unfold attempts. cbn [flat_map]. rewrite Eb. simpl. exact Ht.
Qed.

Lemma polls_split (k m n : nat) :
  flat_map (poll_events bus) (seq k m) ++
  (flat_map (poll_events bus) (seq (k + m) n) ++
   [EvReceive 1 200 (receive_status bus (k + m + n)) [receive_data bus (k + m + n) 0]]) ++
  [EvDelay 1]
  = flat_map (poll_events bus) (seq k (m + S n)).
Proof.
  rewrite seq_app, seq_S, !flat_map_app. simpl. rewrite <- !app_assoc. reflexivity.
Qed.

Lemma receive_status_byte_spec (fuel : nat) (s b : Z) (w w' : World) :
  receive_status_byte bus fuel s w = Some (b, w') ->
  exists n,
    (forall i, (i < n)%nat -> is_busy (receive_status bus (receives w + i)) = true) /\
    is_busy (receive_status bus (receives w + n)) = false /\
    b = u8 (receive_data bus (receives w + n) 0) /\
    advance w w'
      (flat_map (poll_events bus) (seq (receives w) n) ++
       [EvReceive 1 200 (receive_status bus (receives w + n))
          [receive_data bus (receives w + n) 0]])
      0 0 (S n).
Proof.
  unfold receive_status_byte.
  apply (loop_rule
           (fun (_ : Z) w1 =>
              exists m,
                (forall i, (i < m)%nat ->
                   is_busy (receive_status bus (receives w + i)) = true) /\
                advance w w1 (flat_map (poll_events bus) (seq (receives w) m)) 0 0 m)
           (fun (b : Z) w1 =>
              exists n,
                (forall i, (i < n)%nat ->
                   is_busy (receive_status bus (receives w + i)) = true) /\
                is_busy (receive_status bus (receives w + n)) = false /\
                b = u8 (receive_data bus (receives w + n) 0) /\
                advance w w1
                  (flat_map (poll_events bus) (seq (receives w) n) ++
                   [EvReceive 1 200 (receive_status bus (receives w + n))
                      [receive_data bus (receives w + n) 0]])
                  0 0 (S n))).
  - intros i0 w1 i' w2 (m & Hbusy & Hadv) H. unfold receive_round in H.
    apply bind_Some in H as (rx & w3 & Hrx & H).
    apply Receive_advance in Hrx as (Erx & Hrx). subst rx. cbn [fst snd] in *.
    assert (Ek : receives w1 = (receives w + m)%nat) by (destruct Hadv as (_ & _ & _ & X); lia).
    rewrite Ek in *.
    destruct (is_busy (receive_status bus (receives w + m))) eqn:Eb; [|discriminate].
    apply bind_Some in H as (u & w4 & Hd & H). injection H as _ <-.
    apply emit_advance in Hd.
    exists (S m). split.
    + intros i Hi. destruct (Nat.eq_dec i m) as [->|Hne]; [assumption|].
      apply Hbusy. lia.
    + pose proof (advance_trans _ _ _ _ _ _ _ _ _ _ _ Hadv
                    (advance_trans _ _ _ _ _ _ _ _ _ _ _ Hrx Hd)) as Ht.
      rewrite seq_S, flat_map_app. simpl. simpl in Ht.
      replace (m + 1)%nat with (S m) in Ht by lia. exact Ht.
  - intros i0 w1 r w2 (m & Hbusy & Hadv) H. unfold receive_round in H.
    apply bind_Some in H as (rx & w3 & Hrx & H).
    apply Receive_advance in Hrx as (Erx & Hrx). subst rx. cbn [fst snd] in *.
    assert (Ek : receives w1 = (receives w + m)%nat) by (destruct Hadv as (_ & _ & _ & X); lia).
    rewrite Ek in *.
    destruct (is_busy (receive_status bus (receives w + m))) eqn:Eb.
    + apply bind_Some in H as (u & w4 & _ & H). discriminate.
    + injection H as <- <-. exists m.
      split; [assumption|split; [assumption|split; [reflexivity|]]].
      pose proof (advance_trans _ _ _ _ _ _ _ _ _ _ _ Hadv Hrx) as Ht.
      simpl in Ht. replace (m + 1)%nat with (S m) in Ht by lia. exact Ht.
  - exists 0%nat. split; [intros i Hi; lia|]. apply advance_refl.
Qed.

Lemma poll_status_spec (fuel : nat) (s : Z) (w w' : World) (x : unit) :
  poll_status cmd bus fuel s w = Some (x, w') ->
  exists n,
    first_standby cmd bus (receives w) n /\
    advance w w' (polls bus (receives w) n) 0 0 (S n).
Proof.
  unfold poll_status.
  apply (loop_rule
           (fun (_ : Z) w1 =>
              exists m,
                (forall i, (i < m)%nat -> standby_at cmd bus (receives w + i) = false) /\
                advance w w1 (flat_map (poll_events bus) (seq (receives w) m)) 0 0 m)
           (fun (_ : unit) w1 =>
              exists n,
                first_standby cmd bus (receives w) n /\
                advance w w1 (polls bus (receives w) n) 0 0 (S n))).
  - intros i0 w1 i' w2 (m & Hnot & Hadv) H. unfold poll_round in H.
    apply bind_Some in H as (b & w3 & Hb & H).
    apply receive_status_byte_spec in Hb as (n & Hbusy & Hlast & Eb & Hrx).
    apply bind_Some in H as (u & w4 & Hd & H). apply emit_advance in Hd.
    assert (Ek : receives w1 = (receives w + m)%nat) by (destruct Hadv as (_ & _ & _ & X); lia).
    rewrite Ek in *.
    destruct (write_in_progress cmd b) eqn:Ew; [|discriminate].
    injection H as _ <-.
    exists (m + S n)%nat. split.
    + intros i Hi. destruct (Nat.lt_ge_cases i m) as [Hlt|Hge]; [now apply Hnot|].
      unfold standby_at.
      destruct (Nat.eq_dec i (m + n)) as [->|Hne].
      * rewrite Nat.add_assoc, <- Eb, Ew. apply andb_false_r.
      * replace (receives w + i)%nat with (receives w + m + (i - m))%nat by lia.
        rewrite Hbusy by lia. reflexivity.
    + pose proof (advance_trans _ _ _ _ _ _ _ _ _ _ _ Hadv
                    (advance_trans _ _ _ _ _ _ _ _ _ _ _ Hrx Hd)) as Ht.
      rewrite polls_split in Ht.
      replace (m + (S n + 0))%nat with (m + S n)%nat in Ht by lia. exact Ht.
  - intros i0 w1 r w2 (m & Hnot & Hadv) H. unfold poll_round in H.
    apply bind_Some in H as (b & w3 & Hb & H).
    apply receive_status_byte_spec in Hb as (n & Hbusy & Hlast & Eb & Hrx).
    apply bind_Some in H as (u & w4 & Hd & H). apply emit_advance in Hd.
    assert (Ek : receives w1 = (receives w + m)%nat) by (destruct Hadv as (_ & _ & _ & X); lia).
    rewrite Ek in *.
    destruct (write_in_progress cmd b) eqn:Ew; [discriminate|].
    injection H as _ <-.
    exists (m + n)%nat. split.
    + split.
      * unfold standby_at. rewrite Nat.add_assoc, <- Eb, Ew, Hlast. reflexivity.
      * intros i Hi. destruct (Nat.lt_ge_cases i m) as [Hlt|Hge]; [now apply Hnot|].
        unfold standby_at.
        replace (receives w + i)%nat with (receives w + m + (i - m))%nat by lia.
        rewrite Hbusy by lia. reflexivity.
    + pose proof (advance_trans _ _ _ _ _ _ _ _ _ _ _ Hadv
                    (advance_trans _ _ _ _ _ _ _ _ _ _ _ Hrx Hd)) as Ht.
      rewrite polls_split in Ht. unfold polls.
      replace (m + (S n + 0))%nat with (S (m + n)) in Ht by lia.
      replace (m + S n)%nat with (S (m + n)) in Ht by lia. exact Ht.
  - exists 0%nat. split; [intros i Hi; lia|]. apply advance_refl.
Qed.

Lemma WaitStandbyState_spec (fuel : nat) (w w' : World) (r : Z) :
  EEPROM_SPI_WaitStandbyState cmd bus fuel w = Some (r, w') ->
  r = 0 /\
  exists t dr n,
    framed (fun t' => exists ts n',
              sent [EEPROM_RDSR cmd] ts /\ first_standby cmd bus (receives w) n' /\
              t' = ts ++ polls bus (receives w) n') t /\
    first_standby cmd bus (receives w) n /\
    advance w w' t dr 1 (S n).
Proof.
  unfold EEPROM_SPI_WaitStandbyState. intros H.
  apply bind_Some in H as (u & w1 & Hlow & H). apply emit_advance in Hlow.
  apply bind_Some in H as (u1 & w2 & Hs & H).
  apply SendInstruction_spec in Hs as (ts & dr & Hsent & Hs); [|reflexivity|simpl; lia].
  apply bind_Some in H as (u2 & w3 & Hp & H).
  apply poll_status_spec in Hp as (n & Hfirst & Hp).
  apply bind_Some in H as (u3 & w4 & Hhigh & H). apply emit_advance in Hhigh.
  injection H as <- <-. split; [reflexivity|].
  assert (Ek : receives w2 = receives w).
  { destruct Hlow as (_ & _ & _ & X1). destruct Hs as (_ & _ & _ & X2). lia. }
  rewrite Ek in *.
  exists (EvPin CS GPIO_PIN_RESET :: (ts ++ polls bus (receives w) n) ++ [EvPin CS GPIO_PIN_SET]),
    (0 + (dr + (0 + 0)))%nat, n.
  split; [|split; [assumption|]].
  - exists (ts ++ polls bus (receives w) n). split; [|reflexivity]. now exists ts, n.
  - pose proof (advance_trans _ _ _ _ _ _ _ _ _ _ _ Hlow
                  (advance_trans _ _ _ _ _ _ _ _ _ _ _ Hs
                     (advance_trans _ _ _ _ _ _ _ _ _ _ _ Hp Hhigh))) as Ht.
    rewrite (app_assoc ts) in Ht.
    replace (0 + (0 + (S n + 0)))%nat with (S n) in Ht by lia. exact Ht.
Qed.

Lemma header_bytes (WriteAddr : Z) :
  is_u16 WriteAddr ->
  u8 (Z.shiftr WriteAddr 8) = WriteAddr / 256 /\ u8 WriteAddr = WriteAddr mod 256 /\
  WriteAddr = 256 * (WriteAddr / 256) + WriteAddr mod 256.
Proof.
  unfold is_u16, u8. intros H. rewrite Z.shiftr_div_pow2 by lia. change (2 ^ 8) with 256.
  split; [|split; [reflexivity|apply Z.div_mod; lia]].
  apply Z.mod_small. split; [apply Z.div_pos; lia|apply Z.div_lt_upper_bound; lia].
Qed.

(** What a page write that returns has done. *)
Lemma WritePage_spec (fuel : nat) (buf : list Z) (pBuffer WriteAddr N : Z)
    (w w' : World) (r : EepromOperations) :
  EEPROM_SPI_WritePage cmd bus fuel buf pBuffer WriteAddr N w = Some (r, w') ->
  let rs := attempt_results bus 5 (transmits w + 2) in
  exists t dr n,
    page_write_steps cmd bus
      [EEPROM_WRITE cmd; u8 (Z.shiftr WriteAddr 8); u8 WriteAddr]
      (firstn (Z.to_nat N) (skipn (Z.to_nat pBuffer) buf))
      N rs (receives w) t /\
    advance w w' t dr (4 + length rs) (S n) /\
    r = (if is_error (last rs HAL_OK) then EEPROM_STATUS_ERROR else EEPROM_STATUS_COMPLETE).
Proof.
  intros H rs. unfold EEPROM_SPI_WritePage in H.
  apply bind_Some in H as (u0 & w1 & H1 & H).
  apply wait_state_spec in H1 as (t1 & dr1 & Hwait & H1).
  apply bind_Some in H as (u1 & w2 & H2 & H).
  apply WriteEnable_spec in H2 as (t2 & dr2 & Hwren & H2).
  apply bind_Some in H as (u2 & w3 & Hlow & H). apply emit_advance in Hlow.
  apply bind_Some in H as (u3 & w4 & Hh & H).
  apply SendInstruction_spec in Hh as (th & drh & Hsent & Hh); [|reflexivity|simpl; lia].
  assert (Etx : transmits w4 = (transmits w + 2)%nat).
  { destruct H1 as (_ & _ & T1 & _). destruct H2 as (_ & _ & T2 & _).
    destruct Hlow as (_ & _ & T3 & _). destruct Hh as (_ & _ & T4 & _). lia. }
  pose proof (WritePage_transmit_spec 5 (skipn (Z.to_nat pBuffer) buf) N HAL_OK w4)
    as (w5 & Hrun & Hpay).
  rewrite Etx in Hrun, Hpay.
  change (attempt_results bus 5 (transmits w + 2)) with rs in Hrun, Hpay.
  clearbody rs.
  apply bind_Some in H as (st & w5' & Hp & H).
  rewrite Hrun in Hp. injection Hp as <- <-.
  apply bind_Some in H as (u4 & w6 & Hhigh & H). apply emit_advance in Hhigh.
  apply bind_Some in H as (z & w7 & H4 & H).
  apply WaitStandbyState_spec in H4 as (_ & t4 & dr4 & n & Hpoll & _ & H4).
  assert (Erx : receives w6 = receives w).
  { destruct H1 as (_ & _ & _ & X1). destruct H2 as (_ & _ & _ & X2).
    destruct Hlow as (_ & _ & _ & X3). destruct Hh as (_ & _ & _ & X4).
    destruct Hpay as (_ & _ & _ & X5). destruct Hhigh as (_ & _ & _ & X6). lia. }
  rewrite Erx in *.
  apply bind_Some in H as (u5 & w8 & H5 & H).
  apply WriteDisable_spec in H5 as (t5 & dr5 & Hwrdi & H5).
  set (payload := firstn (Z.to_nat N) (skipn (Z.to_nat pBuffer) buf)) in *.
  set (t3 := EvPin CS GPIO_PIN_RESET :: (th ++ attempts payload N rs) ++ [EvPin CS GPIO_PIN_SET]).
  assert (H3 : advance w2 w6 t3 (0 + (drh + (0 + 0))) (0 + (1 + (length rs + 0))) 0).
  { pose proof (advance_trans _ _ _ _ _ _ _ _ _ _ _ Hlow
                  (advance_trans _ _ _ _ _ _ _ _ _ _ _ Hh
                     (advance_trans _ _ _ _ _ _ _ _ _ _ _ Hpay Hhigh))) as Ht.
    rewrite (app_assoc th) in Ht. exact Ht. }
  pose proof (advance_trans _ _ _ _ _ _ _ _ _ _ _ H1
                (advance_trans _ _ _ _ _ _ _ _ _ _ _ H2
                   (advance_trans _ _ _ _ _ _ _ _ _ _ _ H3
                      (advance_trans _ _ _ _ _ _ _ _ _ _ _ H4 H5)))) as Hall.
  assert (Hres : r = (if is_error (last rs HAL_OK)
                      then EEPROM_STATUS_ERROR else EEPROM_STATUS_COMPLETE) /\ w' = w8).
  { destruct (is_error (last rs HAL_OK)); injection H as <- <-; now split. }
  destruct Hres as (Hr & ->).
  exists (t1 ++ t2 ++ t3 ++ t4 ++ t5),
    (dr1 + (dr2 + (0 + (drh + (0 + 0)) + (dr4 + dr5))))%nat, n.
  split; [|split].
  - exists t1, t2, t3, t4, t5. split; [reflexivity|].
    split; [assumption|]. split; [assumption|]. split; [|split; assumption].
    exists (th ++ attempts payload N rs). split; [|reflexivity]. now exists th.
  - replace (0 + (1 + (0 + (1 + (length rs + 0)) + (1 + 1))))%nat
      with (4 + length rs)%nat in Hall by lia.
    replace (0 + (0 + (0 + (S n + 0))))%nat with (S n) in Hall by lia.
    exact Hall.
  - exact Hr.
Qed.

Lemma ReadBuffer_result (fuel : nat) (ReadAddr NumByteToRead : Z) (w w' : World)
    (r : EepromOperations) (pBuffer : list Z) :
  EEPROM_SPI_ReadBuffer cmd bus fuel ReadAddr NumByteToRead w = Some ((r, pBuffer), w') ->
  r = EEPROM_STATUS_COMPLETE.
Proof.
  unfold EEPROM_SPI_ReadBuffer. intros H.
  apply bind_Some in H as (u0 & w1 & _ & H).
  apply bind_Some in H as (u1 & w2 & _ & H).
  apply bind_Some in H as (u2 & w3 & _ & H).
  apply bind_Some in H as (b & w4 & _ & H).
  apply bind_Some in H as (u3 & w5 & _ & H).
  now injection H as <- _ _.
Qed.

(** ** Termination of the loops *)

Lemma wait_round_stop (again : HAL_SPI_StateTypeDef -> bool) (w : World) :
  again (spi_state bus (reads w)) = false ->
  exists w', wait_round bus again tt w = Some (inr tt, w').
Proof.
  intros E. unfold wait_round, bind, SPI_State. rewrite E. eexists. reflexivity.
Qed.

Lemma wait_round_go (again : HAL_SPI_StateTypeDef -> bool) (w : World) :
  again (spi_state bus (reads w)) = true ->
  exists w', wait_round bus again tt w = Some (inl tt, w') /\ reads w' = S (reads w).
Proof.
  intros E. unfold wait_round, bind, SPI_State. rewrite E.
  eexists. split; [reflexivity|reflexivity].
Qed.

Lemma wait_state_returns (again : HAL_SPI_StateTypeDef -> bool) (n : nat) :
  forall w, again (spi_state bus (reads w + n)) = false ->
    exists w', returns (fun fuel => wait_state bus fuel again) w tt w'.
Proof.
  induction n as [|n IH]; intros w H.
  - rewrite Nat.add_0_r in H. destruct (wait_round_stop again w H) as (w' & E).
    exists w', 0%nat. intros [|fuel] Hf; [lia|]. unfold wait_state. simpl. now rewrite E.
  - destruct (again (spi_state bus (reads w))) eqn:Ea.
    + destruct (wait_round_go again w Ea) as (w1 & E & Er).
      destruct (IH w1) as (w' & N & HN).
      { rewrite Er. now replace (S (reads w) + n)%nat with (reads w + S n)%nat by lia. }
      exists w', (S N). intros [|fuel] Hf; [lia|]. unfold wait_state. simpl. rewrite E.
      apply HN. lia.
    + destruct (wait_round_stop again w Ea) as (w' & E).
      exists w', 0%nat. intros [|fuel] Hf; [lia|]. unfold wait_state. simpl. now rewrite E.
Qed.

Lemma SendInstruction_returns (instruction : list Z) (size : Z) (w : World) (n : nat) :
  is_reset (spi_state bus (reads w + n)) = false ->
  error_handler_returns bus = true \/ transmit_status bus (transmits w) = HAL_OK ->
  exists w',
    returns (fun fuel => EEPROM_SPI_SendInstruction bus fuel instruction size) w tt w'.
Proof.
  intros Hrdy Hok.
  destruct (wait_state_returns is_reset n w Hrdy) as (w1 & Hwait).
  assert (Etx : transmits w1 = transmits w).
  { destruct Hwait as [N HN]. specialize (HN (S N) ltac:(lia)).
    apply wait_state_spec in HN as (t & dr & _ & _ & _ & T & _). lia. }
  assert (Hrest : exists w',
             (r <- HAL_SPI_Transmit bus instruction (u16 (u8 size)) 200 ;;
              if negb (is_ok r) then Error_Handler bus else ret tt) w1 = Some (tt, w')).
  { unfold bind, HAL_SPI_Transmit. rewrite Etx.
    destruct Hok as [Hh|Ht].
    - destruct (is_ok (transmit_status bus (transmits w))); simpl.
      + eexists. reflexivity.
      + unfold Error_Handler. rewrite Hh. eexists. reflexivity.
    - rewrite Ht. simpl. eexists. reflexivity. }
  destruct Hrest as (w' & Hrest). exists w'.
  unfold EEPROM_SPI_SendInstruction.
  apply (returns_bind (fun fuel => wait_state bus fuel is_reset)
           (fun _ _ => r <- HAL_SPI_Transmit bus instruction (u16 (u8 size)) 200 ;;
                       if negb (is_ok r) then Error_Handler bus else ret tt)
           w w1 w' tt tt Hwait).
  now apply returns_const.
Qed.

Lemma receive_round_stop (s : Z) (w : World) :
  is_busy (receive_status bus (receives w)) = false ->
  exists w',
    receive_round bus s w = Some (inr (u8 (receive_data bus (receives w) 0)), w') /\
    receives w' = S (receives w).
Proof.
  intros E. unfold receive_round, bind, HAL_SPI_Receive. cbn [fst snd]. rewrite E.
  eexists. split; [reflexivity|reflexivity].
Qed.

Lemma receive_round_go (s : Z) (w : World) :
  is_busy (receive_status bus (receives w)) = true ->
  exists w',
    receive_round bus s w = Some (inl (u8 (receive_data bus (receives w) 0)), w') /\
    receives w' = S (receives w).
Proof.
  intros E. unfold receive_round, bind, HAL_SPI_Receive. cbn [fst snd]. rewrite E.
  eexists. split; [reflexivity|reflexivity].
Qed.

Lemma receive_status_byte_returns (n : nat) :
  forall (w : World) (s : Z),
    is_busy (receive_status bus (receives w + n)) = false ->
    exists m b w',
      (m <= n)%nat /\
      (forall fuel, (m < fuel)%nat -> receive_status_byte bus fuel s w = Some (b, w')) /\
      receives w' = (receives w + S m)%nat /\
      b = u8 (receive_data bus (receives w + m) 0) /\
      is_busy (receive_status bus (receives w + m)) = false.
Proof.
  induction n as [|n IH]; intros w s H.
  - rewrite Nat.add_0_r in H. destruct (receive_round_stop s w H) as (w' & E & Er).
    exists 0%nat, (u8 (receive_data bus (receives w) 0)), w'.
    rewrite !Nat.add_0_r. repeat split; try lia; try assumption.
    intros [|fuel] Hf; [lia|]. unfold receive_status_byte. simpl. now rewrite E.
  - destruct (is_busy (receive_status bus (receives w))) eqn:Eb.
    + destruct (receive_round_go s w Eb) as (w1 & E & Er).
      destruct (IH w1 (u8 (receive_data bus (receives w) 0))) as (m & b & w' & Hm & Hrun & Hrx & Hb & Hnb).
      { rewrite Er. now replace (S (receives w) + n)%nat with (receives w + S n)%nat by lia. }
      exists (S m), b, w'. rewrite Er in *.
      replace (receives w + S m)%nat with (S (receives w) + m)%nat by lia.
      repeat split; try lia; try assumption.
      intros [|fuel] Hf; [lia|]. unfold receive_status_byte. simpl. rewrite E.
      apply Hrun. lia.
    + destruct (receive_round_stop s w Eb) as (w' & E & Er).
      exists 0%nat, (u8 (receive_data bus (receives w) 0)), w'.
      rewrite !Nat.add_0_r. repeat split; try lia; try assumption.
      intros [|fuel] Hf; [lia|]. unfold receive_status_byte. simpl. now rewrite E.
Qed.

Lemma poll_round_eq (F : nat) (s b : Z) (w w1 : World) :
  receive_status_byte bus F s w = Some (b, w1) ->
  poll_round cmd bus F s w
  = Some (if write_in_progress cmd b then inl b else inr tt, logged (EvDelay 1) w1).
Proof.
  intros H. unfold poll_round, bind. rewrite H.
  unfold EEPROM_Delay, HAL_Delay, emit.
  now destruct (write_in_progress cmd b).
Qed.

Lemma poll_loop_returns (bound : nat) :
  forall (n : nat) (w : World) (s : Z),
    (n < bound)%nat ->
    standby_at cmd bus (receives w + n) = true ->
    exists w',
      forall f F, (n < f)%nat -> (n < F)%nat ->
        loop f (poll_round cmd bus F) s w = Some (tt, w').
Proof.
  induction bound as [|bound IH]; intros n w s Hn H; [lia|].
  unfold standby_at in H. apply andb_true_iff in H as (Hnb & Hnw).
  apply negb_true_iff in Hnb. apply negb_true_iff in Hnw.
  destruct (receive_status_byte_returns n w s Hnb) as (m & b & w1 & Hm & Hrun & Hrx & Hb & Hnb').
  destruct (write_in_progress cmd b) eqn:Ew.
  - assert (Hlt : (m < n)%nat).
    { destruct (Nat.eq_dec m n) as [->|Hne]; [|lia]. rewrite Hb, Hnw in Ew. discriminate. }
    destruct (IH (n - S m)%nat (logged (EvDelay 1) w1) b ltac:(lia)) as (w' & Hw').
    { cbn [logged receives]. rewrite Hrx.
      replace (receives w + S m + (n - S m))%nat with (receives w + n)%nat by lia.
      unfold standby_at. now rewrite Hnb, Hnw. }
    exists w'. intros [|f] F Hf HF; [lia|]. simpl.
    rewrite (poll_round_eq F s b w w1 (Hrun F ltac:(lia))), Ew.
    apply Hw'; lia.
  - exists (logged (EvDelay 1) w1). intros [|f] F Hf HF; [lia|]. simpl.
    now rewrite (poll_round_eq F s b w w1 (Hrun F ltac:(lia))), Ew.
Qed.

Lemma poll_status_returns (n : nat) (w : World) (s : Z) :
  standby_at cmd bus (receives w + n) = true ->
  exists w', returns (fun fuel => poll_status cmd bus fuel s) w tt w'.
Proof.
  intros H. destruct (poll_loop_returns (S n) n w s ltac:(lia) H) as (w' & Hw').
  exists w', n. intros fuel Hf. unfold poll_status. now apply Hw'.
Qed.

Lemma WaitStandbyState_returns (w : World) (m n : nat) :
  is_reset (spi_state bus (reads w + m)) = false ->
  error_handler_returns bus = true \/ transmit_status bus (transmits w) = HAL_OK ->
  standby_at cmd bus (receives w + n) = true ->
  exists w', returns (fun fuel => EEPROM_SPI_WaitStandbyState cmd bus fuel) w 0 w'.
Proof.
  intros Hrdy Hok Hst.
  destruct (SendInstruction_returns [EEPROM_RDSR cmd] 1 (logged (EvPin CS GPIO_PIN_RESET) w) m
              Hrdy Hok) as (w1 & Hsend).
  assert (Erx : receives w1 = receives w).
  { destruct Hsend as [N HN]. specialize (HN (S N) ltac:(lia)).
    apply SendInstruction_spec in HN as (t & dr & _ & _ & _ & _ & X);
      [cbn [logged receives] in X; lia|reflexivity|simpl; lia]. }
  destruct (poll_status_returns n w1 0) as (w2 & Hpoll); [now rewrite Erx|].
  exists (logged (EvPin CS GPIO_PIN_SET) w2).
  unfold EEPROM_SPI_WaitStandbyState.
  apply (returns_bind (fun _ => EEPROM_CS_LOW)
           (fun fuel _ => EEPROM_SPI_SendInstruction bus fuel [EEPROM_RDSR cmd] 1 ;;;
                          poll_status cmd bus fuel 0 ;;; EEPROM_CS_HIGH ;;; ret 0)
           w (logged (EvPin CS GPIO_PIN_RESET) w) _ tt 0).
  { now apply returns_const. }
  apply (returns_bind (fun fuel => EEPROM_SPI_SendInstruction bus fuel [EEPROM_RDSR cmd] 1)
           (fun fuel _ => poll_status cmd bus fuel 0 ;;; EEPROM_CS_HIGH ;;; ret 0)
           _ w1 _ tt 0 Hsend).
  apply (returns_bind (fun fuel => poll_status cmd bus fuel 0)
           (fun _ _ => EEPROM_CS_HIGH ;;; ret 0) _ w2 _ tt 0 Hpoll).
  now apply returns_const.
Qed.

(** ** On a live bus every operation returns *)

Section Live.
Hypothesis Hlive : live cmd bus.

Lemma SendInstruction_live (instruction : list Z) (size : Z) (w : World) :
  exists w',
    returns (fun fuel => EEPROM_SPI_SendInstruction bus fuel instruction size) w tt w'.
Proof.
  destruct (live_ready _ _ Hlive (reads w)) as (n & Hn).
  apply (SendInstruction_returns instruction size w n).
  - now rewrite Hn.
  - destruct (live_sent _ _ Hlive) as [Hh|Hok]; [now left|right; apply Hok].
Qed.

Lemma command_live (instruction : list Z) (size : Z) (w : World) :
  exists w',
    returns (fun fuel => EEPROM_CS_LOW ;;;
                         EEPROM_SPI_SendInstruction bus fuel instruction size ;;;
                         EEPROM_CS_HIGH) w tt w'.
Proof.
  destruct (SendInstruction_live instruction size (logged (EvPin CS GPIO_PIN_RESET) w))
    as (w1 & H1).
  exists (logged (EvPin CS GPIO_PIN_SET) w1).
  eapply returns_bind; [apply returns_const; reflexivity|]. cbv beta.
  eapply returns_bind; [exact H1|]. cbv beta.
  apply returns_const. reflexivity.
Qed.

Lemma WaitStandbyState_live (w : World) :
  exists w', returns (fun fuel => EEPROM_SPI_WaitStandbyState cmd bus fuel) w 0 w'.
Proof.
  destruct (live_ready _ _ Hlive (reads w)) as (m & Hm).
  destruct (live_standby _ _ Hlive (receives w)) as (n & Hn).
  apply (WaitStandbyState_returns w m n); [now rewrite Hm| |exact Hn].
  destruct (live_sent _ _ Hlive) as [Hh|Hok]; [now left|right; apply Hok].
Qed.

Lemma WritePage_live (buf : list Z) (pBuffer WriteAddr N : Z) (w : World) :
  exists r w',
    returns (fun fuel => EEPROM_SPI_WritePage cmd bus fuel buf pBuffer WriteAddr N)
      w r w'.
Proof.
  destruct (live_ready _ _ Hlive (reads w)) as (n & Hn).
  destruct (wait_state_returns (fun s => negb (is_ready s)) n w) as (w1 & H1);
    [now rewrite Hn|].
  destruct (command_live [EEPROM_WREN cmd] 1 w1) as (w2 & H2).
  destruct (SendInstruction_live
              [EEPROM_WRITE cmd; u8 (Z.shiftr WriteAddr 8); u8 WriteAddr] 3
              (logged (EvPin CS GPIO_PIN_RESET) w2)) as (w4 & H4).
  destruct (WritePage_transmit_spec 5 (skipn (Z.to_nat pBuffer) buf) N HAL_OK w4)
    as (w5 & H5 & _).
  destruct (WaitStandbyState_live (logged (EvPin CS GPIO_PIN_SET) w5)) as (w7 & H7).
  destruct (command_live [EEPROM_WRDI cmd] 1 w7) as (w8 & H8).
  exists (if is_error (last (attempt_results bus 5 (transmits w4)) HAL_OK)
          then EEPROM_STATUS_ERROR else EEPROM_STATUS_COMPLETE), w8.
  unfold EEPROM_SPI_WritePage.
  eapply returns_bind; [exact H1|]. cbv beta.
  eapply returns_bind; [exact H2|]. cbv beta.
  eapply returns_bind; [apply returns_const; reflexivity|]. cbv beta.
  eapply returns_bind; [exact H4|]. cbv beta.
  eapply returns_bind; [apply returns_const; exact H5|]. cbv beta.
  eapply returns_bind; [apply returns_const; reflexivity|]. cbv beta.
  eapply returns_bind; [exact H7|]. cbv beta.
  eapply returns_bind; [exact H8|]. cbv beta.
  apply returns_const.
  now destruct (is_error (last (attempt_results bus 5 (transmits w4)) HAL_OK)).
Qed.
End Live.
End DriverFacts.

(** * The bus transactions: the claims *)

(** ** The answers to the attempts at a payload *)

Lemma attempt_results_length (bus : Bus) (n : nat) :
  forall k, (length (attempt_results bus n k) <= n)%nat /\
            (0 < n -> 0 < length (attempt_results bus n k))%nat.
Proof.
  induction n as [|n IH]; intros k; simpl; [lia|].
  destruct (is_busy (transmit_status bus k)); simpl; [|lia].
  destruct (IH (S k)). lia.
Qed.

Lemma attempt_results_nth (bus : Bus) (n : nat) :
  forall k i d, (i < length (attempt_results bus n k))%nat ->
    nth i (attempt_results bus n k) d = transmit_status bus (k + i).
Proof.
  induction n as [|n IH]; intros k i d Hi; simpl in *; [lia|].
  destruct i as [|i]; [now rewrite Nat.add_0_r|].
  destruct (is_busy (transmit_status bus k)); simpl in Hi; [|lia].
  rewrite IH by lia. f_equal. lia.
Qed.

Lemma attempt_results_busy (bus : Bus) (n : nat) :
  forall k i, (S i < length (attempt_results bus n k))%nat ->
    transmit_status bus (k + i) = HAL_BUSY.
Proof.
  induction n as [|n IH]; intros k i Hi; simpl in *; [lia|].
  destruct (is_busy (transmit_status bus k)) eqn:Eb; simpl in Hi; [|lia].
  destruct i as [|i].
  - rewrite Nat.add_0_r. now destruct (transmit_status bus k).
  - replace (k + S i)%nat with (S k + i)%nat by lia. apply IH. lia.
Qed.

Lemma attempt_results_stop (bus : Bus) (n : nat) :
  forall k d, (length (attempt_results bus n k) < n)%nat ->
    is_busy (last (attempt_results bus n k) d) = false.
Proof.
  induction n as [|n IH]; intros k d Hl; [simpl in Hl; lia|].
  cbn [attempt_results] in *.
  destruct (is_busy (transmit_status bus k)) eqn:Eb.
  - rewrite last_cons. apply IH. simpl in Hl. lia.
  - exact Eb.
Qed.

Lemma attempt_results_all_busy (bus : Bus) (n : nat) :
  forall k, (forall i, (i < n)%nat -> transmit_status bus (k + i) = HAL_BUSY) ->
    attempt_results bus n k = repeat HAL_BUSY n.
Proof.
  induction n as [|n IH]; intros k H; simpl; [reflexivity|].
  pose proof (H 0%nat ltac:(lia)) as H0. rewrite Nat.add_0_r in H0. rewrite H0. simpl.
  f_equal. apply IH. intros i Hi. replace (S k + i)%nat with (k + S i)%nat by lia.
  apply H. lia.
Qed.

(** C5: a page write that returns reports Error exactly when the last attempt
    at transmitting the payload answered with a hard transfer error; in every
    other case, when all five attempts were busy and when the transmit timed
    out among them, it reports Complete.  The attempts are the transmits
    after the two of the write-enable command and of the header. *)
Theorem WritePage_error_iff_hard_transfer_error (cmd : Commands) (bus : Bus)
    (fuel : nat) (buf : list Z) (pBuffer WriteAddr N : Z) (w w' : World)
    (r : EepromOperations) :
  EEPROM_SPI_WritePage cmd bus fuel buf pBuffer WriteAddr N w = Some (r, w') ->
  let k := (transmits w + 2)%nat in
  let final := last (attempt_results bus 5 k) HAL_OK in
  (r = EEPROM_STATUS_ERROR <-> final = HAL_ERROR) /\
  (final <> HAL_ERROR -> r = EEPROM_STATUS_COMPLETE) /\
  ((forall i, (i < 5)%nat -> transmit_status bus (k + i) = HAL_BUSY) ->
   final = HAL_BUSY /\ r = EEPROM_STATUS_COMPLETE) /\
  (final = HAL_TIMEOUT -> r = EEPROM_STATUS_COMPLETE).
Proof.
  intros H k final.
  apply WritePage_spec in H as (t & dr & n & _ & _ & Hr).
  fold k in Hr. fold final in Hr.
  split; [|split; [|split]].
  - rewrite Hr. destruct final; simpl; split; intros E; (reflexivity || discriminate).
  - intros Hne. rewrite Hr. destruct final; simpl; (reflexivity || contradiction).
  - intros Hbusy.
    assert (Ef : final = HAL_BUSY).
    { unfold final. now rewrite (attempt_results_all_busy bus 5 k Hbusy). }
    split; [assumption|]. now rewrite Hr, Ef.
  - intros Et. now rewrite Hr, Et.
Qed.

Lemma WritePage_error_iff_hard_transfer_error_witness :
  exists w',
    EEPROM_SPI_WritePage M95 hard_error_bus 2 [10; 11; 12] 0 40 3 start
    = Some (EEPROM_STATUS_ERROR, w') /\
    last (attempt_results hard_error_bus 5 2) HAL_OK = HAL_ERROR.
Proof.
  assert (E : exists w',
             EEPROM_SPI_WritePage M95 hard_error_bus 2 [10; 11; 12] 0 40 3 start
             = Some (EEPROM_STATUS_ERROR, w')) by (vm_compute; eexists; reflexivity).
  destruct E as (w' & E). exists w'. split; [exact E|].
  now apply (proj1 (WritePage_error_iff_hard_transfer_error _ _ _ _ _ _ _ _ _ _ E)).
Defined.

(** The loop test [(sEEstatus[0] & EEPROM_WIP_FLAG) == SET] reads the flag
    when the mask is the bit that [SET] stands for. *)
Lemma write_in_progress_flag (cmd : Commands) (byte : Z) :
  EEPROM_WIP_FLAG cmd = 1 ->
  (write_in_progress cmd byte = false <-> flag_clear (EEPROM_WIP_FLAG cmd) byte).
Proof.
  intros Hmask. unfold write_in_progress, flag_clear, SET. rewrite Hmask.
  change 1 with (Z.ones 1) at 1 3. rewrite Z.land_ones by lia. change (2 ^ 1) with 2.
  pose proof (Z.mod_pos_bound byte 2 ltac:(lia)) as Hb.
  destruct (Z.eqb_spec (byte mod 2) 1) as [E|N]; split; intros H;
    (reflexivity || discriminate || lia).
Qed.

Lemma standby_at_in_standby (cmd : Commands) (bus : Bus) (k : nat) :
  EEPROM_WIP_FLAG cmd = 1 ->
  (standby_at cmd bus k = true <-> in_standby cmd bus k).
Proof.
  intros Hmask. unfold standby_at, in_standby.
  rewrite andb_true_iff, !negb_true_iff.
  rewrite (write_in_progress_flag cmd _ Hmask). unfold u8.
  assert (Hb : is_busy (receive_status bus k) = false <-> receive_status bus k <> HAL_BUSY).
  { destruct (receive_status bus k); simpl; split; intros H;
      (reflexivity || discriminate || congruence). }
  now rewrite Hb.
Qed.

Lemma first_standby_polled (cmd : Commands) (bus : Bus) (k n : nat) :
  EEPROM_WIP_FLAG cmd = 1 ->
  (first_standby cmd bus k n <-> polled_until_standby cmd bus k n).
Proof.
  intros Hmask. unfold first_standby, polled_until_standby.
  rewrite (standby_at_in_standby cmd bus _ Hmask). split; intros (H1 & H2).
  - split; [assumption|]. intros i Hi Hin.
    apply (standby_at_in_standby cmd bus _ Hmask) in Hin.
    rewrite (H2 i Hi) in Hin. discriminate.
  - split; [assumption|]. intros i Hi.
    destruct (standby_at cmd bus (k + i)) eqn:E; [|reflexivity].
    apply (standby_at_in_standby cmd bus _ Hmask) in E. now apply H2 in E.
Qed.

Lemma waiting_idle (t : list Event) :
  waiting (fun s => negb (is_ready s)) t -> idle_wait t.
Proof.
  intros (ss & s & -> & Hss & Hs). exists ss. split.
  - now destruct s.
  - eapply Forall_impl; [|exact Hss]. intros s' H' ->. discriminate.
Qed.

Lemma page_write_five_steps (cmd : Commands) (bus : Bus) (header payload : list Z)
    (N : Z) (rs : list HAL_StatusTypeDef) (k : nat) (t : list Event) :
  EEPROM_WIP_FLAG cmd = 1 ->
  page_write_steps cmd bus header payload N rs k t ->
  five_steps cmd bus header payload N rs k t.
Proof.
  intros Hmask (t1 & t2 & t3 & t4 & t5 & E & H1 & H2 & H3 & H4 & H5).
  exists t1, t2, t3, t4, t5.
  split; [assumption|]. split; [now apply waiting_idle|]. split; [assumption|].
  split; [assumption|]. split; [|assumption].
  destruct H4 as (t0 & (ts & n & Hs & Hfirst & Et) & E4).
  exists t0. split; [|assumption]. exists ts, n.
  split; [assumption|]. split; [|assumption].
  now apply (first_standby_polled cmd bus _ _ Hmask).
Qed.

(** A bus on which the waits end, stated on its answers, is live. *)
Lemma live_of_answers (cmd : Commands) (bus : Bus) :
  EEPROM_WIP_FLAG cmd = 1 ->
  (forall k, exists n, spi_state bus (k + n) = HAL_SPI_STATE_READY) ->
  error_handler_returns bus = true \/ (forall k, transmit_status bus k = HAL_OK) ->
  (forall k, exists n, in_standby cmd bus (k + n)) ->
  live cmd bus.
Proof.
  intros Hmask Hready Hsent Hstandby. constructor; [assumption|assumption|].
  intros k. destruct (Hstandby k) as (n & Hn). exists n.
  now apply (standby_at_in_standby cmd bus _ Hmask).
Qed.

(** C6: with the mask of the write-in-progress flag equal to 1 (the header
    that defines it is not among the sources, and the loop compares the masked
    byte with [SET]), a page write that returns has appended to the trace, in
    this order: the wait for an idle bus, up to the first read of the state
    that is ready; the write-enable command; the frame with the 3-byte header
    (write opcode, high byte and low byte of the address) and the attempts at
    the payload; the poll of the status register, up to the first receive
    that is not answered busy and delivers a status byte with the flag clear;
    and the write-disable command.  On a bus that gets ready, transmits the
    instructions and finds the device in standby, the page write returns. *)
Theorem WritePage_performs_the_five_steps (cmd : Commands) (bus : Bus)
    (buf : list Z) (pBuffer WriteAddr N : Z) (w : World) :
  EEPROM_WIP_FLAG cmd = 1 ->
  is_u16 WriteAddr ->
  (forall fuel r w',
     EEPROM_SPI_WritePage cmd bus fuel buf pBuffer WriteAddr N w = Some (r, w') ->
     exists t,
       trace w' = trace w ++ t /\
       five_steps cmd bus
         [EEPROM_WRITE cmd; WriteAddr / 256; WriteAddr mod 256]
         (firstn (Z.to_nat N) (skipn (Z.to_nat pBuffer) buf)) N
         (attempt_results bus 5 (transmits w + 2)) (receives w) t) /\
  256 * (WriteAddr / 256) + WriteAddr mod 256 = WriteAddr /\
  ((forall k, exists n, spi_state bus (k + n) = HAL_SPI_STATE_READY) ->
   error_handler_returns bus = true \/ (forall k, transmit_status bus k = HAL_OK) ->
   (forall k, exists n, in_standby cmd bus (k + n)) ->
   exists fuel r w',
     EEPROM_SPI_WritePage cmd bus fuel buf pBuffer WriteAddr N w = Some (r, w')).
Proof.
  intros Hmask HA. destruct (header_bytes WriteAddr HA) as (Ehi & Elo & Eaddr).
  split; [|split].
  - intros fuel r w' H.
    apply WritePage_spec in H as (t & dr & n & Hsteps & (Ht & _) & _).
    rewrite Ehi, Elo in Hsteps. exists t. split; [assumption|].
    now apply page_write_five_steps.
  - lia.
  - intros Hready Hsent Hstandby.
    pose proof (live_of_answers cmd bus Hmask Hready Hsent Hstandby) as Hlive.
    destruct (WritePage_live cmd bus Hlive buf pBuffer WriteAddr N w) as (r & w' & Nf & H).
    exists (S Nf), r, w'. apply H. lia.
Qed.

Lemma ideal_bus_live : live M95 ideal_bus.
Proof.
  constructor.
  - intros k. now exists 0%nat.
  - right. reflexivity.
  - intros k. now exists 0%nat.
Qed.

Lemma WritePage_performs_the_five_steps_witness :
  exists fuel r w',
    EEPROM_SPI_WritePage M95 ideal_bus fuel [10; 11; 12] 0 300 3 start = Some (r, w').
Proof.
  assert (Hmask : EEPROM_WIP_FLAG M95 = 1) by reflexivity.
  assert (HA : is_u16 300) by (unfold is_u16; lia).
  apply (proj2 (proj2 (WritePage_performs_the_five_steps M95 ideal_bus [10; 11; 12] 0 300 3
                         start Hmask HA))).
  - intros k. now exists 0%nat.
  - right. reflexivity.
  - intros k. exists 0%nat. split; [discriminate|reflexivity].
Defined.

(** C7: in a page write that returns, the payload is transmitted at least
    once and at most five times, inside the frame of the header; the answers
    are those of the bus, every attempt but the last was answered busy (and
    is followed by a delay, see [attempts]), the loop stops at the first
    answer that is not busy, and the only other transmits are the four
    instructions; when the first four answers are busy and the fifth is ok,
    the page write reports Complete after exactly five attempts. *)
Theorem payload_is_attempted_at_most_five_times (cmd : Commands) (bus : Bus)
    (fuel : nat) (buf : list Z) (pBuffer WriteAddr N : Z) (w w' : World)
    (r : EepromOperations) :
  EEPROM_SPI_WritePage cmd bus fuel buf pBuffer WriteAddr N w = Some (r, w') ->
  let k := (transmits w + 2)%nat in
  let rs := attempt_results bus 5 k in
  (1 <= length rs <= 5)%nat /\
  transmits w' = (transmits w + 4 + length rs)%nat /\
  (exists t,
     trace w' = trace w ++ t /\
     page_write_steps cmd bus
       [EEPROM_WRITE cmd; u8 (Z.shiftr WriteAddr 8); u8 WriteAddr]
       (firstn (Z.to_nat N) (skipn (Z.to_nat pBuffer) buf)) N rs (receives w) t) /\
  (forall i, (i < length rs)%nat -> nth i rs HAL_OK = transmit_status bus (k + i)) /\
  (forall i, (S i < length rs)%nat -> transmit_status bus (k + i) = HAL_BUSY) /\
  ((length rs < 5)%nat -> is_busy (last rs HAL_OK) = false) /\
  ((forall i, (i < 4)%nat -> transmit_status bus (k + i) = HAL_BUSY) ->
   transmit_status bus (k + 4) = HAL_OK ->
   rs = [HAL_BUSY; HAL_BUSY; HAL_BUSY; HAL_BUSY; HAL_OK] /\ r = EEPROM_STATUS_COMPLETE).
Proof.
  intros H k rs.
  apply WritePage_spec in H as (t & dr & n & Hsteps & (Ht & _ & Htx & _) & Hr).
  destruct (attempt_results_length bus 5 k) as (Hle & Hpos).
  change (attempt_results bus 5 (transmits w + 2)) with rs in Hsteps, Hr, Htx.
  change (attempt_results bus 5 k) with rs in Hle, Hpos.
  split; [lia|].
  split; [lia|].
  split; [now exists t|].
  split; [intros i Hi; now apply attempt_results_nth|].
  split; [intros i Hi; now apply (attempt_results_busy bus 5)|].
  split; [intros Hl; now apply attempt_results_stop|].
  intros Hbusy Hok.
  assert (E : rs = [HAL_BUSY; HAL_BUSY; HAL_BUSY; HAL_BUSY; HAL_OK]).
  { unfold rs. cbn [attempt_results].
    pose proof (Hbusy 0%nat ltac:(lia)) as H0. rewrite Nat.add_0_r in H0.
    pose proof (Hbusy 1%nat ltac:(lia)) as H1. rewrite Nat.add_1_r in H1.
    pose proof (Hbusy 2%nat ltac:(lia)) as H2.
    replace (k + 2)%nat with (S (S k)) in H2 by lia.
    pose proof (Hbusy 3%nat ltac:(lia)) as H3.
    replace (k + 3)%nat with (S (S (S k))) in H3 by lia.
    replace (k + 4)%nat with (S (S (S (S k)))) in Hok by lia.
    rewrite H0. cbn [is_busy]. rewrite H1. cbn [is_busy]. rewrite H2. cbn [is_busy].
    rewrite H3. cbn [is_busy]. rewrite Hok. reflexivity. }
  split; [exact E|]. rewrite Hr, E. reflexivity.
Qed.

Lemma payload_is_attempted_at_most_five_times_witness :
  exists w',
    EEPROM_SPI_WritePage M95 busy_then_ok_bus 2 [10; 11; 12] 0 40 3 start
    = Some (EEPROM_STATUS_COMPLETE, w') /\
    transmits w' = 9%nat.
Proof.
  assert (E : exists w',
             EEPROM_SPI_WritePage M95 busy_then_ok_bus 2 [10; 11; 12] 0 40 3 start
             = Some (EEPROM_STATUS_COMPLETE, w')) by (vm_compute; eexists; reflexivity).
  destruct E as (w' & E). exists w'. split; [exact E|].
  exact (proj1 (proj2 (payload_is_attempted_at_most_five_times _ _ _ _ _ _ _ _ _ _ E))).
Defined.

Lemma run_list_result {W : Type} (WP : Z -> Z -> Z -> M W EepromOperations)
    (Q : EepromOperations -> Prop) (cs : list SubWrite) :
  (forall o a n w r w', WP o a n w = Some (r, w') -> Q r) ->
  Q EEPROM_STATUS_COMPLETE ->
  forall w r w', run_list WP cs (ret EEPROM_STATUS_COMPLETE) w = Some (r, w') -> Q r.
Proof.
  intros HWP HQ. induction cs as [|c cs IH]; intros w r w' H; simpl in H.
  - unfold ret in H. now injection H as <- _.
  - apply bind_Some in H as (st & w1 & Hc & H). unfold check in H.
    destruct (negb (EepromOperations_eqb st EEPROM_STATUS_COMPLETE)).
    + unfold ret in H. injection H as <- _. now apply HWP in Hc.
    + now apply IH in H.
Qed.

Lemma WritePage_result (cmd : Commands) (bus : Bus) (fuel : nat) (buf : list Z)
    (pBuffer WriteAddr N : Z) (w w' : World) (r : EepromOperations) :
  EEPROM_SPI_WritePage cmd bus fuel buf pBuffer WriteAddr N w = Some (r, w') ->
  r = EEPROM_STATUS_COMPLETE \/ r = EEPROM_STATUS_ERROR.
Proof.
  intros H. apply WritePage_spec in H as (t & dr & n & _ & _ & ->).
  destruct (is_error _); [now right|now left].
Qed.

(** The buffered write of the driver executes the computed sequence. *)
Corollary WriteBuffer_bus_runs_issued (cmd : Commands) (bus : Bus) (fuel : nat)
    (P : Z) (buf : list Z) (A L : Z) (w : World) :
  EEPROM_SPI_WriteBuffer_bus cmd bus fuel P buf A L w
  = run_plan (EEPROM_SPI_WritePage cmd bus fuel buf) (issued P A L) w.
Proof.
  unfold EEPROM_SPI_WriteBuffer_bus. now rewrite WriteBuffer_runs_plan, issued_plan.
Qed.

(** On a live bus the buffered write returns. *)
Lemma run_plan_live (cmd : Commands) (bus : Bus) (buf : list Z) (cs : list SubWrite) :
  live cmd bus ->
  forall w, exists r w',
    returns (fun fuel => run_plan (EEPROM_SPI_WritePage cmd bus fuel buf) cs) w r w'.
Proof.
  intros Hlive. unfold run_plan. induction cs as [|c cs IH]; intros w.
  - exists EEPROM_STATUS_COMPLETE, w. now apply returns_const.
  - destruct (WritePage_live cmd bus Hlive buf (sw_buf c) (sw_addr c) (sw_len c) w)
      as (st & w1 & H1).
    destruct (negb (EepromOperations_eqb st EEPROM_STATUS_COMPLETE)) eqn:E.
    + exists st, w1. cbn [run_list].
      eapply returns_bind; [exact H1|]. cbv beta. unfold check. rewrite E.
      now apply returns_const.
    + destruct (IH w1) as (r & w' & H). exists r, w'. cbn [run_list].
      eapply returns_bind; [exact H1|]. cbv beta. unfold check. rewrite E. exact H.
Qed.

Lemma WriteBuffer_bus_live (cmd : Commands) (bus : Bus) (P : Z) (buf : list Z)
    (A L : Z) (w : World) :
  live cmd bus ->
  exists fuel r w', EEPROM_SPI_WriteBuffer_bus cmd bus fuel P buf A L w = Some (r, w').
Proof.
  intros Hlive.
  destruct (run_plan_live cmd bus buf (issued P A L) Hlive w) as (r & w' & N & H).
  exists (S N), r, w'. rewrite WriteBuffer_bus_runs_issued. apply H. lia.
Qed.

(** C8: whatever the bus does, the buffered write, the page write and the
    buffered read return Complete or Error when they return; Pending, the
    initial value of the status in the buffered write, is never returned. *)
Theorem public_operations_return_complete_or_error (cmd : Commands) (bus : Bus)
    (fuel : nat) :
  (forall P buf A L w r w',
     EEPROM_SPI_WriteBuffer_bus cmd bus fuel P buf A L w = Some (r, w') ->
     r = EEPROM_STATUS_COMPLETE \/ r = EEPROM_STATUS_ERROR) /\
  (forall buf pBuffer WriteAddr N w r w',
     EEPROM_SPI_WritePage cmd bus fuel buf pBuffer WriteAddr N w = Some (r, w') ->
     r = EEPROM_STATUS_COMPLETE \/ r = EEPROM_STATUS_ERROR) /\
  (forall ReadAddr N w r pBuffer w',
     EEPROM_SPI_ReadBuffer cmd bus fuel ReadAddr N w = Some ((r, pBuffer), w') ->
     r = EEPROM_STATUS_COMPLETE \/ r = EEPROM_STATUS_ERROR).
Proof.
  split; [|split].
  - intros P buf A L w r w' H. rewrite WriteBuffer_bus_runs_issued in H.
    unfold run_plan in H.
    apply (run_list_result (EEPROM_SPI_WritePage cmd bus fuel buf)
             (fun r => r = EEPROM_STATUS_COMPLETE \/ r = EEPROM_STATUS_ERROR)
             (issued P A L)) in H; [assumption| |now left].
    intros o a n w0 r0 w0'. apply WritePage_result.
  - intros buf pBuffer WriteAddr N w r w'. apply WritePage_result.
  - intros ReadAddr N w r pBuffer w' H. left. now apply ReadBuffer_result in H.
Qed.

Lemma public_operations_return_complete_or_error_witness :
  (exists r w',
     EEPROM_SPI_WriteBuffer_bus M95 hard_error_bus 2 4 [10; 11; 12; 13; 14; 15] 3 6 start
     = Some (r, w') /\ (r = EEPROM_STATUS_COMPLETE \/ r = EEPROM_STATUS_ERROR)) /\
  (exists r w',
     EEPROM_SPI_WritePage M95 ideal_bus 2 [10; 11; 12] 1 40 2 start = Some (r, w') /\
     (r = EEPROM_STATUS_COMPLETE \/ r = EEPROM_STATUS_ERROR)) /\
  (exists r pBuffer w',
     EEPROM_SPI_ReadBuffer M95 ideal_bus 2 40 3 start = Some ((r, pBuffer), w') /\
     (r = EEPROM_STATUS_COMPLETE \/ r = EEPROM_STATUS_ERROR)).
Proof.
  destruct (public_operations_return_complete_or_error M95 hard_error_bus 2) as (HW & _ & _).
  destruct (public_operations_return_complete_or_error M95 ideal_bus 2) as (_ & HP & HR).
  split; [|split].
  - destruct (EEPROM_SPI_WriteBuffer_bus M95 hard_error_bus 2 4 [10; 11; 12; 13; 14; 15] 3 6 start)
      as [[r w']|] eqn:E; [|vm_compute in E; discriminate E].
    exists r, w'. split; [reflexivity|]. exact (HW _ _ _ _ _ _ _ E).
  - destruct (EEPROM_SPI_WritePage M95 ideal_bus 2 [10; 11; 12] 1 40 2 start)
      as [[r w']|] eqn:E; [|vm_compute in E; discriminate E].
    exists r, w'. split; [reflexivity|]. exact (HP _ _ _ _ _ _ _ E).
  - destruct (EEPROM_SPI_ReadBuffer M95 ideal_bus 2 40 3 start)
      as [[[r b] w']|] eqn:E; [|vm_compute in E; discriminate E].
    exists r, b, w'. split; [reflexivity|]. exact (HR _ _ _ _ _ _ E).
Defined.



(** * Further properties of the splitter *)

Lemma firstn_plus {A : Type} (a b : nat) (l : list A) :
  firstn (a + b) l = firstn a l ++ firstn b (skipn a l).
Proof.
  revert l. induction a as [|a IH]; intros l; [reflexivity|].
  destruct l as [|x l]; simpl; [now rewrite firstn_nil|]. now rewrite IH.
Qed.

Lemma skipn_plus {A : Type} (a b : nat) (l : list A) :
  skipn b (skipn a l) = skipn (a + b) l.
Proof.
  revert l. induction a as [|a IH]; intros l; [reflexivity|].
  destruct l as [|x l]; simpl; [now rewrite skipn_nil|]. apply IH.
Qed.

Lemma chain_payloads (P Q A L : Z) (buf : list Z) (ws : list SubWrite) :
  forall o, 0 <= o -> chain P Q A L o ws ->
    concat (map (payload_of buf) ws)
    = firstn (Z.to_nat (L - o)) (skipn (Z.to_nat o) buf).
Proof.
  induction ws as [|w ws IH]; intros o Ho H; simpl in H.
  - subst o. now rewrite Z.sub_diag.
  - destruct H as (Hb & _ & _ & Hlen & Hrest).
    pose proof (chain_le _ _ _ _ _ _ Hrest) as Hle.
    assert (Hn : 0 <= sw_len w) by (destruct Hlen as [?|(? & _)]; lia).
    cbn [map concat]. rewrite (IH (o + sw_len w)) by (lia || assumption).
    unfold payload_of. rewrite Hb.
    replace (Z.to_nat (L - o)) with (Z.to_nat (sw_len w) + Z.to_nat (L - (o + sw_len w)))%nat
      by lia.
    rewrite firstn_plus, skipn_plus. repeat f_equal. lia.
Qed.

(** X1: the payloads of the sub-writes, in the order of issue, are the first
    [L] bytes of the caller's buffer: no byte is skipped, repeated or
    reordered, whatever the address (also when it wraps). *)
Theorem payloads_are_the_buffer (P A L : Z) (buf : list Z) :
  pow2 P -> is_u16 A -> is_u16 L ->
  concat (map (payload_of buf) (issued P A L)) = firstn (Z.to_nat L) buf.
Proof.
  intros HP HA HL.
  rewrite (chain_payloads P (page_unit P) A L buf _ 0 ltac:(lia) (issued_chain P A L HP HA HL)).
  now rewrite Z.sub_0_r.
Qed.

Lemma payloads_are_the_buffer_witness :
  concat (map (payload_of [50; 41; 62; 33; 74; 25; 86; 17; 98; 9; 110])
            (issued 4 65531 9))
  = [50; 41; 62; 33; 74; 25; 86; 17; 98].
Proof.
  apply (payloads_are_the_buffer 4 65531 9 [50; 41; 62; 33; 74; 25; 86; 17; 98; 9; 110]).
  - exists 2. split; [lia|reflexivity].
  - unfold is_u16. lia.
  - unfold is_u16. lia.
Defined.

Lemma u16_mod_divisor (Q x : Z) :
  0 < Q -> 65536 mod Q = 0 -> u16 x mod Q = x mod Q.
Proof.
  intros HQ Hdiv. unfold u16.
  apply Z.mod_mod_divide. apply Z.mod_divide; [lia|assumption].
Qed.

(** X2: every call of the page write made by the buffered write satisfies
    the page write's documented precondition, whatever the request: the
    address is a 16-bit value, the length is at most the page size, and the
    bytes stay inside one page. *)
Theorem sub_writes_fit_one_page (P A L : Z) :
  pow2 P -> is_u16 A -> is_u16 L ->
  forall w, In w (issued P A L) ->
    is_u16 (sw_addr w) /\ 0 <= sw_len w <= P /\ sw_addr w mod P + sw_len w <= P.
Proof.
  intros HP HA HL. pose proof (issued_chain P A L HP HA HL) as Hchain.
  destruct (page_unit_divides P HP) as (HQ & HdivP & Hdiv).
  destruct (pow2_cases P HP) as [Hpos _].
  revert Hchain. generalize 0 at 1. generalize (issued P A L).
  induction l as [|w0 ws IH]; intros o H w Hin; [destruct Hin|].
  simpl in H. destruct H as (_ & Ha & Hpg & Hlen & Hrest).
  destruct Hin as [<-|Hin]; [|now apply (IH _ Hrest)].
  assert (Hn : 0 <= sw_len w0) by (destruct Hlen as [?|(? & _)]; lia).
  assert (Hin_page : sw_addr w0 mod P + sw_len w0 <= P).
  { apply (inside_page_multiple P (page_unit P)); try assumption.
    rewrite Ha, u16_mod_divisor by assumption. exact Hpg. }
  pose proof (Z.mod_pos_bound (sw_addr w0) P Hpos).
  split; [|split; [lia|assumption]].
  rewrite Ha. unfold is_u16, u16. apply Z.mod_pos_bound. lia.
Qed.

Lemma sub_writes_fit_one_page_witness :
  In (mkSubWrite 6 0 32) (issued 32 65530 100) /\
  is_u16 0 /\ 0 <= 32 <= 32 /\ 0 mod 32 + 32 <= 32.
Proof.
  assert (Hin : In (mkSubWrite 6 0 32) (issued 32 65530 100)) by (right; left; reflexivity).
  split; [exact Hin|].
  assert (H32 : pow2 32) by (exists 5; split; [lia|reflexivity]).
  assert (HA : is_u16 65530) by (unfold is_u16; lia).
  assert (HL : is_u16 100) by (unfold is_u16; lia).
  exact (sub_writes_fit_one_page 32 65530 100 H32 HA HL (mkSubWrite 6 0 32) Hin).
Defined.

(** X3: a request of less than a page that does not reach past the end of
    the page it starts in is handed to the page write as it is, in one
    call. *)
Theorem request_inside_a_page_is_one_sub_write (P A L : Z) :
  0 < P < 65536 -> is_u16 A -> is_u16 L ->
  L < P -> A mod P + L <= P ->
  issued P A L = [mkSubWrite 0 A L].
Proof.
  intros HP HA HL Hlt Hfit. unfold is_u16 in *.
  pose proof (Z.mod_pos_bound A P ltac:(lia)) as Hr.
  rewrite issued_plan. unfold plan.
  rewrite (Z.div_small L P), (Z.mod_small L P) by lia.
  rewrite (u16_small (A mod P)), (u16_small (P - A mod P)), (u16_small 0),
    (u16_small L) by lia.
  change (0 =? 0) with true. cbv iota.
  destruct (A mod P =? 0); [reflexivity|].
  destruct (Z.gtb_spec L (P - A mod P)); [lia|reflexivity].
Qed.

Lemma request_inside_a_page_is_one_sub_write_witness :
  issued 32 40 24 = [mkSubWrite 0 40 24].
Proof.
  apply request_inside_a_page_is_one_sub_write.
  - lia.
  - unfold is_u16. lia.
  - unfold is_u16. lia.
  - lia.
  - change (40 mod 32) with 8. lia.
Defined.

Lemma pages_length (P : Z) (n : nat) : forall o a, length (pages P n o a) = n.
Proof. induction n as [|n IH]; intros o a; simpl; [reflexivity|now rewrite IH]. Qed.

Lemma plan_nonempty (P A L : Z) : exists c cs, plan P A L = c :: cs.
Proof.
  unfold plan.
  destruct (u16 (A mod P) =? 0).
  - destruct (u16 (L / P) =? 0); [eexists; eexists; reflexivity|].
    destruct (pages P (Z.to_nat (u16 (L / P))) 0 A); eexists; eexists; reflexivity.
  - destruct (u16 (L / P) =? 0); [|eexists; eexists; reflexivity].
    destruct (u16 (L mod P) >? u16 (P - u16 (A mod P))); eexists; eexists; reflexivity.
Qed.

(** X4: the buffered write makes at least one and at most [L / P + 2] calls
    of the page write. *)
Theorem number_of_sub_writes (P A L : Z) :
  0 < P < 65536 -> is_u16 A -> is_u16 L ->
  1 <= Z.of_nat (length (issued P A L)) <= L / P + 2.
Proof.
  intros HP HA HL. unfold is_u16 in *.
  pose proof (Z.mod_pos_bound A P ltac:(lia)) as Hr.
  pose proof (Z.mod_pos_bound L P ltac:(lia)) as Hs.
  assert (Hq : 0 <= L / P < 65536).
  { split; [apply Z.div_pos; lia|]. apply Z.div_lt_upper_bound; nia. }
  rewrite issued_plan. unfold plan.
  rewrite (u16_small (A mod P)), (u16_small (P - A mod P)),
    (u16_small (L / P)), (u16_small (L mod P)) by lia.
  destruct (A mod P =? 0).
  - destruct (Z.eqb_spec (L / P) 0) as [E|N]; [simpl; lia|].
    rewrite length_app, pages_length. simpl. lia.
  - destruct (Z.eqb_spec (L / P) 0) as [E|N].
    + destruct (L mod P >? P - A mod P); simpl; lia.
    + pose proof (Z.div_mod L P ltac:(lia)) as EL.
      assert (HLP : P <= L) by nia.
      rewrite (u16_small (L - _)) by lia.
      set (L' := L - (P - A mod P)).
      assert (Hq' : 0 <= L' / P <= L / P).
      { split; [apply Z.div_pos; lia|]. apply Z.div_le_mono; lia. }
      rewrite (u16_small (L' / P)) by lia.
      cbn [length]. rewrite length_app, pages_length.
      destruct (negb _); simpl; lia.
Qed.

Lemma number_of_sub_writes_witness :
  1 <= Z.of_nat (length (issued 32 30 100)) <= 100 / 32 + 2.
Proof.
  apply number_of_sub_writes.
  - lia.
  - unfold is_u16. lia.
  - unfold is_u16. lia.
Defined.

(** * Further properties of the bus transactions *)

Section MoreDriverFacts.
Variable cmd : Commands.
Variable bus : Bus.

(** ** The buffered write on the bus *)

Lemma run_list_trace (fuel : nat) (buf : list Z) (cs : list SubWrite) :
  forall w r w',
    run_list (EEPROM_SPI_WritePage cmd bus fuel buf) cs (ret EEPROM_STATUS_COMPLETE) w
    = Some (r, w') ->
    exists done rest ts,
      cs = done ++ rest /\
      Forall2 (page_written cmd bus buf) done ts /\
      trace w' = trace w ++ concat ts /\
      ((r = EEPROM_STATUS_COMPLETE /\ rest = []) \/
       (r = EEPROM_STATUS_ERROR /\ exists c done', done = done' ++ [c])).
Proof.
  induction cs as [|c cs IH]; intros w r w' H; simpl in H.
  - unfold ret in H. injection H as <- <-. exists [], [], [].
    split; [reflexivity|]. split; [constructor|]. split; [now rewrite app_nil_r|].
    now left.
  - apply bind_Some in H as (st & w1 & Hc & H).
    pose proof (WritePage_result _ _ _ _ _ _ _ _ _ _ Hc) as Hst.
    apply WritePage_spec in Hc as (t & dr & n & Hsteps & (Ht & _) & _).
    assert (Hw : page_written cmd bus buf c t) by (eexists; eexists; exact Hsteps).
    unfold check in H. destruct Hst as [-> | ->]; simpl in H.
    + destruct (IH _ _ _ H) as (done & rest & ts & -> & Hall & Htr & Hcase).
      exists (c :: done), rest, (t :: ts).
      split; [reflexivity|]. split; [now constructor|].
      split; [cbn [concat]; now rewrite Htr, Ht, app_assoc|].
      destruct Hcase as [Hc|(Hr & c' & done' & ->)]; [now left|].
      right. split; [assumption|]. now exists c', (c :: done').
    + unfold ret in H. injection H as <- <-.
      exists [c], cs, [t]. split; [reflexivity|].
      split; [now repeat constructor|].
      split; [cbn [concat]; now rewrite app_nil_r|].
      right. split; [reflexivity|]. now exists c, [].
Qed.


(** ** The pins *)

Lemma pins_app (t1 t2 : list Event) : pins (t1 ++ t2) = pins t1 ++ pins t2.
Proof.
  induction t1 as [|e t1 IH]; [reflexivity|].
  destruct e; simpl; now rewrite IH.
Qed.

Lemma pins_flat_map {X : Type} (f : X -> list Event) (l : list X) :
  (forall x, pins (f x) = []) -> pins (flat_map f l) = [].
Proof.
  intros Hf. induction l as [|x l IH]; [reflexivity|].
  simpl. now rewrite pins_app, Hf, IH.
Qed.

Lemma pins_waiting (again : HAL_SPI_StateTypeDef -> bool) (t : list Event) :
  waiting again t -> pins t = [].
Proof.
  intros (ss & s & -> & _). rewrite pins_app, pins_flat_map; reflexivity.
Qed.

Lemma pins_sent (instruction : list Z) (t : list Event) :
  sent instruction t -> pins t = [].
Proof.
  intros (t0 & r & Hw & ->). rewrite pins_app, (pins_waiting _ _ Hw).
  now destruct (is_ok r).
Qed.

Lemma pins_attempts (pData : list Z) (Size : Z) (rs : list HAL_StatusTypeDef) :
  pins (attempts pData Size rs) = [].
Proof. apply pins_flat_map. intros r. now destruct (is_busy r). Qed.

Lemma pins_polls (k n : nat) : pins (polls bus k n) = [].
Proof. apply pins_flat_map. reflexivity. Qed.

Lemma pins_receive_retries (Size Timeout : Z) (k n : nat) :
  pins (receive_retries bus Size Timeout k n) = [].
Proof. unfold receive_retries. rewrite pins_app, pins_flat_map; reflexivity. Qed.

Lemma pins_framed (inside : list Event -> Prop) (t : list Event) :
  (forall t0, inside t0 -> pins t0 = []) -> framed inside t -> pins t = frames 1.
Proof.
  intros Hin (t0 & H0 & ->). cbn [pins]. now rewrite pins_app, (Hin _ H0).
Qed.

Lemma pins_page_write_steps (header payload : list Z) (N : Z)
    (rs : list HAL_StatusTypeDef) (k : nat) (t : list Event) :
  page_write_steps cmd bus header payload N rs k t -> pins t = frames 4.
Proof.
  intros (t1 & t2 & t3 & t4 & t5 & -> & H1 & H2 & H3 & H4 & H5).
  assert (E2 : pins t2 = frames 1) by (revert H2; apply pins_framed, pins_sent).
  assert (E5 : pins t5 = frames 1) by (revert H5; apply pins_framed, pins_sent).
  assert (E3 : pins t3 = frames 1).
  { revert H3. apply pins_framed. intros t0 (th & Hs & ->).
    now rewrite pins_app, (pins_sent _ _ Hs), pins_attempts. }
  assert (E4 : pins t4 = frames 1).
  { revert H4. apply pins_framed. intros t0 (ts & n & Hs & _ & ->).
    now rewrite pins_app, (pins_sent _ _ Hs), pins_polls. }
  rewrite !pins_app, (pins_waiting _ _ H1), E2, E3, E4, E5. reflexivity.
Qed.

Lemma pins_pages_written (buf : list Z) (done : list SubWrite) (ts : list (list Event)) :
  Forall2 (page_written cmd bus buf) done ts ->
  pins (concat ts) = frames (4 * length done).
Proof.
  induction 1 as [|c t done ts (rs & k & Hc) _ IH]; [reflexivity|].
  cbn [concat length]. rewrite pins_app, IH, (pins_page_write_steps _ _ _ _ _ _ Hc).
  unfold frames. rewrite <- concat_app, <- repeat_app. f_equal. f_equal. lia.
Qed.

(** ** The buffered read *)

Lemma receive_buffer_spec (fuel : nat) (N : Z) (w w' : World) (data : list Z) :
  receive_buffer bus fuel N w = Some (data, w') ->
  exists n,
    (forall i, (i < n)%nat -> is_busy (receive_status bus (receives w + i)) = true) /\
    is_busy (receive_status bus (receives w + n)) = false /\
    data = map u8 (map (receive_data bus (receives w + n)) (seq 0 (Z.to_nat N))) /\
    advance w w' (receive_retries bus N 2000 (receives w) n) 0 0 (S n).
Proof.
  unfold receive_buffer.
  apply (loop_rule
           (fun (_ : unit) w1 =>
              exists m,
                (forall i, (i < m)%nat ->
                   is_busy (receive_status bus (receives w + i)) = true) /\
                advance w w1
                  (flat_map (fun i => [rx_event bus N 2000 i; EvDelay 1]) (seq (receives w) m))
                  0 0 m)
           (fun (data : list Z) w1 =>
              exists n,
                (forall i, (i < n)%nat ->
                   is_busy (receive_status bus (receives w + i)) = true) /\
                is_busy (receive_status bus (receives w + n)) = false /\
                data = map u8 (map (receive_data bus (receives w + n)) (seq 0 (Z.to_nat N))) /\
                advance w w1 (receive_retries bus N 2000 (receives w) n) 0 0 (S n))).
  - intros i0 w1 i' w2 (m & Hbusy & Hadv) H. unfold receive_buffer_round in H.
    apply bind_Some in H as (rx & w3 & Hrx & H).
    apply Receive_advance in Hrx as (Erx & Hrx). subst rx. cbn [fst snd] in *.
    assert (Ek : receives w1 = (receives w + m)%nat) by (destruct Hadv as (_ & _ & _ & X); lia).
    rewrite Ek in *.
    destruct (is_busy (receive_status bus (receives w + m))) eqn:Eb; [|discriminate].
    apply bind_Some in H as (u & w4 & Hd & H). injection H as _ <-.
    apply emit_advance in Hd.
    exists (S m). split.
    + intros i Hi. destruct (Nat.eq_dec i m) as [->|Hne]; [assumption|].
      apply Hbusy. lia.
    + pose proof (advance_trans _ _ _ _ _ _ _ _ _ _ _ Hadv
                    (advance_trans _ _ _ _ _ _ _ _ _ _ _ Hrx Hd)) as Ht.
      rewrite seq_S, flat_map_app. simpl. simpl in Ht.
      replace (m + 1)%nat with (S m) in Ht by lia. exact Ht.
  - intros i0 w1 r w2 (m & Hbusy & Hadv) H. unfold receive_buffer_round in H.
    apply bind_Some in H as (rx & w3 & Hrx & H).
    apply Receive_advance in Hrx as (Erx & Hrx). subst rx. cbn [fst snd] in *.
    assert (Ek : receives w1 = (receives w + m)%nat) by (destruct Hadv as (_ & _ & _ & X); lia).
    rewrite Ek in *.
    destruct (is_busy (receive_status bus (receives w + m))) eqn:Eb.
    + apply bind_Some in H as (u & w4 & _ & H). discriminate.
    + injection H as <- <-. exists m.
      split; [assumption|split; [assumption|split; [reflexivity|]]].
      pose proof (advance_trans _ _ _ _ _ _ _ _ _ _ _ Hadv Hrx) as Ht.
      replace (m + 1)%nat with (S m) in Ht by lia. exact Ht.
  - exists 0%nat. split; [intros i Hi; lia|]. apply advance_refl.
Qed.

(** What a buffered read that returns has done. *)
Lemma ReadBuffer_spec (fuel : nat) (ReadAddr N : Z) (w w' : World)
    (r : EepromOperations) (data : list Z) :
  EEPROM_SPI_ReadBuffer cmd bus fuel ReadAddr N w = Some ((r, data), w') ->
  r = EEPROM_STATUS_COMPLETE /\
  exists n t dr,
    (forall i, (i < n)%nat -> is_busy (receive_status bus (receives w + i)) = true) /\
    is_busy (receive_status bus (receives w + n)) = false /\
    data = map u8 (map (receive_data bus (receives w + n)) (seq 0 (Z.to_nat N))) /\
    read_steps cmd bus [EEPROM_READ cmd; u8 (Z.shiftr ReadAddr 8); u8 ReadAddr] N
      (receives w) n t /\
    advance w w' t dr 1 (S n).
Proof.
  unfold EEPROM_SPI_ReadBuffer. intros H.
  apply bind_Some in H as (u0 & w1 & H1 & H).
  apply wait_state_spec in H1 as (t1 & dr1 & Hwait & H1).
  apply bind_Some in H as (u1 & w2 & Hlow & H). apply emit_advance in Hlow.
  apply bind_Some in H as (u2 & w3 & Hh & H).
  apply SendInstruction_spec in Hh as (th & drh & Hsent & Hh); [|reflexivity|simpl; lia].
  apply bind_Some in H as (b & w4 & Hrx & H).
  apply receive_buffer_spec in Hrx as (n & Hbusy & Hlast & Hdata & Hrx).
  apply bind_Some in H as (u3 & w5 & Hhigh & H). apply emit_advance in Hhigh.
  unfold ret in H. injection H as <- <- <-. split; [reflexivity|].
  assert (Ek : receives w3 = receives w).
  { destruct H1 as (_ & _ & _ & X1). destruct Hlow as (_ & _ & _ & X2).
    destruct Hh as (_ & _ & _ & X3). lia. }
  rewrite Ek in *.
  set (t2 := EvPin CS GPIO_PIN_RESET
             :: (th ++ receive_retries bus N 2000 (receives w) n) ++ [EvPin CS GPIO_PIN_SET]).
  exists n, (t1 ++ t2), (dr1 + (0 + (drh + (0 + 0))))%nat.
  split; [assumption|split; [assumption|split; [assumption|split]]].
  - exists t1, t2. split; [reflexivity|split; [assumption|]].
    exists (th ++ receive_retries bus N 2000 (receives w) n). split; [|reflexivity].
    now exists th.
  - pose proof (advance_trans _ _ _ _ _ _ _ _ _ _ _ H1
                  (advance_trans _ _ _ _ _ _ _ _ _ _ _ Hlow
                     (advance_trans _ _ _ _ _ _ _ _ _ _ _ Hh
                        (advance_trans _ _ _ _ _ _ _ _ _ _ _ Hrx Hhigh)))) as Ht.
    rewrite (app_assoc th) in Ht.
    replace (0 + (0 + (0 + (S n + 0))))%nat with (S n) in Ht by lia.
    exact Ht.
Qed.

Lemma not_busy_iff (r : HAL_StatusTypeDef) : is_busy r = false <-> r <> HAL_BUSY.
Proof. destruct r; simpl; split; intros H; (reflexivity || discriminate || congruence). Qed.

Lemma busy_iff (r : HAL_StatusTypeDef) : is_busy r = true <-> r = HAL_BUSY.
Proof. destruct r; simpl; split; intros H; (reflexivity || discriminate). Qed.
End MoreDriverFacts.

(** X6: a buffered read that returns reports Complete and hands back, byte
    by byte, what the buffer holds after the first receive that was not
    answered busy, also when that receive reported an error or a timeout;
    it is one chip-select frame with one header (read opcode, high and low
    byte of the address) and the receives, a delay after each busy one. *)
Theorem ReadBuffer_is_one_transaction (cmd : Commands) (bus : Bus) (fuel : nat)
    (ReadAddr N : Z) (w w' : World) (r : EepromOperations) (data : list Z) :
  is_u16 ReadAddr ->
  EEPROM_SPI_ReadBuffer cmd bus fuel ReadAddr N w = Some ((r, data), w') ->
  r = EEPROM_STATUS_COMPLETE /\
  exists n t,
    (forall i, (i < n)%nat -> receive_status bus (receives w + i) = HAL_BUSY) /\
    receive_status bus (receives w + n) <> HAL_BUSY /\
    data = map (fun j => u8 (receive_data bus (receives w + n) j)) (seq 0 (Z.to_nat N)) /\
    length data = Z.to_nat N /\
    trace w' = trace w ++ t /\
    read_steps cmd bus [EEPROM_READ cmd; ReadAddr / 256; ReadAddr mod 256] N
      (receives w) n t /\
    256 * (ReadAddr / 256) + ReadAddr mod 256 = ReadAddr /\
    transmits w' = S (transmits w) /\
    receives w' = (receives w + S n)%nat.
Proof.
  intros HA H. destruct (header_bytes ReadAddr HA) as (Ehi & Elo & Eaddr).
  apply ReadBuffer_spec in H as (Hr & n & t & dr & Hbusy & Hlast & Hdata & Hsteps & Hadv).
  rewrite Ehi, Elo in Hsteps. split; [assumption|]. exists n, t.
  destruct Hadv as (Ht & _ & Htx & Hrx).
  split; [intros i Hi; now apply busy_iff, Hbusy|].
  split; [now apply not_busy_iff|].
  rewrite map_map in Hdata.
  split; [assumption|]. split; [now rewrite Hdata, length_map, length_seq|].
  split; [assumption|]. split; [assumption|]. split; [lia|]. split; [lia|assumption].
Qed.

Lemma ReadBuffer_is_one_transaction_witness :
  exists w',
    EEPROM_SPI_ReadBuffer M95 (memory_bus [7; 8; 9; 10] 2 HAL_ERROR) 3 300 3 start
    = Some ((EEPROM_STATUS_COMPLETE, [7; 8; 9]), w') /\
    transmits w' = 1%nat.
Proof.
  assert (E : exists w',
             EEPROM_SPI_ReadBuffer M95 (memory_bus [7; 8; 9; 10] 2 HAL_ERROR) 3 300 3 start
             = Some ((EEPROM_STATUS_COMPLETE, [7; 8; 9]), w'))
    by (vm_compute; eexists; reflexivity).
  destruct E as (w' & E). exists w'. split; [exact E|].
  assert (HA : is_u16 300) by (unfold is_u16; lia).
  destruct (ReadBuffer_is_one_transaction _ _ _ _ _ _ _ _ _ HA E)
    as (_ & n & t & _ & _ & _ & _ & _ & _ & _ & Htx & _).
  exact Htx.
Defined.

Lemma pins_read_steps (cmd : Commands) (bus : Bus) (header : list Z) (N : Z)
    (k n : nat) (t : list Event) :
  read_steps cmd bus header N k n t -> pins t = frames 1.
Proof.
  intros (t1 & t2 & -> & H1 & H2). rewrite pins_app, (pins_waiting _ _ H1).
  revert H2. apply pins_framed. intros t0 (th & Hs & ->).
  now rewrite pins_app, (pins_sent _ _ Hs), pins_receive_retries.
Qed.

(** X7: the write and read operations drive no other line than the chip
    select, always in pairs select-deselect, and leave the device deselected:
    four frames for a page write, four for each sub-write carried out by a
    buffered write (all of them when the result is Complete), one for a
    buffered read.  The write-protect and hold lines are never written. *)
Theorem only_chip_select_is_driven (cmd : Commands) (bus : Bus) (fuel : nat) :
  (forall buf pBuffer WriteAddr N w r w',
     EEPROM_SPI_WritePage cmd bus fuel buf pBuffer WriteAddr N w = Some (r, w') ->
     exists t, trace w' = trace w ++ t /\ pins t = frames 4) /\
  (forall P buf A L w r w',
     EEPROM_SPI_WriteBuffer_bus cmd bus fuel P buf A L w = Some (r, w') ->
     exists t n,
       trace w' = trace w ++ t /\ pins t = frames (4 * n) /\
       (n <= length (issued P A L))%nat /\
       (r = EEPROM_STATUS_COMPLETE -> n = length (issued P A L))) /\
  (forall ReadAddr N w res w',
     EEPROM_SPI_ReadBuffer cmd bus fuel ReadAddr N w = Some (res, w') ->
     exists t, trace w' = trace w ++ t /\ pins t = frames 1).
Proof.
  split; [|split].
  - intros buf pBuffer WriteAddr N w r w' H.
    apply WritePage_spec in H as (t & dr & n & Hsteps & (Ht & _) & _).
    exists t. split; [assumption|]. now apply pins_page_write_steps in Hsteps.
  - intros P buf A L w r w' H. rewrite WriteBuffer_bus_runs_issued in H.
    apply run_list_trace in H as (done & rest & ts & E & Hall & Ht & Hcase).
    exists (concat ts), (length done).
    split; [assumption|]. split; [now apply (pins_pages_written cmd bus buf)|].
    rewrite E, length_app. split; [lia|].
    intros ->. destruct Hcase as [(_ & ->)|(Habs & _)]; [simpl; lia|discriminate].
  - intros ReadAddr N w [r data] w' H.
    apply ReadBuffer_spec in H as (_ & n & t & dr & _ & _ & _ & Hsteps & (Ht & _)).
    exists t. split; [assumption|]. now apply pins_read_steps in Hsteps.
Qed.

Lemma only_chip_select_is_driven_witness :
  exists r w' t,
    EEPROM_SPI_WriteBuffer_bus M95 ideal_bus 2 4 [1; 2; 3; 4; 5; 6] 3 6 start = Some (r, w') /\
    trace w' = trace start ++ t /\ pins t = frames 12.
Proof.
  destruct (EEPROM_SPI_WriteBuffer_bus M95 ideal_bus 2 4 [1; 2; 3; 4; 5; 6] 3 6 start)
    as [[r w']|] eqn:E; [|vm_compute in E; discriminate E].
  destruct (proj1 (proj2 (only_chip_select_is_driven M95 ideal_bus 2)) _ _ _ _ _ _ _ E)
    as (t & n & Ht & Hp & _ & Hn).
  exists r, w', t. split; [reflexivity|]. split; [assumption|].
  assert (Er : r = EEPROM_STATUS_COMPLETE).
  { vm_compute in E. now injection E as <- _. }
  rewrite (Hn Er) in Hp. exact Hp.
Defined.

(** ** Waits without a bound *)

Lemma wait_state_index (bus : Bus) (fuel : nat) (again : HAL_SPI_StateTypeDef -> bool)
    (w w' : World) (x : unit) :
  wait_state bus fuel again w = Some (x, w') ->
  exists n, again (spi_state bus (reads w + n)) = false.
Proof.
  unfold wait_state.
  apply (loop_rule (fun (_ : unit) w1 => (reads w <= reads w1)%nat)
           (fun (_ : unit) _ => exists n, again (spi_state bus (reads w + n)) = false)).
  - intros i0 w1 i' w2 Hle H. unfold wait_round in H.
    apply bind_Some in H as (s & w3 & Hs & H).
    apply SPI_State_advance in Hs as (_ & (_ & Hr & _)).
    destruct (again s); [|discriminate].
    apply bind_Some in H as (u & w4 & Hd & H). injection H as _ <-.
    apply emit_advance in Hd as (_ & Hr' & _). lia.
  - intros i0 w1 r w2 Hle H. unfold wait_round in H.
    apply bind_Some in H as (s & w3 & Hs & H).
    apply SPI_State_advance in Hs as (Es & _).
    destruct (again s) eqn:Ea; [apply bind_Some in H as (u & w4 & _ & H); discriminate|].
    exists (reads w1 - reads w)%nat.
    replace (reads w + (reads w1 - reads w))%nat with (reads w1) by lia. now rewrite <- Es.
  - lia.
Qed.

(** X8: the wait for an idle bus at the start of a page write and of a
    buffered read has no bound: when no read of the bus state ever finds it
    ready, neither operation returns, whatever the allowance of rounds. *)
Theorem idle_wait_has_no_bound (cmd : Commands) (bus : Bus) (w : World) :
  (forall n, spi_state bus (reads w + n) <> HAL_SPI_STATE_READY) ->
  forall fuel,
    (forall buf pBuffer WriteAddr N,
       EEPROM_SPI_WritePage cmd bus fuel buf pBuffer WriteAddr N w = None) /\
    (forall P buf A L, EEPROM_SPI_WriteBuffer_bus cmd bus fuel P buf A L w = None) /\
    (forall ReadAddr N, EEPROM_SPI_ReadBuffer cmd bus fuel ReadAddr N w = None).
Proof.
  intros Hnever fuel.
  assert (Hwait : wait_state bus fuel (fun s => negb (is_ready s)) w = None).
  { destruct (wait_state bus fuel (fun s => negb (is_ready s)) w) as [[x w1]|] eqn:E;
      [|reflexivity].
    apply wait_state_index in E as (n & Hn). specialize (Hnever n).
    destruct (spi_state bus (reads w + n)); (discriminate || contradiction). }
  assert (Hpage : forall buf pBuffer WriteAddr N,
             EEPROM_SPI_WritePage cmd bus fuel buf pBuffer WriteAddr N w = None).
  { intros. unfold EEPROM_SPI_WritePage, bind. now rewrite Hwait. }
  split; [exact Hpage|split].
  - intros P buf A L. rewrite WriteBuffer_bus_runs_issued. unfold run_plan.
    rewrite issued_plan.
    destruct (plan_nonempty P A L) as (c & cs & ->).
    cbn [run_list]. unfold bind. now rewrite Hpage.
  - intros. unfold EEPROM_SPI_ReadBuffer, bind. now rewrite Hwait.
Qed.

Lemma idle_wait_has_no_bound_witness :
  EEPROM_SPI_WriteBuffer_bus M95 busy_state_bus 1000 32 [1; 2; 3] 0 3 start = None /\
  EEPROM_SPI_ReadBuffer M95 busy_state_bus 1000 0 3 start = None.
Proof.
  assert (Hnever : forall n, spi_state busy_state_bus (reads start + n) <> HAL_SPI_STATE_READY)
    by (intros n; discriminate).
  destruct (idle_wait_has_no_bound M95 busy_state_bus start Hnever 1000) as (_ & HW & HR).
  split; [apply HW|apply HR].
Defined.

Lemma receive_buffer_round_stop (bus : Bus) (N : Z) (w : World) :
  is_busy (receive_status bus (receives w)) = false ->
  exists data w', receive_buffer_round bus N tt w = Some (inr data, w').
Proof.
  intros E. unfold receive_buffer_round, bind, HAL_SPI_Receive. cbn [fst snd]. rewrite E.
  eexists. eexists. reflexivity.
Qed.

Lemma receive_buffer_round_go (bus : Bus) (N : Z) (w : World) :
  is_busy (receive_status bus (receives w)) = true ->
  exists w', receive_buffer_round bus N tt w = Some (inl tt, w') /\
             receives w' = S (receives w).
Proof.
  intros E. unfold receive_buffer_round, bind, HAL_SPI_Receive. cbn [fst snd]. rewrite E.
  eexists. split; reflexivity.
Qed.

Lemma receive_buffer_returns (bus : Bus) (N : Z) (n : nat) :
  forall w, is_busy (receive_status bus (receives w + n)) = false ->
    exists data w', returns (fun fuel => receive_buffer bus fuel N) w data w'.
Proof.
  induction n as [|n IH]; intros w H.
  - rewrite Nat.add_0_r in H. destruct (receive_buffer_round_stop bus N w H) as (d & w' & E).
    exists d, w', 0%nat. intros [|fuel] Hf; [lia|]. unfold receive_buffer. simpl. now rewrite E.
  - destruct (is_busy (receive_status bus (receives w))) eqn:Eb.
    + destruct (receive_buffer_round_go bus N w Eb) as (w1 & E & Er).
      destruct (IH w1) as (d & w' & Nf & HN).
      { rewrite Er. now replace (S (receives w) + n)%nat with (receives w + S n)%nat by lia. }
      exists d, w', (S Nf). intros [|fuel] Hf; [lia|]. unfold receive_buffer. simpl.
      rewrite E. apply HN. lia.
    + destruct (receive_buffer_round_stop bus N w Eb) as (d & w' & E).
      exists d, w', 0%nat. intros [|fuel] Hf; [lia|]. unfold receive_buffer. simpl.
      now rewrite E.
Qed.

(** X9: on a bus that gets ready and transmits the header, the buffered read
    returns exactly when some receive is answered with something else than
    busy: it retries a busy receive without a bound, and gives up on no
    error. *)
Theorem ReadBuffer_returns_iff_a_receive_is_not_busy (cmd : Commands) (bus : Bus)
    (ReadAddr N : Z) (w : World) :
  (forall k, exists n, spi_state bus (k + n) = HAL_SPI_STATE_READY) ->
  error_handler_returns bus = true \/ (forall k, transmit_status bus k = HAL_OK) ->
  (exists fuel res w', EEPROM_SPI_ReadBuffer cmd bus fuel ReadAddr N w = Some (res, w'))
  <-> (exists n, receive_status bus (receives w + n) <> HAL_BUSY).
Proof.
  intros Hready Hsent. split.
  - intros (fuel & [r data] & w' & H).
    apply ReadBuffer_spec in H as (_ & n & _ & _ & _ & Hlast & _).
    exists n. now apply not_busy_iff.
  - intros (n & Hn). apply not_busy_iff in Hn.
    destruct (Hready (reads w)) as (m & Hm).
    destruct (wait_state_returns bus (fun s => negb (is_ready s)) m w) as (w1 & H1);
      [now rewrite Hm|].
    destruct (Hready (reads (logged (EvPin CS GPIO_PIN_RESET) w1))) as (m2 & Hm2).
    destruct (SendInstruction_returns bus
                [EEPROM_READ cmd; u8 (Z.shiftr ReadAddr 8); u8 ReadAddr] 3
                (logged (EvPin CS GPIO_PIN_RESET) w1) m2) as (w3 & H3).
    { now rewrite Hm2. }
    { destruct Hsent as [Hh|Hok]; [now left|right; apply Hok]. }
    assert (Erx : receives w3 = receives w).
    { destruct H1 as [N1 HN1]. specialize (HN1 (S N1) ltac:(lia)).
      apply wait_state_spec in HN1 as (t1 & dr1 & _ & _ & _ & _ & X1).
      destruct H3 as [N3 HN3]. specialize (HN3 (S N3) ltac:(lia)).
      apply SendInstruction_spec in HN3 as (t3 & dr3 & _ & _ & _ & _ & X3);
        [cbn [logged receives] in X3; lia|reflexivity|simpl; lia]. }
    destruct (receive_buffer_returns bus N n w3) as (data & w4 & H4); [now rewrite Erx|].
    assert (Hall : returns (fun fuel => EEPROM_SPI_ReadBuffer cmd bus fuel ReadAddr N) w
                     (EEPROM_STATUS_COMPLETE, data) (logged (EvPin CS GPIO_PIN_SET) w4)).
    { unfold EEPROM_SPI_ReadBuffer.
      eapply returns_bind; [exact H1|]. cbv beta.
      eapply returns_bind; [apply returns_const; reflexivity|]. cbv beta.
      eapply returns_bind; [exact H3|]. cbv beta.
      eapply returns_bind; [exact H4|]. cbv beta.
      apply returns_const. reflexivity. }
    destruct Hall as [Nf Hf].
    exists (S Nf), (EEPROM_STATUS_COMPLETE, data), (logged (EvPin CS GPIO_PIN_SET) w4).
    apply Hf. lia.
Qed.

Lemma ReadBuffer_returns_iff_a_receive_is_not_busy_witness :
  (exists fuel res w',
     EEPROM_SPI_ReadBuffer M95 (memory_bus [7; 8; 9] 5 HAL_TIMEOUT) fuel 0 3 start
     = Some (res, w')) /\
  ~ (exists fuel res w',
       EEPROM_SPI_ReadBuffer M95 busy_receive_bus fuel 0 3 start = Some (res, w')).
Proof.
  split.
  - apply (proj2 (ReadBuffer_returns_iff_a_receive_is_not_busy M95
                    (memory_bus [7; 8; 9] 5 HAL_TIMEOUT) 0 3 start
                    (fun k => ex_intro _ 0%nat eq_refl) (or_intror (fun k => eq_refl)))).
    exists 5%nat. discriminate.
  - intros H.
    apply (proj1 (ReadBuffer_returns_iff_a_receive_is_not_busy M95 busy_receive_bus 0 3 start
                    (fun k => ex_intro _ 0%nat eq_refl) (or_intror (fun k => eq_refl)))) in H.
    destruct H as (n & Hn). now apply Hn.
Defined.

(** ** Sending an instruction *)

Lemma SendInstruction_exact (bus : Bus) (fuel : nat) (instruction : list Z) (size : Z)
    (w w' : World) (x : unit) :
  EEPROM_SPI_SendInstruction bus fuel instruction size w = Some (x, w') ->
  exists t0 dr,
    waiting is_reset t0 /\
    advance w w'
      (t0 ++ EvTransmit (firstn (Z.to_nat (u16 (u8 size))) instruction) (u16 (u8 size)) 200
                 (transmit_status bus (transmits w))
             :: (if is_ok (transmit_status bus (transmits w)) then [] else [EvErrorHandler]))
      dr 1 0 /\
    (is_ok (transmit_status bus (transmits w)) = true \/ error_handler_returns bus = true).
Proof.
  intros H. unfold EEPROM_SPI_SendInstruction in H.
  apply bind_Some in H as (u & w1 & Hw & H).
  apply wait_state_spec in Hw as (t0 & dr & Hwait & Hadv0).
  apply bind_Some in H as (r & w2 & Ht & H).
  apply Transmit_advance in Ht as (Er & Ht).
  assert (Etx : transmits w1 = transmits w) by (destruct Hadv0 as (_ & _ & T & _); lia).
  rewrite Etx in Er. subst r.
  pose proof (advance_trans _ _ _ _ _ _ _ _ _ _ _ Hadv0 Ht) as Hadv.
  destruct (is_ok (transmit_status bus (transmits w))) eqn:Eok; simpl in H.
  - injection H as _ <-. exists t0, (dr + 0)%nat.
    split; [assumption|]. split; [exact Hadv|now left].
  - unfold Error_Handler in H.
    destruct (error_handler_returns bus) eqn:Eh; [|discriminate].
    apply emit_advance in H.
    pose proof (advance_trans _ _ _ _ _ _ _ _ _ _ _ Hadv H) as Hadv'.
    rewrite <- app_assoc in Hadv'. simpl in Hadv'.
    exists t0, (dr + 0 + 0)%nat. split; [assumption|]. split; [exact Hadv'|now right].
Qed.

(** X10: an instruction is transmitted once, whatever the answer: when
    sending it returns, the trace has grown by the wait for a bus out of
    reset, one transmit with a timeout of 200 ms and, if the answer was not
    ok (busy included), the call of the handler, which has returned; when
    the answer is not ok and the handler does not return, sending the
    instruction does not return. *)
Theorem SendInstruction_fails_hard (bus : Bus) (instruction : list Z) (size : Z)
    (w : World) :
  let r := transmit_status bus (transmits w) in
  (forall fuel x w',
     EEPROM_SPI_SendInstruction bus fuel instruction size w = Some (x, w') ->
     (exists t0,
        waiting is_reset t0 /\
        trace w' = trace w ++ t0 ++
          EvTransmit (firstn (Z.to_nat (u16 (u8 size))) instruction) (u16 (u8 size)) 200 r
          :: (if is_ok r then [] else [EvErrorHandler])) /\
     transmits w' = S (transmits w) /\ receives w' = receives w /\
     (r = HAL_OK \/ error_handler_returns bus = true)) /\
  (r <> HAL_OK -> error_handler_returns bus = false ->
   forall fuel, EEPROM_SPI_SendInstruction bus fuel instruction size w = None).
Proof.
  intros r.
  assert (Hret : forall fuel x w',
             EEPROM_SPI_SendInstruction bus fuel instruction size w = Some (x, w') ->
             (exists t0,
                waiting is_reset t0 /\
                trace w' = trace w ++ t0 ++
                  EvTransmit (firstn (Z.to_nat (u16 (u8 size))) instruction) (u16 (u8 size))
                    200 r
                  :: (if is_ok r then [] else [EvErrorHandler])) /\
             transmits w' = S (transmits w) /\ receives w' = receives w /\
             (r = HAL_OK \/ error_handler_returns bus = true)).
  { intros fuel x w' H.
    apply SendInstruction_exact in H as (t0 & dr & Hwait & (Ht & _ & Htx & Hrx) & Hok).
    split; [now exists t0|]. split; [lia|]. split; [lia|].
    destruct Hok as [Hok|Hh]; [left|now right].
    fold r in Hok. now destruct r. }
  split; [exact Hret|].
  intros Hne Hfatal fuel.
  destruct (EEPROM_SPI_SendInstruction bus fuel instruction size w) as [[x w']|] eqn:E;
    [|reflexivity].
  apply Hret in E as (_ & _ & _ & [Hok|Hh]); [contradiction|congruence].
Qed.

Lemma SendInstruction_fails_hard_witness :
  (forall fuel,
     EEPROM_SPI_SendInstruction (failing_transmit_bus false) fuel [6] 1 start = None) /\
  (exists w',
     EEPROM_SPI_SendInstruction (failing_transmit_bus true) 1 [6] 1 start = Some (tt, w') /\
     transmits w' = 1%nat).
Proof.
  split.
  - apply (proj2 (SendInstruction_fails_hard (failing_transmit_bus false) [6] 1 start));
      [discriminate|reflexivity].
  - assert (E : exists w',
               EEPROM_SPI_SendInstruction (failing_transmit_bus true) 1 [6] 1 start
               = Some (tt, w')) by (vm_compute; eexists; reflexivity).
    destruct E as (w' & E). exists w'. split; [exact E|].
    apply (proj1 (SendInstruction_fails_hard (failing_transmit_bus true) [6] 1 start) _ _ _ E).
Defined.

Lemma command_returns (bus : Bus) (instruction : list Z) (size : Z) (w : World) :
  (forall k, exists n, spi_state bus (k + n) = HAL_SPI_STATE_READY) ->
  error_handler_returns bus = true \/ (forall k, transmit_status bus k = HAL_OK) ->
  exists w',
    returns (fun fuel => EEPROM_CS_LOW ;;;
                         EEPROM_SPI_SendInstruction bus fuel instruction size ;;;
                         EEPROM_CS_HIGH) w tt w'.
Proof.
  intros Hready Hsent.
  destruct (Hready (reads (logged (EvPin CS GPIO_PIN_RESET) w))) as (n & Hn).
  destruct (SendInstruction_returns bus instruction size
              (logged (EvPin CS GPIO_PIN_RESET) w) n) as (w1 & H1).
  { now rewrite Hn. }
  { destruct Hsent as [Hh|Hok]; [now left|right; apply Hok]. }
  exists (logged (EvPin CS GPIO_PIN_SET) w1).
  eapply returns_bind; [apply returns_const; reflexivity|]. cbv beta.
  eapply returns_bind; [exact H1|]. cbv beta.
  apply returns_const. reflexivity.
Qed.

(** X11: writing the status register is three chip-select frames, the
    write-enable command, the write-status-register opcode with the new
    value, and the write-disable command: three transmits and no receive, so
    the end of the device's write cycle is not waited for.  On a bus that
    gets ready and transmits, it returns. *)
Theorem WriteStatusRegister_does_not_poll (cmd : Commands) (bus : Bus) (regval : Z)
    (w : World) :
  (forall fuel x w',
     sEE_WriteStatusRegister cmd bus fuel regval w = Some (x, w') ->
     exists t1 t2 t3,
       trace w' = trace w ++ t1 ++ t2 ++ t3 /\
       framed (sent [EEPROM_WREN cmd]) t1 /\
       framed (sent [EEPROM_WRSR cmd; regval mod 256]) t2 /\
       framed (sent [EEPROM_WRDI cmd]) t3 /\
       transmits w' = (transmits w + 3)%nat /\ receives w' = receives w) /\
  ((forall k, exists n, spi_state bus (k + n) = HAL_SPI_STATE_READY) ->
   error_handler_returns bus = true \/ (forall k, transmit_status bus k = HAL_OK) ->
   exists fuel w', sEE_WriteStatusRegister cmd bus fuel regval w = Some (tt, w')).
Proof.
  split.
  - intros fuel x w' H. unfold sEE_WriteStatusRegister in H.
    apply bind_Some in H as (u1 & w1 & H1 & H).
    apply WriteEnable_spec in H1 as (t1 & dr1 & Hf1 & H1).
    apply bind_Some in H as (u2 & w2 & Hlow & H). apply emit_advance in Hlow.
    apply bind_Some in H as (u3 & w3 & Hs & H).
    apply SendInstruction_spec in Hs as (ts & drs & Hsent & Hs); [|reflexivity|simpl; lia].
    apply bind_Some in H as (u4 & w4 & Hhigh & H). apply emit_advance in Hhigh.
    apply WriteDisable_spec in H as (t3 & dr3 & Hf3 & H3).
    exists t1, (EvPin CS GPIO_PIN_RESET :: ts ++ [EvPin CS GPIO_PIN_SET]), t3.
    pose proof (advance_trans _ _ _ _ _ _ _ _ _ _ _ H1
                  (advance_trans _ _ _ _ _ _ _ _ _ _ _
                     (advance_trans _ _ _ _ _ _ _ _ _ _ _ Hlow
                        (advance_trans _ _ _ _ _ _ _ _ _ _ _ Hs Hhigh)) H3))
      as (Ht & _ & Htx & Hrx).
    split; [exact Ht|]. split; [assumption|]. split; [now exists ts|].
    split; [assumption|]. split; lia.
  - intros Hready Hsent.
    destruct (command_returns bus [EEPROM_WREN cmd] 1 w Hready Hsent) as (w1 & H1).
    destruct (command_returns bus [EEPROM_WRSR cmd; u8 regval] 2 w1 Hready Hsent)
      as (w2 & H2).
    destruct (command_returns bus [EEPROM_WRDI cmd] 1 w2 Hready Hsent) as (w3 & H3).
    assert (Hall : returns (fun fuel => sEE_WriteStatusRegister cmd bus fuel regval) w tt w3).
    { unfold sEE_WriteStatusRegister.
      eapply returns_bind; [exact H1|]. cbv beta.
      destruct H2 as [N2 HN2]. destruct H3 as [N3 HN3].
      exists (Nat.max N2 N3). intros fuel Hf.
      specialize (HN2 fuel ltac:(lia)). specialize (HN3 fuel ltac:(lia)).
      apply bind_Some in HN2 as (a & wa & Ea & HN2).
      apply bind_Some in HN2 as (b & wb & Eb & HN2).
      unfold bind. rewrite Ea, Eb, HN2. exact HN3. }
    destruct Hall as [N HN]. exists (S N), w3. apply HN. lia.
Qed.

Lemma WriteStatusRegister_does_not_poll_witness :
  exists fuel w', sEE_WriteStatusRegister M95 ideal_bus fuel 12 start = Some (tt, w').
Proof.
  apply (proj2 (WriteStatusRegister_does_not_poll M95 ideal_bus 12 start)).
  - intros k. now exists 0%nat.
  - right. reflexivity.
Defined.

(** ** Exchanging a byte *)

Lemma handler_step (bus : Bus) (r : HAL_StatusTypeDef) (w w' : World) (x : unit) :
  (if negb (is_ok r) then Error_Handler bus else ret tt) w = Some (x, w') ->
  advance w w' (if is_ok r then [] else [EvErrorHandler]) 0 0 0 /\
  (is_ok r = true \/ error_handler_returns bus = true).
Proof.
  destruct (is_ok r); simpl; intros H.
  - injection H as _ <-. split; [apply advance_refl|now left].
  - unfold Error_Handler in H. destruct (error_handler_returns bus); [|discriminate].
    apply emit_advance in H. split; [assumption|now right].
Qed.

Lemma is_ok_iff (r : HAL_StatusTypeDef) : is_ok r = true <-> r = HAL_OK.
Proof. destruct r; simpl; split; intros H; (reflexivity || discriminate). Qed.

(** X12: [EEPROM_SendByte] transmits its byte once and receives one byte
    once, each after a wait for a bus out of reset; when it returns, the
    result is the byte the receive left in the buffer, and every transfer
    that was not ok has called the handler, which returned; when a transfer
    is not ok and the handler does not return, it does not return. *)
Theorem SendByte_exchanges_one_byte (bus : Bus) (byte : Z) (w : World) :
  let r := transmit_status bus (transmits w) in
  let r' := receive_status bus (receives w) in
  let answer := receive_data bus (receives w) 0 in
  (forall fuel b w',
     EEPROM_SendByte bus fuel byte w = Some (b, w') ->
     b = answer mod 256 /\
     (exists t0 t1,
        waiting is_reset t0 /\ waiting is_reset t1 /\
        trace w' = trace w ++
          (t0 ++ EvTransmit [byte mod 256] 1 200 r
                 :: (if is_ok r then [] else [EvErrorHandler])) ++
          (t1 ++ EvReceive 1 200 r' [answer]
                 :: (if is_ok r' then [] else [EvErrorHandler]))) /\
     transmits w' = S (transmits w) /\ receives w' = S (receives w) /\
     ((r = HAL_OK /\ r' = HAL_OK) \/ error_handler_returns bus = true)) /\
  (r <> HAL_OK \/ r' <> HAL_OK -> error_handler_returns bus = false ->
   forall fuel, EEPROM_SendByte bus fuel byte w = None).
Proof.
  intros r r' answer.
  assert (Hret : forall fuel b w',
             EEPROM_SendByte bus fuel byte w = Some (b, w') ->
             b = answer mod 256 /\
             (exists t0 t1,
                waiting is_reset t0 /\ waiting is_reset t1 /\
                trace w' = trace w ++
                  (t0 ++ EvTransmit [byte mod 256] 1 200 r
                         :: (if is_ok r then [] else [EvErrorHandler])) ++
                  (t1 ++ EvReceive 1 200 r' [answer]
                         :: (if is_ok r' then [] else [EvErrorHandler]))) /\
             transmits w' = S (transmits w) /\ receives w' = S (receives w) /\
             ((r = HAL_OK /\ r' = HAL_OK) \/ error_handler_returns bus = true)).
  { intros fuel b w' H. unfold EEPROM_SendByte in H.
    apply bind_Some in H as (u0 & w1 & H0 & H).
    apply wait_state_spec in H0 as (t0 & dr0 & Hw0 & H0).
    apply bind_Some in H as (r0 & w2 & Htx & H).
    apply Transmit_advance in Htx as (Er & Htx).
    apply bind_Some in H as (u1 & w3 & He & H).
    apply handler_step in He as (He & Hok).
    apply bind_Some in H as (u2 & w4 & H1 & H).
    apply wait_state_spec in H1 as (t1 & dr1 & Hw1 & H1).
    apply bind_Some in H as (rx & w5 & Hrx & H).
    apply Receive_advance in Hrx as (Erx & Hrx). subst rx. cbn [fst snd] in *.
    apply bind_Some in H as (u3 & w6 & He' & H).
    apply handler_step in He' as (He' & Hok').
    unfold ret in H. injection H as <- <-.
    assert (Et : transmits w1 = transmits w) by (destruct H0 as (_ & _ & T & _); lia).
    assert (Ex : receives w4 = receives w).
    { destruct H0 as (_ & _ & _ & X0). destruct Htx as (_ & _ & _ & X1).
      destruct He as (_ & _ & _ & X2). destruct H1 as (_ & _ & _ & X3). lia. }
    rewrite Et in Er. rewrite Ex in *. subst r0.
    fold r in Htx, He, Hok. fold r' in Hrx, He', Hok'.
    change (Z.to_nat 1) with 1%nat in *. cbn [firstn seq map nth] in *.
    fold answer in Hrx.
    pose proof (advance_trans _ _ _ _ _ _ _ _ _ _ _ H0
                  (advance_trans _ _ _ _ _ _ _ _ _ _ _ Htx
                     (advance_trans _ _ _ _ _ _ _ _ _ _ _ He
                        (advance_trans _ _ _ _ _ _ _ _ _ _ _ H1
                           (advance_trans _ _ _ _ _ _ _ _ _ _ _ Hrx He')))))
      as (Ht & _ & Htxs & Hrxs).
    split; [reflexivity|]. split.
    - exists t0, t1. split; [assumption|]. split; [assumption|].
      rewrite Ht. f_equal. unfold u8. rewrite <- !app_assoc. reflexivity.
    - split; [lia|]. split; [lia|].
      destruct Hok as [Hok|Hh]; [|now right].
      destruct Hok' as [Hok'|Hh]; [|now right].
      left. split; now apply is_ok_iff. }
  split; [exact Hret|].
  intros Hne Hfatal fuel.
  destruct (EEPROM_SendByte bus fuel byte w) as [[b w']|] eqn:E; [|reflexivity].
  apply Hret in E as (_ & _ & _ & _ & [(Hr & Hr')|Hh]); [|congruence].
  destruct Hne; contradiction.
Qed.

Lemma SendByte_exchanges_one_byte_witness :
  (exists w',
     EEPROM_SendByte (memory_bus [300] 0 HAL_OK) 1 5 start = Some (44, w') /\
     transmits w' = 1%nat) /\
  (forall fuel, EEPROM_SendByte (failing_transmit_bus false) fuel 5 start = None).
Proof.
  split.
  - assert (E : exists w',
               EEPROM_SendByte (memory_bus [300] 0 HAL_OK) 1 5 start = Some (44, w'))
      by (vm_compute; eexists; reflexivity).
    destruct E as (w' & E). exists w'. split; [exact E|].
    apply (proj1 (SendByte_exchanges_one_byte (memory_bus [300] 0 HAL_OK) 5 start) _ _ _ E).
  - apply (proj2 (SendByte_exchanges_one_byte (failing_transmit_bus false) 5 start));
      [left; discriminate|reflexivity].
Defined.


(** ** The buffered write that succeeds *)

Lemma last_attempt_result (bus : Bus) (n : nat) :
  forall k d, last (attempt_results bus n k) d = d \/
              exists j, last (attempt_results bus n k) d = transmit_status bus j.
Proof.
  induction n as [|n IH]; intros k d; [now left|].
  cbn [attempt_results]. rewrite last_cons.
  destruct (is_busy (transmit_status bus k)).
  - destruct (IH (S k) (transmit_status bus k)) as [->|(j & ->)]; right; eexists; reflexivity.
  - right. now exists k.
Qed.

(** X13: for a page size above 0, on a live bus on which no transmit
    reports a hard error, the buffered write returns Complete (after all its
    sub-writes, see X5). *)
Theorem WriteBuffer_completes_without_hard_error (cmd : Commands) (bus : Bus) (P : Z)
    (buf : list Z) (A L : Z) (w : World) :
  0 < P ->
  live cmd bus ->
  (forall k, transmit_status bus k <> HAL_ERROR) ->
  exists fuel w',
    EEPROM_SPI_WriteBuffer_bus cmd bus fuel P buf A L w = Some (EEPROM_STATUS_COMPLETE, w').
Proof.
  intros _ Hlive Hok.
  destruct (WriteBuffer_bus_live cmd bus P buf A L w Hlive) as (fuel & r & w' & H).
  exists fuel, w'. rewrite H. f_equal. f_equal.
  rewrite WriteBuffer_bus_runs_issued in H. unfold run_plan in H.
  apply (run_list_result (EEPROM_SPI_WritePage cmd bus fuel buf)
           (fun r => r = EEPROM_STATUS_COMPLETE) (issued P A L)) in H;
    [assumption| |reflexivity].
  intros o a n w0 r0 w0' H0.
  apply WritePage_spec in H0 as (t & dr & m & _ & _ & ->).
  destruct (last_attempt_result bus 5 (transmits w0 + 2) HAL_OK) as [->|(j & ->)];
    [reflexivity|].
  specialize (Hok j). now destruct (transmit_status bus j).
Qed.

Lemma WriteBuffer_completes_without_hard_error_witness :
  exists fuel w',
    EEPROM_SPI_WriteBuffer_bus M95 ideal_bus fuel 32 [1; 2; 3; 4; 5] 30 5 start
    = Some (EEPROM_STATUS_COMPLETE, w').
Proof.
  apply WriteBuffer_completes_without_hard_error.
  - lia.
  - exact ideal_bus_live.
  - intros k. discriminate.
Defined.

(** ** Whole pages in the middle *)

Lemma pages_whole (P : Z) (n : nat) :
  0 < P < 65536 -> 65536 mod P = 0 ->
  forall o a, a mod P = 0 ->
    Forall (fun w => sw_addr w mod P = 0 /\ sw_len w = P) (pages P n o a) /\
    pages_addr P n a mod P = 0.
Proof.
  intros HP Hdiv. induction n as [|n IH]; intros o a Ha; cbn [pages pages_addr].
  - split; [constructor|assumption].
  - assert (Hnext : u16 (a + P) mod P = 0).
    { rewrite u16_mod_divisor by (lia || assumption).
      replace (a + P) with (a + 1 * P) by lia. now rewrite Z.mod_add by lia. }
    destruct (IH (o + P) _ Hnext) as (Hall & Hend).
    split; [|assumption]. constructor; [|assumption].
    cbn [sw_addr sw_len]. split; [assumption|apply u16_small; lia].
Qed.

Lemma Forall_removelast {X : Type} (Q : X -> Prop) (l : list X) :
  Forall Q l -> Forall Q (removelast l).
Proof.
  induction 1 as [|x l Hx Hl IH]; [constructor|].
  destruct l as [|y l]; [constructor|]. cbn [removelast]. now constructor.
Qed.

(** X14: for a page size that is a power of two below 2^16, every sub-write
    but the first starts on a page boundary, and every sub-write between the
    first and the last writes exactly one whole page. *)
Theorem middle_sub_writes_are_whole_pages (P A L : Z) :
  pow2 P -> P < 65536 -> is_u16 A -> is_u16 L ->
  exists first rest,
    issued P A L = first :: rest /\
    Forall (fun w => sw_addr w mod P = 0) rest /\
    Forall (fun w => sw_addr w mod P = 0 /\ sw_len w = P) (removelast rest).
Proof.
  intros Hpow Hlt HA HL. unfold is_u16 in *.
  destruct (pow2_cases P Hpow) as [Hpos [[_ Hdiv]|[Hge _]]]; [|lia].
  assert (HP : 0 < P < 65536) by lia.
  pose proof (Z.mod_pos_bound A P ltac:(lia)) as Hr.
  rewrite issued_plan. unfold plan.
  rewrite (u16_small (A mod P)), (u16_small (P - A mod P)) by lia.
  assert (Hweak : forall l, Forall (fun w => sw_addr w mod P = 0 /\ sw_len w = P) l ->
                            Forall (fun w => sw_addr w mod P = 0) l).
  { intros l Hl. eapply Forall_impl; [|exact Hl]. now intros w (? & _). }
  destruct (Z.eqb_spec (A mod P) 0) as [E0|N0].
  - destruct (u16 (L / P) =? 0).
    + exists (mkSubWrite 0 A L), []. repeat split; constructor.
    + destruct (pages_whole P (Z.to_nat (u16 (L / P))) HP Hdiv 0 A E0) as (Hall & Hend).
      destruct (pages P (Z.to_nat (u16 (L / P))) 0 A) as [|c cs] eqn:Ep.
      * eexists. exists []. repeat split; constructor.
      * exists c. eexists. split; [reflexivity|].
        inversion Hall as [|c' cs' _ Hcs]; subst. split.
        -- apply Forall_app. split; [now apply Hweak|]. now repeat constructor.
        -- now rewrite removelast_last.
  - assert (Hnext : u16 (A + (P - A mod P)) mod P = 0).
    { rewrite u16_mod_divisor by (lia || assumption). apply aligned_next. lia. }
    destruct (u16 (L / P) =? 0).
    + destruct (u16 (L mod P) >? P - A mod P).
      * eexists. eexists. split; [reflexivity|]. split; [now repeat constructor|constructor].
      * eexists. exists []. repeat split; constructor.
    + set (n := Z.to_nat (u16 (u16 (L - (P - A mod P)) / P))).
      destruct (pages_whole P n HP Hdiv (0 + (P - A mod P)) _ Hnext) as (Hall & Hend).
      eexists. eexists. split; [reflexivity|].
      destruct (negb (u16 (u16 (L - (P - A mod P)) mod P) =? 0)).
      * split.
        -- apply Forall_app. split; [now apply Hweak|]. now repeat constructor.
        -- now rewrite removelast_last.
      * rewrite app_nil_r. split; [now apply Hweak|now apply Forall_removelast].
Qed.

Lemma middle_sub_writes_are_whole_pages_witness :
  exists first rest,
    issued 32 30 100 = first :: rest /\
    Forall (fun w => sw_addr w mod 32 = 0) rest /\
    Forall (fun w => sw_addr w mod 32 = 0 /\ sw_len w = 32) (removelast rest).
Proof.
  apply middle_sub_writes_are_whole_pages.
  - exists 5. split; [lia|reflexivity].
  - lia.
  - unfold is_u16. lia.
  - unfold is_u16. lia.
Defined.
